(** * Token lifecycle of the email package (internal/email)

    A shallow embedding of [email.go] and [tokens.go]: secure generation of
    reset codes and verification tokens, hash-at-rest storage, constant-time
    comparison, single-use verification, expiry, rate limiting and cleanup.

    Go values are embedded as follows.
    - [int], [*big.Int], [time.Time] (nanoseconds since the epoch) and
      [time.Duration] (nanoseconds) are [Z]; a [byte] is a [Z] in [0,256).
    - a Go [string] is a sequence of bytes, here Rocq's [string] of 8-bit
      [ascii]; [[]byte(s)] and [string(b)] are [bytes_of_string] and
      [string_of_bytes].
    - [*sql.DB] is a pair of tables (lists of rows in insertion order) and a
      sequence for the SERIAL key.  A statement is a function on the tables;
      where SQL leaves the choice of a row open (rows created at the same
      instant under ORDER BY, LIMIT 1 without an order) the first row of the
      table is taken.  Every statement may also be refused by the store (a
      lost connection, a constraint of the schema): the method then sees an
      error and the tables are as before.
    - [time.Now], [crypto/rand], the refusals of the store and the
      [EmailService] are the environment of a run; they are read through
      oracles indexed by the number of calls made so far.
    - a Go method is a function from the state of the run to a result and
      the state after it; the state survives an error. *)

From Stdlib Require Import ZArith List String Ascii Bool Lia Arith.
Import ListNotations.
Open Scope string_scope.
Open Scope list_scope.
Open Scope Z_scope.

(** ** Bytes and strings *)

Definition is_byte (b : Z) : Prop := 0 <= b < 256.

Definition byte_of_ascii (c : ascii) : Z := Z.of_N (N_of_ascii c).
Definition ascii_of_byte (b : Z) : ascii := ascii_of_N (Z.to_N b).

(** [[]byte(s)] *)
Fixpoint bytes_of_string (s : string) : list Z :=
  match s with
  | EmptyString => []
  | String c s' => byte_of_ascii c :: bytes_of_string s'
  end.

(** [string(b)] *)
Fixpoint string_of_bytes (bs : list Z) : string :=
  match bs with
  | [] => EmptyString
  | b :: bs' => String (ascii_of_byte b) (string_of_bytes bs')
  end.

(** ** crypto/sha256 *)

Module SHA256.

Definition w32 (x : Z) : Z := x mod 2 ^ 32.
Definition add32 (x y : Z) : Z := w32 (x + y).
Definition not32 (x : Z) : Z := Z.lxor x (2 ^ 32 - 1).
Definition rotr (n x : Z) : Z :=
  Z.lor (Z.shiftr x n) (w32 (Z.shiftl x (32 - n))).

Definition Ch (x y z : Z) : Z := Z.lxor (Z.land x y) (Z.land (not32 x) z).
Definition Maj (x y z : Z) : Z :=
  Z.lxor (Z.lxor (Z.land x y) (Z.land x z)) (Z.land y z).
Definition bsig0 (x : Z) : Z :=
  Z.lxor (Z.lxor (rotr 2 x) (rotr 13 x)) (rotr 22 x).
Definition bsig1 (x : Z) : Z :=
  Z.lxor (Z.lxor (rotr 6 x) (rotr 11 x)) (rotr 25 x).
Definition ssig0 (x : Z) : Z :=
  Z.lxor (Z.lxor (rotr 7 x) (rotr 18 x)) (Z.shiftr x 3).
Definition ssig1 (x : Z) : Z :=
  Z.lxor (Z.lxor (rotr 17 x) (rotr 19 x)) (Z.shiftr x 10).

Definition K : list Z :=
  [ 1116352408; 1899447441; 3049323471; 3921009573;
    961987163; 1508970993; 2453635748; 2870763221;
    3624381080; 310598401; 607225278; 1426881987;
    1925078388; 2162078206; 2614888103; 3248222580;
    3835390401; 4022224774; 264347078; 604807628;
    770255983; 1249150122; 1555081692; 1996064986;
    2554220882; 2821834349; 2952996808; 3210313671;
    3336571891; 3584528711; 113926993; 338241895;
    666307205; 773529912; 1294757372; 1396182291;
    1695183700; 1986661051; 2177026350; 2456956037;
    2730485921; 2820302411; 3259730800; 3345764771;
    3516065817; 3600352804; 4094571909; 275423344;
    430227734; 506948616; 659060556; 883997877;
    958139571; 1322822218; 1537002063; 1747873779;
    1955562222; 2024104815; 2227730452; 2361852424;
    2428436474; 2756734187; 3204031479; 3329325298 ].

Record state : Type := mkState
  { h0 : Z; h1 : Z; h2 : Z; h3 : Z; h4 : Z; h5 : Z; h6 : Z; h7 : Z }.

Definition init : state :=
  mkState 1779033703 3144134277 1013904242 2773480762
          1359893119 2600822924 528734635 1541459225.

(** big-endian encodings *)
Definition be32 (w : Z) : list Z :=
  [ (w / 2 ^ 24) mod 256; (w / 2 ^ 16) mod 256; (w / 2 ^ 8) mod 256; w mod 256 ].
Definition be64 (w : Z) : list Z := be32 (w / 2 ^ 32) ++ be32 w.

Fixpoint words (bs : list Z) : list Z :=
  match bs with
  | a :: b :: c :: d :: rest =>
      (a * 2 ^ 24 + b * 2 ^ 16 + c * 2 ^ 8 + d) :: words rest
  | _ => []
  end.

(** message: the data, the bit [1], zeros up to 56 mod 64, the bit length *)
Definition pad (msg : list Z) : list Z :=
  let l := Z.of_nat (List.length msg) in
  msg ++ [128] ++ repeat 0 (Z.to_nat ((55 - l) mod 64)) ++ be64 (8 * l).

Fixpoint blocks (fuel : nat) (bs : list Z) : list (list Z) :=
  match fuel with
  | O => []
  | S fuel' =>
      match bs with
      | [] => []
      | _ => firstn 64 bs :: blocks fuel' (skipn 64 bs)
      end
  end.

(** message schedule: [w] holds W[0..i-1]; [n] more words are appended *)
Fixpoint schedule (n : nat) (w : list Z) : list Z :=
  match n with
  | O => w
  | S n' =>
      let i := List.length w in
      let at_ k := nth (i - k) w 0 in
      schedule n' (w ++ [add32 (add32 (ssig1 (at_ 2%nat)) (at_ 7%nat))
                                (add32 (ssig0 (at_ 15%nat)) (at_ 16%nat))])
  end.

Definition round (s : state) (kw : Z * Z) : state :=
  let '(k, w) := kw in
  let t1 := add32 (add32 (add32 (h7 s) (bsig1 (h4 s)))
                         (add32 (Ch (h4 s) (h5 s) (h6 s)) k)) w in
  let t2 := add32 (bsig0 (h0 s)) (Maj (h0 s) (h1 s) (h2 s)) in
  mkState (add32 t1 t2) (h0 s) (h1 s) (h2 s)
          (add32 (h3 s) t1) (h4 s) (h5 s) (h6 s).

Definition compress (s : state) (block : list Z) : state :=
  let w := schedule 48 (words block) in
  let r := fold_left round (combine K w) s in
  mkState (add32 (h0 s) (h0 r)) (add32 (h1 s) (h1 r))
          (add32 (h2 s) (h2 r)) (add32 (h3 s) (h3 r))
          (add32 (h4 s) (h4 r)) (add32 (h5 s) (h5 r))
          (add32 (h6 s) (h6 r)) (add32 (h7 s) (h7 r)).

Definition digest (s : state) : list Z :=
  be32 (h0 s) ++ be32 (h1 s) ++ be32 (h2 s) ++ be32 (h3 s) ++
  be32 (h4 s) ++ be32 (h5 s) ++ be32 (h6 s) ++ be32 (h7 s).

(** [sha256.Sum256] *)
Definition Sum256 (data : list Z) : list Z :=
  let m := pad data in
  digest (fold_left compress (blocks (List.length m) m) init).

End SHA256.

(** ** crypto/subtle *)

Module subtle.

(** [ConstantTimeByteEq(x, y uint8) int]:
    [int((uint32(x^y) - 1) >> 31)] *)
Definition ConstantTimeByteEq (x y : Z) : Z :=
  Z.shiftr ((Z.lxor x y - 1) mod 2 ^ 32) 31.

(** the accumulator [v |= x[i] ^ y[i]] over slices of equal length *)
Fixpoint accumulate (v : Z) (x y : list Z) : Z :=
  match x, y with
  | a :: x', b :: y' => accumulate (Z.lor v (Z.lxor a b)) x' y'
  | _, _ => v
  end.

(** [ConstantTimeCompare(x, y []byte) int] *)
Definition ConstantTimeCompare (x y : list Z) : Z :=
  if negb (Nat.eqb (List.length x) (List.length y)) then 0
  else ConstantTimeByteEq (accumulate 0 x y) 0.

End subtle.

(** ** email.go: hashing *)

(** [hashToken]: SHA-256 of the token, a [[32]byte] *)
Definition hashToken (token : string) : list Z :=
  SHA256.Sum256 (bytes_of_string token).

(** [validateTokenConstantTime] *)
Definition validateTokenConstantTime (provided stored : string) : bool :=
  let providedHash := hashToken provided in
  let storedHash := hashToken stored in
  subtle.ConstantTimeCompare providedHash storedHash =? 1.


(** ** email.go: errors *)

Inductive error : Type :=
  | ErrInvalidProvider
  | ErrInvalidEmail
  | ErrRateLimitExceeded
  | ErrTokenExpired
  | ErrTokenAlreadyUsed
  | ErrInvalidToken
  | sql_ErrNoRows                          (* database/sql *)
  | driver_error                           (* a statement refused by the store *)
  | entropy_error                          (* crypto/rand could not read *)
  | delivery_error                         (* the EmailService failed *)
  | errors_New (msg : string)
  | fmt_Errorf (msg : string) (wrapped : error).   (* "msg: %w" *)

Inductive Result (A : Type) : Type :=
  | Ok (a : A)
  | Err (e : error).
Arguments Ok {A} a.
Arguments Err {A} e.

(** ** email.go: address validation *)

(** [strings.Contains] *)
Fixpoint strings_Contains (s substr : string) : bool :=
  String.prefix substr s ||
  match s with
  | EmptyString => false
  | String _ s' => strings_Contains s' substr
  end.

(** [strings.Split] for a separator of one byte: [cur] is the part read so
    far, reversed *)
Fixpoint split_from (sep : ascii) (s : string) (cur : list ascii) : list string :=
  match s with
  | EmptyString => [string_of_list_ascii (rev cur)]
  | String c s' =>
      if Ascii.eqb c sep
      then string_of_list_ascii (rev cur) :: split_from sep s' []
      else split_from sep s' (c :: cur)
  end.

Definition strings_Split (s : string) (sep : ascii) : list string :=
  split_from sep s [].

Definition blockedDomains : list string :=
  [ "localhost"; "127.0.0.1"; "0.0.0.0"; "10."; "192.168."; "172." ].

(** [isValidEmail] *)
Definition isValidEmail (email : string) : bool :=
  if String.eqb email "" then false
  else
    match strings_Split email "@"%char with
    | [ local; domain ] =>
        if String.eqb local "" || String.eqb domain "" then false
        else negb (existsb (fun blocked => strings_Contains domain blocked)
                           blockedDomains)
    | _ => false
    end.

Definition LF : string := String (ascii_of_nat 10) EmptyString.
Definition CR : string := String (ascii_of_nat 13) EmptyString.

(** [sanitizeEmail] *)
Definition sanitizeEmail (email : string) : Result unit :=
  if strings_Contains email LF || strings_Contains email CR
  then Err (errors_New "invalid email format: contains newline characters")
  else Ok tt.

(** [validateEmailAddress] *)
Definition validateEmailAddress (email : string) : Result unit :=
  match sanitizeEmail email with
  | Err err => Err err
  | Ok _ => if negb (isValidEmail email) then Err ErrInvalidEmail else Ok tt
  end.

(** ** fmt and encoding/base64 *)

Definition digit_char (d : Z) : ascii := ascii_of_byte (48 + d).

(** decimal digits of a natural number, most significant first *)
Fixpoint decimal_from (fuel : nat) (n : Z) (acc : string) : string :=
  match fuel with
  | O => acc
  | S fuel' =>
      let acc' := String (digit_char (n mod 10)) acc in
      if n <? 10 then acc' else decimal_from fuel' (n / 10) acc'
  end.

Definition decimal (n : Z) : string :=
  decimal_from (S (Z.to_nat (Z.log2 n))) n "".

Fixpoint zeros (k : nat) : string :=
  match k with
  | O => ""
  | S k' => String "0"%char (zeros k')
  end.

(** [fmt.Sprintf("%0<width>d", n)]: sign, zeros up to the width, digits *)
Definition Sprintf_0d (width : Z) (n : Z) : string :=
  let sign := if n <? 0 then "-" else "" in
  let digits := decimal (Z.abs n) in
  let fill := width - Z.of_nat (String.length sign)
                    - Z.of_nat (String.length digits) in
  String.append sign (String.append (zeros (Z.to_nat fill)) digits).

Definition encodeURL : string :=
  "ABCDEFGHIJKLMNOPQRSTUVWXYZabcdefghijklmnopqrstuvwxyz0123456789-_".

Definition enc (i : Z) : ascii :=
  match String.get (Z.to_nat i) encodeURL with
  | Some c => c
  | None => "="%char
  end.

(** [base64.URLEncoding.EncodeToString] *)
Fixpoint EncodeToString (src : list Z) : string :=
  match src with
  | a :: b :: c :: rest =>
      String (enc (a / 4))
        (String (enc ((a mod 4) * 16 + b / 16))
           (String (enc ((b mod 16) * 4 + c / 64))
              (String (enc (c mod 64)) (EncodeToString rest))))
  | [ a; b ] =>
      String (enc (a / 4))
        (String (enc ((a mod 4) * 16 + b / 16))
           (String (enc ((b mod 16) * 4)) "="))
  | [ a ] =>
      String (enc (a / 4)) (String (enc ((a mod 4) * 16)) "==")
  | [] => ""
  end.

(** a decimal digit, ['0'] to ['9'] *)
Definition is_digit (c : ascii) : bool :=
  (48 <=? byte_of_ascii c) && (byte_of_ascii c <=? 57).

Fixpoint all_digits (s : string) : bool :=
  match s with
  | EmptyString => true
  | String c s' => is_digit c && all_digits s'
  end.

(** ** tokens.go: data *)

Definition Nanosecond : Z := 1.
Definition Second : Z := 1000000000 * Nanosecond.
Definition Minute : Z := 60 * Second.
Definition Hour : Z := 60 * Minute.

Inductive TokenType : Type :=
  | TokenTypePasswordReset
  | TokenTypeEmailVerification
  | TokenTypeMagicLink.

Definition TokenType_eqb (a b : TokenType) : bool :=
  match a, b with
  | TokenTypePasswordReset, TokenTypePasswordReset
  | TokenTypeEmailVerification, TokenTypeEmailVerification
  | TokenTypeMagicLink, TokenTypeMagicLink => true
  | _, _ => false
  end.

Record EmailToken : Type := mkEmailToken
  { ID : Z;
    Token : string;             (* hashed token *)
    UserID : Z;
    Email : string;
    Type_ : TokenType;
    ExpiresAt : Z;
    Used : bool;
    CreatedAt : Z;
    RequestIP : string;
    UserAgent : string }.

Record PasswordResetRequest : Type := mkPasswordResetRequest
  { reset_Email : string;
    reset_RequestIP : string;
    reset_UserAgent : string }.

Record EmailVerificationRequest : Type := mkEmailVerificationRequest
  { verif_UserID : Z;
    verif_Email : string;
    verif_Name : string;
    verif_RequestIP : string;
    verif_UserAgent : string }.

Record SecurityContext : Type := mkSecurityContext
  { ctx_RequestIP : string;
    ctx_UserAgent : string;
    ctx_RequestTime : Z }.

(** a row of [users], as far as the token manager reads and writes it *)
Record User : Type := mkUser
  { user_id : Z;
    user_email : string;
    email_verified_at : option Z }.

(** what the [EmailService] is asked to deliver *)
Inductive Delivery : Type :=
  | PasswordResetCode (to code : string) (securityCtx : SecurityContext)
  | EmailVerification (to name verificationURL : string).

(** ** The store *)

Record DB : Type := mkDB
  { email_tokens : list EmailToken;
    users : list User;
    email_tokens_id_seq : Z }.        (* next value of the SERIAL key *)

Definition with_tokens (d : DB) (rows : list EmailToken) : DB :=
  mkDB rows (users d) (email_tokens_id_seq d).

Definition mark_used (t : EmailToken) : EmailToken :=
  mkEmailToken (ID t) (Token t) (UserID t) (Email t) (Type_ t)
               (ExpiresAt t) true (CreatedAt t) (RequestIP t) (UserAgent t).

(** the rows of an INSERT take consecutive keys *)
Fixpoint number_rows (next : Z) (rows : list (Z -> EmailToken)) : list EmailToken :=
  match rows with
  | [] => []
  | r :: rows' => r next :: number_rows (next + 1) rows'
  end.

Definition insert_rows (rows : list (Z -> EmailToken)) (d : DB) : unit * DB :=
  (tt, mkDB (email_tokens d ++ number_rows (email_tokens_id_seq d) rows)
            (users d)
            (email_tokens_id_seq d + Z.of_nat (List.length rows))).

(** INSERT INTO email_tokens (...) SELECT $1, u.id, $2, $3, $4, false, $5, $6, $7
    FROM users u WHERE u.email = $2 *)
Definition insert_token_for_email
    (token email : string) (ty : TokenType) (expires created : Z)
    (ip ua : string) (d : DB) : unit * DB :=
  insert_rows
    (map (fun u id => mkEmailToken id token (user_id u) email ty expires false
                                   created ip ua)
         (filter (fun u => String.eqb (user_email u) email) (users d)))
    d.

(** INSERT INTO email_tokens (...) VALUES ($1, $2, $3, $4, $5, false, $6, $7, $8) *)
Definition insert_token
    (token : string) (uid : Z) (email : string) (ty : TokenType)
    (expires created : Z) (ip ua : string) (d : DB) : unit * DB :=
  insert_rows
    [ fun id => mkEmailToken id token uid email ty expires false created ip ua ]
    d.

(** the first row of [rows] ordered by created_at DESC; rows created at the
    same instant keep the order of the table *)
Fixpoint latest (best : option EmailToken) (rows : list EmailToken)
  : option EmailToken :=
  match rows with
  | [] => best
  | r :: rows' =>
      match best with
      | None => latest (Some r) rows'
      | Some b =>
          if CreatedAt b <? CreatedAt r then latest (Some r) rows'
          else latest best rows'
      end
  end.

(** SELECT ... FROM email_tokens WHERE email = $1 AND type = $2 AND used = false
    ORDER BY created_at DESC LIMIT 1 *)
Definition unused_for (email : string) (ty : TokenType) (t : EmailToken) : bool :=
  String.eqb (Email t) email && TokenType_eqb (Type_ t) ty && negb (Used t).

Definition select_latest_unused (email : string) (ty : TokenType) (d : DB)
  : option EmailToken :=
  latest None (filter (unused_for email ty) (email_tokens d)).

(** SELECT ... FROM email_tokens WHERE token = $1 AND type = $2 AND used = false
    LIMIT 1: the first such row of the table *)
Definition unused_with (token : string) (ty : TokenType) (t : EmailToken) : bool :=
  String.eqb (Token t) token && TokenType_eqb (Type_ t) ty && negb (Used t).

Definition select_unused_by_token (token : string) (ty : TokenType) (d : DB)
  : option EmailToken :=
  find (unused_with token ty) (email_tokens d).

(** UPDATE email_tokens SET used = true WHERE id = $1 *)
Definition update_used (id : Z) (d : DB) : unit * DB :=
  (tt, with_tokens d
         (map (fun t => if ID t =? id then mark_used t else t) (email_tokens d))).

(** UPDATE users SET email_verified_at = $1 WHERE id = $2
    AND email_verified_at IS NULL *)
Definition update_verified (now uid : Z) (d : DB) : unit * DB :=
  (tt, mkDB (email_tokens d)
            (map (fun u =>
                    if (user_id u =? uid) &&
                       match email_verified_at u with None => true | Some _ => false end
                    then mkUser (user_id u) (user_email u) (Some now)
                    else u)
                 (users d))
            (email_tokens_id_seq d)).

(** DELETE FROM email_tokens
    WHERE expires_at < $1 OR (used = true AND created_at < $2) *)
Definition swept (now cutoff : Z) (t : EmailToken) : bool :=
  (ExpiresAt t <? now) || (Used t && (CreatedAt t <? cutoff)).

Definition delete_swept (now cutoff : Z) (d : DB) : unit * DB :=
  (tt, with_tokens d (filter (fun t => negb (swept now cutoff t)) (email_tokens d))).

(** SELECT COUNT( * ) FROM email_tokens
    WHERE email = $1 AND type = $2 AND created_at > $3 *)
Definition issued_since (email : string) (ty : TokenType) (since : Z)
    (t : EmailToken) : bool :=
  String.eqb (Email t) email && TokenType_eqb (Type_ t) ty && (since <? CreatedAt t).

Definition count_issued_since (email : string) (ty : TokenType) (since : Z)
    (d : DB) : option Z :=
  Some (Z.of_nat (List.length (filter (issued_since email ty since) (email_tokens d)))).

(** SELECT type, COUNT( * ) FROM email_tokens
    WHERE expires_at > $1 AND used = false GROUP BY type *)
Definition active_of (ty : TokenType) (now : Z) (t : EmailToken) : bool :=
  TokenType_eqb (Type_ t) ty && (now <? ExpiresAt t) && negb (Used t).

Definition count_active_by_type (now : Z) (d : DB) : list (TokenType * Z) :=
  filter (fun g => 0 <? snd g)
    (map (fun ty =>
            (ty, Z.of_nat (List.length (filter (active_of ty now) (email_tokens d)))))
         [ TokenTypePasswordReset; TokenTypeEmailVerification; TokenTypeMagicLink ]).

(** SELECT COUNT( * ) FROM email_tokens WHERE expires_at <= $1 *)
Definition count_expired (now : Z) (d : DB) : option Z :=
  Some (Z.of_nat (List.length (filter (fun t => ExpiresAt t <=? now) (email_tokens d)))).

(** ** The environment and the state of a run *)

Record Env : Type := mkEnv
  { clock : nat -> Z;                      (* the n-th reading of time.Now() *)
    store_refuses : nat -> bool;           (* is the n-th statement refused? *)
    rand_Int_draw : nat -> option Z;       (* rand.Int at the n-th use of crypto/rand *)
    rand_Read_draw : nat -> option (list Z); (* rand.Read at the n-th use *)
    notifier_fails : nat -> bool;          (* does the n-th delivery fail? *)
    VerificationURL : string }.            (* config.GetAppConfig().VerificationURL *)

Record World : Type := mkWorld
  { db : DB;
    handed : list Delivery;    (* calls received by the EmailService, oldest first *)
    env : Env;
    readings : nat;            (* calls of time.Now() so far *)
    statements : nat;          (* statements sent to the store so far *)
    draws : nat;               (* uses of crypto/rand so far *)
    deliveries : nat }.        (* calls of the EmailService so far *)

(** state and error monad of the Go methods: the state survives an error *)
Definition M (A : Type) : Type := World -> Result A * World.

Definition ret {A} (a : A) : M A := fun w => (Ok a, w).
Definition fail {A} (e : error) : M A := fun w => (Err e, w).
Definition bind {A B} (m : M A) (k : A -> M B) : M B :=
  fun w =>
    match m w with
    | (Ok a, w') => k a w'
    | (Err e, w') => (Err e, w')
    end.
Definition lift {A} (r : Result A) : M A := fun w => (r, w).

(** [if err != nil { return f(err) }] *)
Definition on_error {A} (f : error -> error) (m : M A) : M A :=
  fun w =>
    match m w with
    | (Ok a, w') => (Ok a, w')
    | (Err e, w') => (Err (f e), w')
    end.

Notation "x <- m ;; k" := (bind m (fun x => k))
  (at level 61, m at next level, right associativity).
Notation "m ;;; k" := (bind m (fun _ => k))
  (at level 61, right associativity).

(** [time.Now()] *)
Definition time_Now : M Z :=
  fun w =>
    (Ok (clock (env w) (readings w)),
     mkWorld (db w) (handed w) (env w) (S (readings w)) (statements w)
             (draws w) (deliveries w)).

(** [db.Exec]: a statement that writes *)
Definition db_Exec {A} (stmt : DB -> A * DB) : M A :=
  fun w =>
    if store_refuses (env w) (statements w)
    then (Err driver_error,
          mkWorld (db w) (handed w) (env w) (readings w) (S (statements w))
                  (draws w) (deliveries w))
    else
      let '(a, d) := stmt (db w) in
      (Ok a,
       mkWorld d (handed w) (env w) (readings w) (S (statements w))
               (draws w) (deliveries w)).

(** [db.QueryRow(...).Scan(...)]: a query for one row *)
Definition db_QueryRow {A} (query : DB -> option A) : M A :=
  fun w =>
    let w' := mkWorld (db w) (handed w) (env w) (readings w) (S (statements w))
                      (draws w) (deliveries w) in
    if store_refuses (env w) (statements w) then (Err driver_error, w')
    else
      match query (db w) with
      | Some a => (Ok a, w')
      | None => (Err sql_ErrNoRows, w')
      end.

(** [db.Query] and the loop over [rows.Next()] *)
Definition db_Query {A} (query : DB -> list A) : M (list A) :=
  fun w =>
    let w' := mkWorld (db w) (handed w) (env w) (readings w) (S (statements w))
                      (draws w) (deliveries w) in
    if store_refuses (env w) (statements w) then (Err driver_error, w')
    else (Ok (query (db w)), w').

(** [rand.Int(rand.Reader, max)]: the value drawn or an error; that the value
    is in [[0, max)], the contract of [rand.Int], is assumed where it matters *)
Definition rand_Int (max : Z) : M Z :=
  fun w =>
    let w' := mkWorld (db w) (handed w) (env w) (readings w) (statements w)
                      (S (draws w)) (deliveries w) in
    match rand_Int_draw (env w) (draws w) with
    | Some n => (Ok n, w')
    | None => (Err entropy_error, w')
    end.

(** [rand.Read(b)] on a fresh buffer of [n] bytes *)
Definition rand_Read (n : nat) : M (list Z) :=
  fun w =>
    let w' := mkWorld (db w) (handed w) (env w) (readings w) (statements w)
                      (S (draws w)) (deliveries w) in
    match rand_Read_draw (env w) (draws w) with
    | Some bs => (Ok (firstn n (map (fun b => b mod 256) bs ++ repeat 0 n)), w')
    | None => (Err entropy_error, w')
    end.

(** a method of the [EmailService] *)
Definition deliver (d : Delivery) : M unit :=
  fun w =>
    let w' := mkWorld (db w) (handed w ++ [d]) (env w) (readings w) (statements w)
                      (draws w) (S (deliveries w)) in
    if notifier_fails (env w) (deliveries w) then (Err delivery_error, w')
    else (Ok tt, w').

Definition SendPasswordResetCode (to code : string) (securityCtx : SecurityContext)
  : M unit :=
  deliver (PasswordResetCode to code securityCtx).

Definition SendEmailVerification (to name verificationURL : string) : M unit :=
  deliver (EmailVerification to name verificationURL).

(** [AppConfig.GetVerificationURL] *)
Definition GetVerificationURL (token : string) : M string :=
  fun w => (Ok (String.append (VerificationURL (env w))
                              (String.append "?token=" token)), w).

(** ** email.go: generation *)

(** [generateSecureToken] *)
Definition generateSecureToken : M string :=
  bytes <- on_error (fmt_Errorf "failed to generate secure token") (rand_Read 32) ;;
  ret (EncodeToString bytes).

(** the loop [for i := 0; i < length; i++ { max.Mul(max, big.NewInt(10)) }] *)
Fixpoint times_ten (iterations : nat) (max : Z) : Z :=
  match iterations with
  | O => max
  | S k => times_ten k (max * 10)
  end.

(** [generateNumericCode] *)
Definition generateNumericCode (length : Z) : M string :=
  if (length <=? 0) || (10 <? length)
  then fail (errors_New "code length must be between 1 and 10")
  else
    let max := times_ten (Z.to_nat length) 1 in
    n <- on_error (fmt_Errorf "failed to generate numeric code") (rand_Int max) ;;
    ret (Sprintf_0d length n).

(** ** tokens.go: the token manager *)

(** [checkRateLimit] *)
Definition checkRateLimit (email : string) (tokenType : TokenType) : M unit :=
  now <- time_Now ;;
  count <- on_error (fmt_Errorf "failed to check rate limit")
             (db_QueryRow (count_issued_since email tokenType (now + - Hour))) ;;
  if 3 <=? count then fail ErrRateLimitExceeded else ret tt.

(** [RequestPasswordReset] *)
Definition RequestPasswordReset (req : PasswordResetRequest) : M unit :=
  lift (validateEmailAddress (reset_Email req)) ;;;
  checkRateLimit (reset_Email req) TokenTypePasswordReset ;;;
  code <- on_error (fmt_Errorf "failed to generate reset code")
            (generateNumericCode 6) ;;
  let hashedCode := hashToken code in
  now <- time_Now ;;
  let expiresAt := now + 15 * Minute in
  created <- time_Now ;;
  on_error (fmt_Errorf "failed to store password reset token")
    (db_Exec (insert_token_for_email (string_of_bytes hashedCode) (reset_Email req)
                TokenTypePasswordReset expiresAt created
                (reset_RequestIP req) (reset_UserAgent req))) ;;;
  requestTime <- time_Now ;;
  let securityCtx :=
    mkSecurityContext (reset_RequestIP req) (reset_UserAgent req) requestTime in
  SendPasswordResetCode (reset_Email req) code securityCtx.

(** [VerifyPasswordResetCode] *)
Definition VerifyPasswordResetCode (email code : string) : M EmailToken :=
  lift (validateEmailAddress email) ;;;
  if String.eqb code "" then fail (errors_New "code cannot be empty")
  else
    let providedHash := hashToken code in
    token <- on_error
               (fun err =>
                  match err with
                  | sql_ErrNoRows => ErrInvalidToken
                  | _ => fmt_Errorf "failed to lookup token" err
                  end)
               (db_QueryRow (select_latest_unused email TokenTypePasswordReset)) ;;
    now <- time_Now ;;
    if ExpiresAt token <? now then fail ErrTokenExpired
    else
      let storedHash := bytes_of_string (Token token) in
      if negb (subtle.ConstantTimeCompare providedHash storedHash =? 1)
      then fail ErrInvalidToken
      else
        on_error (fmt_Errorf "failed to mark token as used")
          (db_Exec (update_used (ID token))) ;;;
        ret token.

(** [RequestEmailVerification] *)
Definition RequestEmailVerification (req : EmailVerificationRequest) : M unit :=
  lift (validateEmailAddress (verif_Email req)) ;;;
  if verif_UserID req <=? 0 then fail (errors_New "user ID is required")
  else
    token <- on_error (fmt_Errorf "failed to generate verification token")
               generateSecureToken ;;
    let hashedToken := hashToken token in
    now <- time_Now ;;
    let expiresAt := now + 48 * Hour in
    created <- time_Now ;;
    on_error (fmt_Errorf "failed to store verification token")
      (db_Exec (insert_token (string_of_bytes hashedToken) (verif_UserID req)
                  (verif_Email req) TokenTypeEmailVerification expiresAt created
                  (verif_RequestIP req) (verif_UserAgent req))) ;;;
    verificationURL <- GetVerificationURL token ;;
    SendEmailVerification (verif_Email req) (verif_Name req) verificationURL.

(** [VerifyEmailToken] *)
Definition VerifyEmailToken (token : string) : M EmailToken :=
  if String.eqb token "" then fail (errors_New "token cannot be empty")
  else
    let providedHash := hashToken token in
    emailToken <- on_error
                    (fun err =>
                       match err with
                       | sql_ErrNoRows => ErrInvalidToken
                       | _ => fmt_Errorf "failed to lookup token" err
                       end)
                    (db_QueryRow (select_unused_by_token
                                    (string_of_bytes providedHash)
                                    TokenTypeEmailVerification)) ;;
    now <- time_Now ;;
    if ExpiresAt emailToken <? now then fail ErrTokenExpired
    else
      on_error (fmt_Errorf "failed to mark token as used")
        (db_Exec (update_used (ID emailToken))) ;;;
      verifiedAt <- time_Now ;;
      on_error (fmt_Errorf "failed to mark email as verified")
        (db_Exec (update_verified verifiedAt (UserID emailToken))) ;;;
      ret emailToken.

(** [CleanupExpiredTokens] *)
Definition CleanupExpiredTokens : M unit :=
  now <- time_Now ;;
  audit <- time_Now ;;
  db_Exec (delete_swept now (audit + - (7 * 24 * Hour))).

Record TokenStats : Type := mkTokenStats
  { active_tokens : list (TokenType * Z);
    expired_tokens : Z }.

(** [GetTokenStats] *)
Definition GetTokenStats : M TokenStats :=
  now <- time_Now ;;
  activeTokens <- db_Query (count_active_by_type now) ;;
  now' <- time_Now ;;
  expiredCount <- db_QueryRow (count_expired now') ;;
  ret (mkTokenStats activeTokens expiredCount).

(** the operations of the token manager *)
Inductive Operation : Type :=
  | OpRequestPasswordReset (req : PasswordResetRequest)
  | OpVerifyPasswordResetCode (email code : string)
  | OpRequestEmailVerification (req : EmailVerificationRequest)
  | OpVerifyEmailToken (token : string)
  | OpCleanupExpiredTokens
  | OpGetTokenStats.

Definition after {A} (m : M A) (w : World) : World := snd (m w).
Definition outcome {A} (m : M A) (w : World) : Result A := fst (m w).

Definition run (op : Operation) (w : World) : World :=
  match op with
  | OpRequestPasswordReset req => after (RequestPasswordReset req) w
  | OpVerifyPasswordResetCode email code => after (VerifyPasswordResetCode email code) w
  | OpRequestEmailVerification req => after (RequestEmailVerification req) w
  | OpVerifyEmailToken token => after (VerifyEmailToken token) w
  | OpCleanupExpiredTokens => after CleanupExpiredTokens w
  | OpGetTokenStats => after GetTokenStats w
  end.

(** ** Vocabulary of the properties *)

(** [t] is a most recently created unused record of [(email, ty)] *)
Definition latest_unused_record (d : DB) (email : string) (ty : TokenType)
    (t : EmailToken) : Prop :=
  In t (email_tokens d) /\
  Email t = email /\ Type_ t = ty /\ Used t = false /\
  forall t', In t' (email_tokens d) ->
    Email t' = email -> Type_ t' = ty -> Used t' = false ->
    CreatedAt t' <= CreatedAt t.

(** no unused record of [(email, ty)] is stored *)
Definition no_unused_record (d : DB) (email : string) (ty : TokenType) : Prop :=
  forall t, In t (email_tokens d) ->
    Email t = email -> Type_ t = ty -> Used t = true.

(** the store accepts the [k] statements that follow *)
Definition store_accepts (w : World) (k : nat) : Prop :=
  forall i, (i < k)%nat -> store_refuses (env w) (statements w + i) = false.

(** the reading [time.Now()] returns at the [i]-th call from now *)
Definition reading (w : World) (i : nat) : Z := clock (env w) (readings w + i).

Arguments hashToken : simpl never.
Arguments validateEmailAddress : simpl never.
Arguments subtle.ConstantTimeCompare : simpl never.
Arguments select_latest_unused : simpl never.
Arguments select_unused_by_token : simpl never.
Arguments Sprintf_0d : simpl never.
Arguments EncodeToString : simpl never.

(** the key of the table: ids are distinct and below the sequence *)
Definition well_keyed (d : DB) : Prop :=
  NoDup (map ID (email_tokens d)) /\
  Forall (fun t => ID t < email_tokens_id_seq d) (email_tokens d).

(** the ways a table of records may change *)
Definition flipped_or_same (t t' : EmailToken) : Prop :=
  t' = t \/ (Used t = false /\ t' = mark_used t).

Definition only_issues (old new : list EmailToken) : Prop :=
  exists added, new = old ++ added /\ Forall (fun t => Used t = false) added.

Definition only_flips (old new : list EmailToken) : Prop :=
  Forall2 flipped_or_same old new.

Definition only_deletes (old new : list EmailToken) : Prop :=
  exists keep, new = filter keep old.

(** the change [op] may make to the table *)
Definition lifecycle (op : Operation) (old new : list EmailToken) : Prop :=
  match op with
  | OpRequestPasswordReset _ | OpRequestEmailVerification _ => only_issues old new
  | OpVerifyPasswordResetCode _ _ | OpVerifyEmailToken _ => only_flips old new
  | OpCleanupExpiredTokens => only_deletes old new
  | OpGetTokenStats => new = old
  end.

Definition issuance (op : Operation) : bool :=
  match op with
  | OpRequestPasswordReset _ | OpRequestEmailVerification _ => true
  | _ => false
  end.

(** a user row is as before, or went from unverified to verified *)
Definition verified_or_same (u u' : User) : Prop :=
  u' = u \/
  (email_verified_at u = None /\
   exists ts, u' = mkUser (user_id u) (user_email u) (Some ts)).

Definition only_verifies (old new : list User) : Prop :=
  Forall2 verified_or_same old new.

Definition on_tokens (R : list EmailToken -> list EmailToken -> Prop)
    (d d' : DB) : Prop :=
  R (email_tokens d) (email_tokens d').

Definition on_users (R : list User -> list User -> Prop) (d d' : DB) : Prop :=
  R (users d) (users d').

(** every run of [m] changes the store within [P] *)
Definition keeps {A} (P : DB -> DB -> Prop) (m : M A) : Prop :=
  forall w, P (db w) (db (after m w)).

(** the count of [checkRateLimit]: records of [(email, ty)] created after
    [since] *)
Definition issued_after (d : DB) (email : string) (ty : TokenType) (since : Z) : Z :=
  Z.of_nat (List.length (filter (issued_since email ty since) (email_tokens d))).

(** the record [RequestPasswordReset] stores for [req] on behalf of [u],
    read off the clock of [w] *)
Definition reset_record (w : World) (req : PasswordResetRequest) (u : User)
    (code : string) : EmailToken :=
  mkEmailToken (email_tokens_id_seq (db w)) (string_of_bytes (hashToken code))
               (user_id u) (reset_Email req) TokenTypePasswordReset
               (reading w 1 + 15 * Minute) false (reading w 2)
               (reset_RequestIP req) (reset_UserAgent req).

(** the message [RequestPasswordReset] hands to the notifier *)
Definition reset_mail (w : World) (req : PasswordResetRequest) (code : string)
  : Delivery :=
  PasswordResetCode (reset_Email req) code
    (mkSecurityContext (reset_RequestIP req) (reset_UserAgent req) (reading w 3)).

(** the environment of [w] works, its clock does not run backwards, and the
    address of [req] is the address of the user [u] alone *)
Definition serves (req : PasswordResetRequest) (u : User) (w : World) : Prop :=
  (forall i, store_refuses (env w) i = false) /\
  (forall i, rand_Int_draw (env w) i <> None) /\
  (forall i, clock (env w) i <= clock (env w) (S i)) /\
  filter (fun x => String.eqb (user_email x) (reset_Email req)) (users (db w)) = [u].

(** time passes: the clock is read [k] times by other callers *)
Definition elapse (k : nat) (w : World) : World :=
  mkWorld (db w) (handed w) (env w) (readings w + k) (statements w) (draws w)
          (deliveries w).

(** ** A sample deployment *)

Module Sample.

(** the clock advances by a minute at each reading; the store, the entropy
    source and the notifier work; the n-th code drawn is 42 + n *)
Definition environment : Env :=
  mkEnv (fun n => Z.of_nat n * Minute)
        (fun _ => false)
        (fun n => Some (42 + Z.of_nat n))
        (fun n => Some (repeat (Z.of_nat n) 32))
        (fun _ => false)
        "https://app.example.com/verify-email".

Definition address : string := "user@example.com".
Definition stranger : string := "ghost@example.com".

Definition account : User := mkUser 7 address None.

Definition start : World :=
  mkWorld (mkDB [] [account] 1) [] environment 0 0 0 0.

Definition reset_request : PasswordResetRequest :=
  mkPasswordResetRequest address "203.0.113.9" "Mozilla/5.0".

Definition stranger_request : PasswordResetRequest :=
  mkPasswordResetRequest stranger "203.0.113.9" "Mozilla/5.0".

Definition verification_request : EmailVerificationRequest :=
  mkEmailVerificationRequest 7 address "Jane Doe" "203.0.113.9" "Mozilla/5.0".

Definition first_row : EmailToken :=
  mkEmailToken 1 (string_of_bytes (hashToken "000042")) 7 address
               TokenTypePasswordReset (16 * Minute) false (2 * Minute)
               "203.0.113.9" "Mozilla/5.0".

Definition second_row : EmailToken :=
  mkEmailToken 2 (string_of_bytes (hashToken "000043")) 7 address
               TokenTypePasswordReset (20 * Minute) false (6 * Minute)
               "203.0.113.9" "Mozilla/5.0".

Definition first_mail : Delivery :=
  PasswordResetCode address "000042"
    (mkSecurityContext "203.0.113.9" "Mozilla/5.0" (3 * Minute)).

Definition second_mail : Delivery :=
  PasswordResetCode address "000043"
    (mkSecurityContext "203.0.113.9" "Mozilla/5.0" (7 * Minute)).

(** after one request: the code "000042" is outstanding *)
Definition one_code : World :=
  mkWorld (mkDB [first_row] [account] 2) [first_mail] environment 4 2 1 1.

(** after two requests: "000042" and then "000043" are outstanding *)
Definition two_codes : World :=
  mkWorld (mkDB [first_row; second_row] [account] 3) [first_mail; second_mail]
          environment 8 4 2 2.

Definition link_token : string :=
  "AAAAAAAAAAAAAAAAAAAAAAAAAAAAAAAAAAAAAAAAAAA=".

Definition link_row : EmailToken :=
  mkEmailToken 1 (string_of_bytes (hashToken link_token)) 7 address
               TokenTypeEmailVerification (48 * Hour) false (1 * Minute)
               "203.0.113.9" "Mozilla/5.0".

Definition link_mail : Delivery :=
  EmailVerification address "Jane Doe"
    "https://app.example.com/verify-email?token=AAAAAAAAAAAAAAAAAAAAAAAAAAAAAAAAAAAAAAAAAAA=".

(** after a request for verification: the link is outstanding *)
Definition link_sent : World :=
  mkWorld (mkDB [link_row] [account] 2) [link_mail] environment 2 1 1 1.

Definition third_row : EmailToken :=
  mkEmailToken 3 (string_of_bytes (hashToken "000044")) 7 address
               TokenTypePasswordReset (24 * Minute) false (10 * Minute)
               "203.0.113.9" "Mozilla/5.0".

Definition third_mail : Delivery :=
  PasswordResetCode address "000044"
    (mkSecurityContext "203.0.113.9" "Mozilla/5.0" (11 * Minute)).

(** after three requests within a quarter of an hour *)
Definition three_codes : World :=
  mkWorld (mkDB [first_row; second_row; third_row] [account] 4)
          [first_mail; second_mail; third_mail] environment 12 6 3 3.

(** after a fourth request, which was refused *)
Definition limited : World :=
  mkWorld (mkDB [first_row; second_row; third_row] [account] 4)
          [first_mail; second_mail; third_mail] environment 13 7 3 3.

Definition stranger_mail : Delivery :=
  PasswordResetCode stranger "000042"
    (mkSecurityContext "203.0.113.9" "Mozilla/5.0" (3 * Minute)).

Definition stranger_mail2 : Delivery :=
  PasswordResetCode stranger "000043"
    (mkSecurityContext "203.0.113.9" "Mozilla/5.0" (7 * Minute)).

Definition stranger_mail3 : Delivery :=
  PasswordResetCode stranger "000044"
    (mkSecurityContext "203.0.113.9" "Mozilla/5.0" (11 * Minute)).

(** after three requests for an address that no user has *)
Definition stranger_thrice : World :=
  mkWorld (mkDB [] [account] 1) [stranger_mail; stranger_mail2; stranger_mail3]
          environment 12 6 3 3.

(** ten minutes after the second code: the first has expired *)
Definition first_expired : World := elapse 10 two_codes.

(** an hour after the only code *)
Definition hour_later : World := elapse 60 one_code.

(** an hour after the refused request *)
Definition limit_passed : World := elapse 60 limited.

End Sample.

(** ** Vocabulary of the further properties *)

(** the token [generateSecureToken] makes of the bytes the entropy source
    delivers into its buffer of 32 bytes *)
Definition token_of_entropy (bs : list Z) : string :=
  EncodeToString (firstn 32 (map (fun b => b mod 256) bs ++ repeat 0 32)).

(** the record [RequestEmailVerification] stores for [req], read off the
    clock of [w] *)
Definition verification_record (w : World) (req : EmailVerificationRequest)
    (token : string) : EmailToken :=
  mkEmailToken (email_tokens_id_seq (db w)) (string_of_bytes (hashToken token))
               (verif_UserID req) (verif_Email req) TokenTypeEmailVerification
               (reading w 0 + 48 * Hour) false (reading w 1)
               (verif_RequestIP req) (verif_UserAgent req).

(** the message [RequestEmailVerification] hands to the notifier *)
Definition verification_mail (w : World) (req : EmailVerificationRequest)
    (token : string) : Delivery :=
  EmailVerification (verif_Email req) (verif_Name req)
    (String.append (VerificationURL (env w)) (String.append "?token=" token)).


(** ** A deployment whose store fails once *)

Module Outage.

(** as [Sample.environment], but the store refuses its fourth statement *)
Definition environment : Env :=
  mkEnv (fun n => Z.of_nat n * Minute)
        (fun n => Nat.eqb n 3)
        (fun n => Some (42 + Z.of_nat n))
        (fun n => Some (repeat (Z.of_nat n) 32))
        (fun _ => false)
        "https://app.example.com/verify-email".

(** after a request for verification: the link is outstanding *)
Definition link_sent : World :=
  mkWorld (mkDB [Sample.link_row] [Sample.account] 2) [Sample.link_mail]
          environment 2 1 1 1.

(** after the verification that the store interrupted *)
Definition link_spent : World :=
  mkWorld (mkDB [mark_used Sample.link_row] [Sample.account] 2) [Sample.link_mail]
          environment 4 4 1 1.

End Outage.


(** ** Histories *)

(** the operations of [ops] run one after the other, the first one first *)
Definition history (ops : list Operation) (w : World) : World :=
  fold_left (fun w op => run op w) ops w.

(** every record of [d'] is a record of [d], as it was or flipped to used, or
    carries a key drawn from the sequence since [d] *)
Definition evolves (d d' : DB) : Prop :=
  email_tokens_id_seq d <= email_tokens_id_seq d' /\
  Forall (fun t' =>
            email_tokens_id_seq d <= ID t' \/
            exists t, In t (email_tokens d) /\ flipped_or_same t t')
         (email_tokens d').

(** the user rows after a successful [VerifyEmailToken] at [now] *)
Definition verify_user (now uid : Z) (u : User) : User :=
  if (user_id u =? uid) &&
     match email_verified_at u with None => true | Some _ => false end
  then mkUser (user_id u) (user_email u) (Some now)
  else u.


(** ** Vocabulary of the generated values and of the errors *)

(** a character of the URL-safe base64 alphabet, or the padding *)
Definition is_base64url (c : ascii) : bool :=
  let b := byte_of_ascii c in
  ((65 <=? b) && (b <=? 90)) || ((97 <=? b) && (b <=? 122)) ||
  ((48 <=? b) && (b <=? 57)) || (b =? 45) || (b =? 95) || (b =? 61).

Fixpoint all_base64url (s : string) : bool :=
  match s with
  | EmptyString => true
  | String c s' => is_base64url c && all_base64url s'
  end.

(** the chain [errors.Is] follows: the error and what it wraps *)
Fixpoint unwraps (e : error) : list error :=
  e :: match e with
       | fmt_Errorf _ wrapped => unwraps wrapped
       | _ => []
       end.

Definition error_of {A} (r : Result A) : option error :=
  match r with
  | Ok _ => None
  | Err e => Some e
  end.

(** the error a run of [op] returns, if it returns one *)
Definition failure (op : Operation) (w : World) : option error :=
  match op with
  | OpRequestPasswordReset req => error_of (outcome (RequestPasswordReset req) w)
  | OpVerifyPasswordResetCode email code =>
      error_of (outcome (VerifyPasswordResetCode email code) w)
  | OpRequestEmailVerification req =>
      error_of (outcome (RequestEmailVerification req) w)
  | OpVerifyEmailToken token => error_of (outcome (VerifyEmailToken token) w)
  | OpCleanupExpiredTokens => error_of (outcome CleanupExpiredTokens w)
  | OpGetTokenStats => error_of (outcome GetTokenStats w)
  end.


(** ** email.go: the configuration and the providers *)

Record Config : Type := mkConfig
  { Provider : string;
    SendGridAPIKey : string;
    SESRegion : string;
    SESAccessKeyID : string;
    SESSecretAccessKey : string;
    FromEmail : string;
    FromName : string;
    RateLimitPerHour : Z;
    RequireTLS : bool }.

Definition ProviderSendGrid : string := "sendgrid".
Definition ProviderSES : string := "ses".
Definition ProviderSMTP : string := "smtp".

Record SendGridService : Type := mkSendGridService
  { sendgrid_apiKey : string;
    sendgrid_fromEmail : string;
    sendgrid_fromName : string;
    sendgrid_client_Timeout : Z }.

Record SESService : Type := mkSESService
  { ses_region : string;
    ses_accessKey : string;
    ses_secretKey : string;
    ses_fromEmail : string;
    ses_fromName : string }.

Record SMTPService : Type := mkSMTPService
  { smtp_host : string;
    smtp_port : string;
    smtp_username : string;
    smtp_password : string;
    smtp_fromEmail : string;
    smtp_fromName : string;
    smtp_requireTLS : bool }.

(** a value of the interface [EmailService]: the nil interface, or a pointer
    to a service of one of the three types, which may be a nil pointer *)
Inductive EmailService : Type :=
  | nil_EmailService
  | SendGrid (s : option SendGridService)
  | SES (s : option SESService)
  | SMTP (s : option SMTPService).

(** the errors of [NewEmailService]: an error of the package, or
    [fmt.Errorf("%w: %s", ErrInvalidProvider, provider)] *)
Inductive creation_error : Type :=
  | plainly (e : error)
  | invalid_provider (provider : string).

(** [validateConfig]: the error and the configuration behind the pointer
    after the call *)
Definition validateConfig (config : Config) : option error * Config :=
  if String.eqb (FromEmail config) "" then
    (Some (errors_New "from email is required"), config)
  else if String.eqb (FromName config) "" then
    (Some (errors_New "from name is required"), config)
  else if negb (isValidEmail (FromEmail config)) then
    (Some (errors_New "from email is invalid"), config)
  else if RateLimitPerHour config <=? 0 then
    (None,
     mkConfig (Provider config) (SendGridAPIKey config) (SESRegion config)
              (SESAccessKeyID config) (SESSecretAccessKey config)
              (FromEmail config) (FromName config) 100 (RequireTLS config))
  else (None, config).

(** [NewSendGridService] *)
Definition NewSendGridService (config : Config)
  : option SendGridService * option error :=
  if String.eqb (SendGridAPIKey config) "" then
    (None, Some (errors_New "SendGrid API key is required"))
  else
    (Some (mkSendGridService (SendGridAPIKey config) (FromEmail config)
             (FromName config) (30 * Second)),
     None).

(** [NewSESService] *)
Definition NewSESService (config : Config) : option SESService * option error :=
  if String.eqb (SESRegion config) "" then
    (None, Some (errors_New "SES region is required"))
  else if String.eqb (SESAccessKeyID config) "" ||
          String.eqb (SESSecretAccessKey config) "" then
    (None, Some (errors_New "SES credentials are required"))
  else
    (Some (mkSESService (SESRegion config) (SESAccessKeyID config)
             (SESSecretAccessKey config) (FromEmail config) (FromName config)),
     None).

(** [NewSMTPService] *)
Definition NewSMTPService (config : Config) : option SMTPService * option error :=
  (Some (mkSMTPService "localhost" "587" "" "" (FromEmail config) (FromName config)
           (RequireTLS config)),
   None).

(** the bytes below [utf8.RuneSelf] *)
Definition is_ascii (c : ascii) : bool := byte_of_ascii c <? 128.

Fixpoint all_ascii (s : string) : bool :=
  match s with
  | EmptyString => true
  | String c s' => is_ascii c && all_ascii s'
  end.

Definition lower_byte (c : ascii) : ascii :=
  let b := byte_of_ascii c in
  if (65 <=? b) && (b <=? 90) then ascii_of_byte (b + 32) else c.

Fixpoint lower_bytes (s : string) : string :=
  match s with
  | EmptyString => EmptyString
  | String c s' => String (lower_byte c) (lower_bytes s')
  end.

Section Providers.

(** [strings.Map(unicode.ToLower, s)] on a string with a byte above 127; the
    tables of Unicode are not part of the development *)
Variable unicode_ToLower : string -> string.

(** [strings.ToLower] *)
Definition strings_ToLower (s : string) : string :=
  if all_ascii s then lower_bytes s else unicode_ToLower s.

(** [NewEmailService]: the interface value, the error, and the
    configuration behind the pointer after the call *)
Definition NewEmailService (config : option Config)
  : EmailService * option creation_error * option Config :=
  match config with
  | None =>
      (nil_EmailService, Some (plainly (errors_New "email config cannot be nil")), None)
  | Some config =>
      match validateConfig config with
      | (Some err, config') =>
          (nil_EmailService, Some (plainly (fmt_Errorf "invalid email config" err)),
           Some config')
      | (None, config') =>
          let provider := strings_ToLower (Provider config') in
          if String.eqb provider ProviderSendGrid then
            let '(s, err) := NewSendGridService config' in
            (SendGrid s, option_map plainly err, Some config')
          else if String.eqb provider ProviderSES then
            let '(s, err) := NewSESService config' in
            (SES s, option_map plainly err, Some config')
          else if String.eqb provider ProviderSMTP then
            let '(s, err) := NewSMTPService config' in
            (SMTP s, option_map plainly err, Some config')
          else
            (nil_EmailService, Some (invalid_provider (Provider config')),
             Some config')
      end
  end.

End Providers.


(** ** Reading the generated values back *)

(** the number a string of decimal digits denotes *)
Fixpoint numeral_from (s : string) (acc : Z) : Z :=
  match s with
  | EmptyString => acc
  | String c s' => numeral_from s' (acc * 10 + (byte_of_ascii c - 48))
  end.

Definition numeral (s : string) : Z := numeral_from s 0.

(** the position of a character in an alphabet, counted from [k] *)
Fixpoint index_from (k : Z) (c : ascii) (alphabet : string) : Z :=
  match alphabet with
  | EmptyString => k
  | String a rest => if Ascii.eqb a c then k else index_from (k + 1) c rest
  end.

(** the six bits a character of the URL-safe alphabet stands for *)
Definition sextet (c : ascii) : Z := index_from 0 c encodeURL.

(** the buffer [generateSecureToken] encodes when the source delivers [bs] *)
Definition entropy_buffer (bs : list Z) : list Z :=
  firstn 32 (map (fun b => b mod 256) bs ++ repeat 0 32).


(** ** A deployment at the instant a code expires *)

Module Expiry.

(** as [Sample.environment], with the clock standing at the expiry of
    [Sample.first_row] *)
Definition environment : Env :=
  mkEnv (fun _ => 16 * Minute)
        (fun _ => false)
        (fun n => Some (42 + Z.of_nat n))
        (fun n => Some (repeat (Z.of_nat n) 32))
        (fun _ => false)
        "https://app.example.com/verify-email".

Definition one_code : World :=
  mkWorld (mkDB [Sample.first_row] [Sample.account] 2) [Sample.first_mail]
          environment 4 2 1 1.

End Expiry.


(** the address a message is to be delivered to *)
Definition recipient (d : Delivery) : string :=
  match d with
  | PasswordResetCode to _ _ => to
  | EmailVerification to _ _ => to
  end.


(** ** config: the application configuration *)

Module config.

Record AppConfig : Type := mkAppConfig
  { AppName : string;
    AppDisplayName : string;
    CompanyName : string;
    SupportEmail : string;
    AppBaseURL : string;
    DashboardURL : string;
    VerificationURL : string;
    SecurityURL : string;
    EmailFromDomain : string;
    EmailFromName : string;
    EmailMailer : string;
    Description : string;
    Version : string }.

(** [getEnvOrDefault]; [os_Getenv] is the environment of the process, which
    answers the empty string for a variable that is not set *)
Definition getEnvOrDefault (os_Getenv : string -> string) (key defaultValue : string)
  : string :=
  let value := os_Getenv key in
  if negb (String.eqb value "") then value else defaultValue.

(** [loadAppConfig] *)
Definition loadAppConfig (os_Getenv : string -> string) : AppConfig :=
  mkAppConfig
    (getEnvOrDefault os_Getenv "APP_NAME" "SaaSPlatform")
    (getEnvOrDefault os_Getenv "APP_DISPLAY_NAME" "SaaSPlatform")
    (getEnvOrDefault os_Getenv "COMPANY_NAME" "SaaSPlatform Inc.")
    (getEnvOrDefault os_Getenv "SUPPORT_EMAIL" "support@saasplatform.com")
    (getEnvOrDefault os_Getenv "APP_BASE_URL" "https://app.saasplatform.com")
    (getEnvOrDefault os_Getenv "DASHBOARD_URL" "https://app.saasplatform.com/dashboard")
    (getEnvOrDefault os_Getenv "VERIFICATION_BASE_URL"
       "https://app.saasplatform.com/verify")
    (getEnvOrDefault os_Getenv "SECURITY_URL"
       "https://app.saasplatform.com/settings/security")
    (getEnvOrDefault os_Getenv "EMAIL_FROM_DOMAIN" "saasplatform.com")
    (getEnvOrDefault os_Getenv "EMAIL_FROM_NAME" "SaaSPlatform")
    (getEnvOrDefault os_Getenv "EMAIL_MAILER" "SaaSPlatform-Auth")
    (getEnvOrDefault os_Getenv "APP_DESCRIPTION"
       "A modern SaaS platform built with cutting-edge technology")
    (getEnvOrDefault os_Getenv "APP_VERSION" "1.0.0").

(** [GetAppConfig]: the package variable [appConfig] is [None] until
    [once.Do] has run; the call returns the configuration and the variable
    after it *)
Definition GetAppConfig (os_Getenv : string -> string) (appConfig : option AppConfig)
  : AppConfig * option AppConfig :=
  match appConfig with
  | Some c => (c, Some c)
  | None => let c := loadAppConfig os_Getenv in (c, Some c)
  end.

(** [GetEmailFromAddress] *)
Definition GetEmailFromAddress (c : AppConfig) : string :=
  String.append "noreply@" (EmailFromDomain c).

(** the fields of a configuration *)
Definition fields (c : AppConfig) : list string :=
  [ AppName c; AppDisplayName c; CompanyName c; SupportEmail c; AppBaseURL c;
    DashboardURL c; VerificationURL c; SecurityURL c; EmailFromDomain c;
    EmailFromName c; EmailMailer c; Description c; Version c ].

End config.


(** an operation that neither deletes records nor requests a reset for
    [email] *)
Definition quiet (email : string) (op : Operation) : bool :=
  match op with
  | OpCleanupExpiredTokens => false
  | OpRequestPasswordReset req => negb (String.eqb (reset_Email req) email)
  | _ => true
  end.

(** ** A deployment after three requests and a verification *)

Module Interleaved.

(** after [Sample.three_codes], the third code was verified and the
    statistics were read *)
Definition third_used : World :=
  mkWorld (mkDB [Sample.first_row; Sample.second_row; mark_used Sample.third_row]
                [Sample.account] 4)
          [Sample.first_mail; Sample.second_mail; Sample.third_mail]
          Sample.environment 15 10 3 3.

(** an hour later *)
Definition hour_after : World := elapse 60 third_used.

End Interleaved.

(** * Properties *)

Example sha256_empty :
  hashToken "" =
  [227; 176; 196; 66; 152; 252; 28; 20; 154; 251; 244; 200; 153; 111; 185; 36;
   39; 174; 65; 228; 100; 155; 147; 76; 164; 149; 153; 27; 120; 82; 184; 85].
Proof. vm_compute. reflexivity. Qed.

Example sha256_abc :
  hashToken "abc" =
  [186; 120; 22; 191; 143; 1; 207; 234; 65; 65; 64; 222; 93; 174; 34; 35;
   176; 3; 97; 163; 150; 23; 122; 156; 180; 16; 255; 97; 242; 0; 21; 173].
Proof. vm_compute. reflexivity. Qed.

Example sha256_two_blocks :
  hashToken "aaaaaaaaaaaaaaaaaaaaaaaaaaaaaaaaaaaaaaaaaaaaaaaaaaaaaaaaaaaaaaaaaaaaaa" =
  [107; 213; 229; 3; 72; 85; 161; 18; 65; 240; 222; 232; 252; 114; 133; 15;
   253; 153; 85; 178; 131; 71; 168; 100; 40; 181; 250; 25; 17; 159; 106; 208].
Proof. vm_compute. reflexivity. Qed.

(** ** The tests of the package *)

Example TestIsValidEmail :
  map isValidEmail
    [ "test@example.com"; "user@mail.example.com"; ""; "testexample.com"; "test@";
      "@example.com"; "test@@example.com"; "test@localhost"; "test@127.0.0.1";
      "test@192.168.1.1"; "test@10.0.0.1" ]
  = [ true; true; false; false; false; false; false; false; false; false; false ].
Proof. vm_compute. reflexivity. Qed.

Example TestSanitizeEmail :
  map (fun email => match sanitizeEmail email with Ok _ => false | Err _ => true end)
    [ "test@example.com"; String.append "test@example.com" LF;
      String.append "test@example.com" CR;
      String.append "test@example.com" (String.append CR LF);
      String.append "test" (String.append LF "@example.com"); "" ]
  = [ false; true; true; true; true; false ].
Proof. vm_compute. reflexivity. Qed.

Example TestValidateEmailAddress :
  validateEmailAddress "test@example.com" = Ok tt /\
  validateEmailAddress "invalid-email" = Err ErrInvalidEmail /\
  validateEmailAddress "test@localhost" = Err ErrInvalidEmail /\
  validateEmailAddress "" = Err ErrInvalidEmail.
Proof. vm_compute. auto. Qed.

Example TestHashToken :
  hashToken "same" = hashToken "same" /\
  hashToken "different" <> hashToken "tokens" /\
  hashToken "test" <> hashToken "Test".
Proof.
  split; [reflexivity|]. split; vm_compute; discriminate.
Qed.

Example TestValidateTokenConstantTime :
  validateTokenConstantTime "valid_token_123" "valid_token_123" = true /\
  validateTokenConstantTime "valid_token_123" "invalid_token_456" = false /\
  validateTokenConstantTime "" "" = true.
Proof. vm_compute. auto. Qed.

(** ** Bytes *)

Lemma byte_of_ascii_is_byte : forall c, is_byte (byte_of_ascii c).
Proof.
  intro c. unfold is_byte, byte_of_ascii.
  pose proof (N_ascii_bounded c) as Hb. lia.
Qed.

Lemma bytes_of_string_are_bytes : forall s, Forall is_byte (bytes_of_string s).
Proof.
  induction s as [|c s IH]; simpl; constructor; auto using byte_of_ascii_is_byte.
Qed.

Lemma byte_ascii_byte : forall b, is_byte b -> byte_of_ascii (ascii_of_byte b) = b.
Proof.
  intros b [Hlo Hhi]. unfold byte_of_ascii, ascii_of_byte.
  rewrite N_ascii_embedding by lia. lia.
Qed.

Lemma bytes_string_bytes :
  forall bs, Forall is_byte bs -> bytes_of_string (string_of_bytes bs) = bs.
Proof.
  induction 1 as [|b bs Hb _ IH]; simpl; [reflexivity|].
  now rewrite byte_ascii_byte, IH.
Qed.

Lemma string_bytes_string : forall s, string_of_bytes (bytes_of_string s) = s.
Proof.
  induction s as [|c s IH]; simpl; [reflexivity|].
  unfold ascii_of_byte, byte_of_ascii. rewrite N2Z.id, ascii_N_embedding.
  now rewrite IH.
Qed.

(** ** The digest *)

Lemma be32_bytes : forall w, Forall is_byte (SHA256.be32 w).
Proof.
  intro w. unfold SHA256.be32, is_byte.
  repeat constructor; apply Z.mod_pos_bound; lia.
Qed.

Lemma digest_length : forall s, List.length (SHA256.digest s) = 32%nat.
Proof. intro s. reflexivity. Qed.

Lemma digest_bytes : forall s, Forall is_byte (SHA256.digest s).
Proof.
  intro s. unfold SHA256.digest.
  repeat (apply Forall_app; split); apply be32_bytes.
Qed.

Lemma hashToken_length : forall token, List.length (hashToken token) = 32%nat.
Proof. intro token. apply digest_length. Qed.

Lemma hashToken_bytes : forall token, Forall is_byte (hashToken token).
Proof. intro token. apply digest_bytes. Qed.

(** ** The constant-time comparison *)

Lemma lor_byte : forall a b, is_byte a -> is_byte b -> is_byte (Z.lor a b).
Proof.
  unfold is_byte. intros a b Ha Hb.
  assert (Hn : 0 <= Z.lor a b) by (apply Z.lor_nonneg; lia).
  split; [exact Hn|].
  destruct (Z.eq_dec (Z.lor a b) 0) as [E|E]; [lia|].
  change 256 with (2 ^ 8). apply Z.log2_lt_pow2; [lia|].
  rewrite Z.log2_lor by lia.
  assert (La : Z.log2 a < 8).
  { destruct (Z.eq_dec a 0) as [->|]; [simpl; lia|].
    apply Z.log2_lt_pow2; [lia|]. change (2 ^ 8) with 256. lia. }
  assert (Lb : Z.log2 b < 8).
  { destruct (Z.eq_dec b 0) as [->|]; [simpl; lia|].
    apply Z.log2_lt_pow2; [lia|]. change (2 ^ 8) with 256. lia. }
  lia.
Qed.

Lemma lxor_byte : forall a b, is_byte a -> is_byte b -> is_byte (Z.lxor a b).
Proof.
  unfold is_byte. intros a b Ha Hb.
  assert (Hn : 0 <= Z.lxor a b) by (apply Z.lxor_nonneg; lia).
  split; [exact Hn|].
  destruct (Z.eq_dec (Z.lxor a b) 0) as [E|E]; [lia|].
  change 256 with (2 ^ 8). apply Z.log2_lt_pow2; [lia|].
  pose proof (Z.log2_lxor a b ltac:(lia) ltac:(lia)) as Hx.
  assert (La : Z.log2 a < 8).
  { destruct (Z.eq_dec a 0) as [->|]; [simpl; lia|].
    apply Z.log2_lt_pow2; [lia|]. change (2 ^ 8) with 256. lia. }
  assert (Lb : Z.log2 b < 8).
  { destruct (Z.eq_dec b 0) as [->|]; [simpl; lia|].
    apply Z.log2_lt_pow2; [lia|]. change (2 ^ 8) with 256. lia. }
  lia.
Qed.

Lemma ConstantTimeByteEq_zero :
  forall v, is_byte v -> (subtle.ConstantTimeByteEq v 0 = 1 <-> v = 0).
Proof.
  intros v [Hlo Hhi]. unfold subtle.ConstantTimeByteEq.
  rewrite Z.lxor_0_r, Z.shiftr_div_pow2 by lia.
  split.
  - intro H. destruct (Z.eq_dec v 0) as [|Hne]; [assumption|exfalso].
    rewrite Z.mod_small in H by lia.
    rewrite Z.div_small in H by lia. discriminate.
  - intros ->. reflexivity.
Qed.

Lemma accumulate_byte :
  forall x y v, is_byte v -> Forall is_byte x -> Forall is_byte y ->
    is_byte (subtle.accumulate v x y).
Proof.
  induction x as [|a x IH]; intros y v Hv Hx Hy; simpl; [assumption|].
  destruct y as [|b y]; [assumption|].
  inversion Hx; inversion Hy; subst.
  apply IH; auto using lor_byte, lxor_byte.
Qed.

Lemma accumulate_zero :
  forall x y v, List.length x = List.length y ->
    (subtle.accumulate v x y = 0 <-> v = 0 /\ x = y).
Proof.
  induction x as [|a x IH]; intros [|b y] v Hlen; simpl in *; try discriminate.
  - tauto.
  - injection Hlen as Hlen. rewrite (IH y _ Hlen), Z.lor_eq_0_iff, Z.lxor_eq_0_iff.
    split.
    + intros [[-> ->] ->]. auto.
    + intros [-> E]. injection E as -> ->. auto.
Qed.

Lemma ConstantTimeCompare_eq :
  forall x y, Forall is_byte x -> Forall is_byte y ->
    (subtle.ConstantTimeCompare x y = 1 <-> x = y).
Proof.
  intros x y Hx Hy. unfold subtle.ConstantTimeCompare.
  destruct (Nat.eqb (List.length x) (List.length y)) eqn:Hlen; simpl.
  - apply Nat.eqb_eq in Hlen.
    rewrite ConstantTimeByteEq_zero
      by (apply accumulate_byte; auto; unfold is_byte; lia).
    rewrite accumulate_zero by assumption. tauto.
  - apply Nat.eqb_neq in Hlen. split; [discriminate|].
    intros ->. contradiction.
Qed.

Lemma ConstantTimeCompare_range :
  forall x y, Forall is_byte x -> Forall is_byte y ->
    subtle.ConstantTimeCompare x y = 1 \/ subtle.ConstantTimeCompare x y = 0.
Proof.
  intros x y Hx Hy. unfold subtle.ConstantTimeCompare.
  destruct (Nat.eqb (List.length x) (List.length y)); simpl; [|auto].
  assert (Hv : is_byte (subtle.accumulate 0 x y))
    by (apply accumulate_byte; auto; unfold is_byte; lia).
  destruct Hv as [Hlo Hhi]. unfold subtle.ConstantTimeByteEq.
  rewrite Z.lxor_0_r, Z.shiftr_div_pow2 by lia.
  destruct (Z.eq_dec (subtle.accumulate 0 x y) 0) as [->|Hne]; [left; reflexivity|].
  right. rewrite Z.mod_small by lia. apply Z.div_small. lia.
Qed.

(** C9. [hashToken] is a function of its argument whose value is a digest of
    256 bits (32 bytes), and the constant-time comparison of two digests
    answers 1 exactly when the digests are the same bytes; so does
    [validateTokenConstantTime]. *)
Theorem hashToken_digest_and_comparator_agree :
  forall x y : string,
    (x = y -> hashToken x = hashToken y) /\
    List.length (hashToken x) = 32%nat /\
    Forall is_byte (hashToken x) /\
    (subtle.ConstantTimeCompare (hashToken x) (hashToken y) = 1
       <-> hashToken x = hashToken y) /\
    (subtle.ConstantTimeCompare (hashToken x) (hashToken y) <> 1
       <-> hashToken x <> hashToken y) /\
    (validateTokenConstantTime x y = true <-> hashToken x = hashToken y).
Proof.
  intros x y.
  pose proof (ConstantTimeCompare_eq _ _ (hashToken_bytes x) (hashToken_bytes y)) as Hc.
  split; [intros ->; reflexivity|].
  split; [apply hashToken_length|].
  split; [apply hashToken_bytes|].
  split; [exact Hc|].
  split; [split; intros H E; apply H; now apply Hc|].
  unfold validateTokenConstantTime. rewrite Z.eqb_eq. exact Hc.
Qed.

(** ** Numeric codes *)

Lemma times_ten_pow : forall k m, times_ten k m = m * 10 ^ Z.of_nat k.
Proof.
  induction k as [|k IH]; intro m.
  - simpl. lia.
  - cbn [times_ten]. rewrite IH, Nat2Z.inj_succ, Z.pow_succ_r by lia. lia.
Qed.

Lemma digit_char_is_digit : forall d, 0 <= d < 10 -> is_digit (digit_char d) = true.
Proof.
  intros d Hd. unfold is_digit, digit_char.
  rewrite byte_ascii_byte by (unfold is_byte; lia).
  apply andb_true_intro. split; apply Z.leb_le; lia.
Qed.

Lemma decimal_from_bound :
  forall fuel n acc (L : nat),
    0 <= n < 2 ^ Z.of_nat fuel -> n < 10 ^ Z.of_nat L -> (1 <= L)%nat ->
    (String.length (decimal_from fuel n acc) <= L + String.length acc)%nat /\
    (all_digits acc = true -> all_digits (decimal_from fuel n acc) = true).
Proof.
  induction fuel as [|fuel IH]; intros n acc L Hn HL H1.
  - simpl. split; [lia|auto].
  - cbn [decimal_from].
    assert (Hd : is_digit (digit_char (n mod 10)) = true)
      by (apply digit_char_is_digit, Z.mod_pos_bound; lia).
    destruct (n <? 10) eqn:Hlt.
    + simpl. rewrite Hd. split; [lia|auto].
    + apply Z.ltb_ge in Hlt.
      assert (H2 : (2 <= L)%nat).
      { destruct L as [|[|L]]; [lia| |lia]. simpl in HL. lia. }
      rewrite Nat2Z.inj_succ, Z.pow_succ_r in Hn by lia.
      destruct (IH (n / 10) (String (digit_char (n mod 10)) acc) (L - 1)%nat)
        as [Hlen Hdig].
      * split; [apply Z.div_pos; lia|].
        apply Z.div_lt_upper_bound; lia.
      * apply Z.div_lt_upper_bound; [lia|].
        replace (Z.of_nat L) with (Z.succ (Z.of_nat (L - 1))) in HL by lia.
        rewrite Z.pow_succ_r in HL by lia. lia.
      * lia.
      * simpl in Hlen, Hdig. rewrite Hd in Hdig. split; [lia|auto].
Qed.

Lemma decimal_bound :
  forall n (L : nat), 0 <= n < 10 ^ Z.of_nat L -> (1 <= L)%nat ->
    (String.length (decimal n) <= L)%nat /\ all_digits (decimal n) = true.
Proof.
  intros n L Hn HL. unfold decimal.
  destruct (decimal_from_bound (S (Z.to_nat (Z.log2 n))) n "" L) as [Hlen Hdig];
    try lia.
  - split; [lia|].
    rewrite Nat2Z.inj_succ, Z2Nat.id by apply Z.log2_nonneg.
    destruct (Z.eq_dec n 0) as [->|Hne]; [reflexivity|].
    pose proof (Z.log2_spec n ltac:(lia)) as Hs. lia.
  - change (String.length "") with 0%nat in Hlen. rewrite Nat.add_0_r in Hlen.
    split; [exact Hlen|apply Hdig; reflexivity].
Qed.

Lemma zeros_length : forall k, String.length (zeros k) = k.
Proof. induction k; simpl; congruence. Qed.

Lemma append_length :
  forall s t, String.length (String.append s t) = (String.length s + String.length t)%nat.
Proof. induction s; intro t; simpl; auto. Qed.

Lemma all_digits_append :
  forall s t, all_digits (String.append s t) = all_digits s && all_digits t.
Proof.
  induction s as [|c s IH]; intro t; simpl; [reflexivity|].
  now rewrite IH, andb_assoc.
Qed.

Lemma all_digits_zeros : forall k, all_digits (zeros k) = true.
Proof. induction k; simpl; auto. Qed.

Lemma Sprintf_0d_digits :
  forall L n, 1 <= L -> 0 <= n < 10 ^ L ->
    Z.of_nat (String.length (Sprintf_0d L n)) = L /\
    all_digits (Sprintf_0d L n) = true.
Proof.
  intros L n HL Hn. unfold Sprintf_0d.
  assert (Hs : (n <? 0) = false) by (apply Z.ltb_ge; lia).
  rewrite Hs, Z.abs_eq by lia. cbn [String.append String.length].
  destruct (decimal_bound n (Z.to_nat L)) as [Hlen Hdig].
  - rewrite Z2Nat.id by lia. assumption.
  - lia.
  - rewrite append_length, zeros_length, all_digits_append, all_digits_zeros, Hdig.
    split; [lia|reflexivity].
Qed.


(** ** Lookups *)

Lemma TokenType_eqb_eq : forall a b, TokenType_eqb a b = true <-> a = b.
Proof. intros [] []; simpl; split; congruence. Qed.

Lemma unused_for_spec :
  forall email ty t,
    unused_for email ty t = true <->
    Email t = email /\ Type_ t = ty /\ Used t = false.
Proof.
  intros email ty t. unfold unused_for.
  rewrite !andb_true_iff, String.eqb_eq, TokenType_eqb_eq, negb_true_iff. tauto.
Qed.

Lemma latest_spec :
  forall rows best t,
    latest best rows = Some t ->
    (best = Some t \/ In t rows) /\
    (forall b, best = Some b -> CreatedAt b <= CreatedAt t) /\
    (forall t', In t' rows -> CreatedAt t' <= CreatedAt t).
Proof.
  induction rows as [|r rows IH]; intros best t H; simpl in H.
  - subst best. repeat split; [auto| |intros ? []].
    intros b E. injection E as ->. lia.
  - destruct best as [b|].
    + destruct (CreatedAt b <? CreatedAt r) eqn:Hlt.
      * apply Z.ltb_lt in Hlt. destruct (IH _ _ H) as (Hin & Hb & Hall).
        specialize (Hb r eq_refl). repeat split.
        -- right. destruct Hin as [E|Hin]; [injection E as ->; left; reflexivity|right; assumption].
        -- intros b' E. injection E as ->. lia.
        -- intros t' [->|Ht']; auto.
      * apply Z.ltb_ge in Hlt. destruct (IH _ _ H) as (Hin & Hb & Hall).
        specialize (Hb b eq_refl). repeat split.
        -- destruct Hin as [E|Hin]; [left; assumption|right; right; assumption].
        -- intros b' E. injection E as ->. assumption.
        -- intros t' [->|Ht']; [lia|auto].
    + destruct (IH _ _ H) as (Hin & Hb & Hall).
      specialize (Hb r eq_refl). repeat split.
      * right. destruct Hin as [E|Hin]; [injection E as ->; left; reflexivity|right; assumption].
      * intros b' E. discriminate.
      * intros t' [->|Ht']; auto.
Qed.

Lemma latest_none : forall rows best, latest best rows = None -> best = None /\ rows = [].
Proof.
  induction rows as [|r rows IH]; intros best H; simpl in H; [auto|].
  destruct best as [b|].
  - destruct (CreatedAt b <? CreatedAt r); apply IH in H; destruct H; discriminate.
  - apply IH in H. destruct H; discriminate.
Qed.

(** the lookup of the reset path returns a most recently created unused record *)
Lemma select_latest_unused_some :
  forall email ty d t,
    select_latest_unused email ty d = Some t -> latest_unused_record d email ty t.
Proof.
  unfold select_latest_unused, latest_unused_record. intros email ty d t H.
  destruct (latest_spec _ _ _ H) as ([E|Hin] & _ & Hall); [discriminate|].
  apply filter_In in Hin. destruct Hin as [Hin Hu].
  apply unused_for_spec in Hu. destruct Hu as (He & Hty & Hused).
  repeat split; auto.
  intros t' Hin' He' Hty' Hused'. apply Hall, filter_In. split; [assumption|].
  apply unused_for_spec. auto.
Qed.

Lemma select_latest_unused_none :
  forall email ty d,
    select_latest_unused email ty d = None <-> no_unused_record d email ty.
Proof.
  unfold select_latest_unused, no_unused_record. intros email ty d. split.
  - intros H t Hin He Hty. apply latest_none in H. destruct H as [_ H].
    destruct (Used t) eqn:Hu; [reflexivity|exfalso].
    assert (Hf : In t (filter (unused_for email ty) (email_tokens d))).
    { apply filter_In. split; [assumption|]. apply unused_for_spec. auto. }
    rewrite H in Hf. destruct Hf.
  - intro H.
    destruct (latest None (filter (unused_for email ty) (email_tokens d))) as [t|] eqn:E;
      [exfalso|reflexivity].
    destruct (latest_spec _ _ _ E) as ([E'|Hin] & _); [discriminate|].
    apply filter_In in Hin. destruct Hin as [Hin Hu].
    apply unused_for_spec in Hu. destruct Hu as (He & Hty & Hused).
    rewrite (H t Hin He Hty) in Hused. discriminate.
Qed.

(** when one unused record is the latest, the lookup returns it *)
Lemma select_latest_unused_the_latest :
  forall email ty d t,
    latest_unused_record d email ty t ->
    (forall t', In t' (email_tokens d) ->
       Email t' = email -> Type_ t' = ty -> Used t' = false ->
       CreatedAt t <= CreatedAt t' -> t' = t) ->
    select_latest_unused email ty d = Some t.
Proof.
  intros email ty d t (Hin & He & Hty & Hu & Hmax) Huniq.
  destruct (select_latest_unused email ty d) as [t'|] eqn:Hsel.
  - destruct (select_latest_unused_some _ _ _ _ Hsel) as (Hin' & He' & Hty' & Hu' & Hmax').
    f_equal. apply Huniq; auto.
  - apply select_latest_unused_none in Hsel.
    rewrite (Hsel t Hin He Hty) in Hu. discriminate.
Qed.

(** ** One call of [VerifyPasswordResetCode] *)

Ltac run_monad :=
  unfold outcome, after, bind, on_error, lift, ret, fail, time_Now, db_Exec,
    db_QueryRow, db_Query, rand_Int, rand_Read, deliver.

Lemma store_accepts_0 :
  forall w k, store_accepts w (S k) -> store_refuses (env w) (statements w) = false.
Proof. intros w k H. rewrite <- (Nat.add_0_r (statements w)). apply H. lia. Qed.

Lemma store_accepts_1 :
  forall w k, store_accepts w (S (S k)) ->
    store_refuses (env w) (S (statements w)) = false.
Proof. intros w k H. rewrite <- Nat.add_1_r. apply H. lia. Qed.

Lemma store_accepts_2 :
  forall w k, store_accepts w (S (S (S k))) ->
    store_refuses (env w) (S (S (statements w))) = false.
Proof.
  intros w k H. replace (S (S (statements w))) with (statements w + 2)%nat by lia.
  apply H. lia.
Qed.

Lemma reading_0 : forall w, clock (env w) (readings w) = reading w 0.
Proof. intro w. unfold reading. now rewrite Nat.add_0_r. Qed.

Lemma verify_reset_no_record :
  forall w email code,
    validateEmailAddress email = Ok tt -> code <> "" ->
    store_accepts w 1 ->
    select_latest_unused email TokenTypePasswordReset (db w) = None ->
    outcome (VerifyPasswordResetCode email code) w = Err ErrInvalidToken /\
    db (after (VerifyPasswordResetCode email code) w) = db w.
Proof.
  intros w email code Hv Hc Hs Hsel. apply store_accepts_0 in Hs.
  apply String.eqb_neq in Hc.
  unfold VerifyPasswordResetCode. run_monad. rewrite Hv, Hc, Hs, Hsel. auto.
Qed.

Lemma verify_reset_expired :
  forall w email code t,
    validateEmailAddress email = Ok tt -> code <> "" ->
    store_accepts w 1 ->
    select_latest_unused email TokenTypePasswordReset (db w) = Some t ->
    ExpiresAt t < reading w 0 ->
    outcome (VerifyPasswordResetCode email code) w = Err ErrTokenExpired /\
    db (after (VerifyPasswordResetCode email code) w) = db w.
Proof.
  intros w email code t Hv Hc Hs Hsel Hexp. apply store_accepts_0 in Hs.
  apply String.eqb_neq in Hc. rewrite <- reading_0 in Hexp. apply Z.ltb_lt in Hexp.
  unfold VerifyPasswordResetCode. run_monad. rewrite Hv, Hc, Hs, Hsel. simpl.
  rewrite Hexp. auto.
Qed.

Lemma verify_reset_mismatch :
  forall w email code t,
    validateEmailAddress email = Ok tt -> code <> "" ->
    store_accepts w 1 ->
    select_latest_unused email TokenTypePasswordReset (db w) = Some t ->
    reading w 0 <= ExpiresAt t ->
    hashToken code <> bytes_of_string (Token t) ->
    outcome (VerifyPasswordResetCode email code) w = Err ErrInvalidToken /\
    db (after (VerifyPasswordResetCode email code) w) = db w.
Proof.
  intros w email code t Hv Hc Hs Hsel Hexp Hne. apply store_accepts_0 in Hs.
  apply String.eqb_neq in Hc. rewrite <- reading_0 in Hexp. apply Z.ltb_ge in Hexp.
  assert (Hcmp : (subtle.ConstantTimeCompare (hashToken code)
                    (bytes_of_string (Token t)) =? 1) = false).
  { apply Z.eqb_neq. intro E. apply Hne.
    apply ConstantTimeCompare_eq in E;
      auto using hashToken_bytes, bytes_of_string_are_bytes. }
  unfold VerifyPasswordResetCode. run_monad. rewrite Hv, Hc, Hs, Hsel. simpl.
  rewrite Hexp, Hcmp. auto.
Qed.

Lemma verify_reset_match :
  forall w email code t,
    validateEmailAddress email = Ok tt -> code <> "" ->
    store_accepts w 2 ->
    select_latest_unused email TokenTypePasswordReset (db w) = Some t ->
    reading w 0 <= ExpiresAt t ->
    hashToken code = bytes_of_string (Token t) ->
    outcome (VerifyPasswordResetCode email code) w = Ok t /\
    db (after (VerifyPasswordResetCode email code) w) =
      snd (update_used (ID t) (db w)).
Proof.
  intros w email code t Hv Hc Hs Hsel Hexp Heq.
  pose proof (store_accepts_1 _ _ Hs) as Hs1. apply store_accepts_0 in Hs.
  apply String.eqb_neq in Hc. rewrite <- reading_0 in Hexp. apply Z.ltb_ge in Hexp.
  assert (Hcmp : (subtle.ConstantTimeCompare (hashToken code)
                    (bytes_of_string (Token t)) =? 1) = true).
  { apply Z.eqb_eq. apply ConstantTimeCompare_eq;
      auto using hashToken_bytes, bytes_of_string_are_bytes. }
  unfold VerifyPasswordResetCode. run_monad. rewrite Hv, Hc, Hs, Hsel. simpl.
  rewrite Hexp, Hcmp. simpl. rewrite Hs1. auto.
Qed.

(** ** The failure contract of [VerifyPasswordResetCode] *)

(** C3. For an address that passes validation and a non-empty code, when the
    store answers the lookup: with no unused password-reset record of the
    address the call fails [ErrInvalidToken]; with an unused record past its
    expiry it fails [ErrTokenExpired] whatever the code; with an unexpired
    record whose stored hash differs from the hash of the code it fails
    [ErrInvalidToken] and the record stays in the table, unused. *)
Theorem verify_reset_failure_contract :
  forall w email code,
    validateEmailAddress email = Ok tt -> code <> "" -> store_accepts w 1 ->
    let call := VerifyPasswordResetCode email code in
    (no_unused_record (db w) email TokenTypePasswordReset ->
       outcome call w = Err ErrInvalidToken /\ db (after call w) = db w) /\
    (forall t,
       select_latest_unused email TokenTypePasswordReset (db w) = Some t ->
       latest_unused_record (db w) email TokenTypePasswordReset t /\
       (ExpiresAt t < reading w 0 ->
          outcome call w = Err ErrTokenExpired /\ db (after call w) = db w) /\
       (reading w 0 <= ExpiresAt t ->
        hashToken code <> bytes_of_string (Token t) ->
          outcome call w = Err ErrInvalidToken /\
          db (after call w) = db w /\
          In t (email_tokens (db (after call w))) /\ Used t = false)).
Proof.
  intros w email code Hv Hc Hs call. split.
  - intro Hnone. apply select_latest_unused_none in Hnone.
    now apply verify_reset_no_record.
  - intros t Hsel. pose proof (select_latest_unused_some _ _ _ _ Hsel) as Hl.
    split; [exact Hl|]. split.
    + intro Hexp. now apply verify_reset_expired with (t := t).
    + intros Hexp Hne.
      destruct (verify_reset_mismatch w email code t Hv Hc Hs Hsel Hexp Hne)
        as [Ho Hd].
      fold call in Ho, Hd. rewrite Hd.
      destruct Hl as (Hin & _ & _ & Hu & _). auto.
Qed.

(** C10. The expiry check comes before the comparison of hashes: when the
    record the lookup returns is past its expiry, the call fails
    [ErrTokenExpired] for every code, matching or not; only the lookup was
    sent to the store and the record is still unused. *)
Theorem verify_reset_expiry_before_hash :
  forall w email code t,
    validateEmailAddress email = Ok tt -> code <> "" -> store_accepts w 1 ->
    select_latest_unused email TokenTypePasswordReset (db w) = Some t ->
    ExpiresAt t < reading w 0 ->
    let call := VerifyPasswordResetCode email code in
    outcome call w = Err ErrTokenExpired /\
    email_tokens (db (after call w)) = email_tokens (db w) /\
    statements (after call w) = S (statements w) /\
    In t (email_tokens (db (after call w))) /\ Used t = false.
Proof.
  intros w email code t Hv Hc Hs Hsel Hexp call.
  destruct (verify_reset_expired w email code t Hv Hc Hs Hsel Hexp) as [Ho Hd].
  fold call in Ho, Hd. rewrite Hd.
  destruct (select_latest_unused_some _ _ _ _ Hsel) as (Hin & _ & _ & Hu & _).
  repeat split; auto.
  apply store_accepts_0 in Hs. apply String.eqb_neq in Hc.
  rewrite <- reading_0 in Hexp. apply Z.ltb_lt in Hexp.
  unfold call, VerifyPasswordResetCode. run_monad.
  rewrite Hv, Hc, Hs, Hsel. simpl. rewrite Hexp. reflexivity.
Qed.

(** ** Single use *)

Lemma mark_used_of_used : forall t, Used t = true -> mark_used t = t.
Proof. intros [] H. simpl in H. subst. reflexivity. Qed.

Lemma update_used_marks :
  forall id d t',
    In t' (email_tokens (snd (update_used id d))) -> ID t' = id -> Used t' = true.
Proof.
  intros id d t' Hin Hid. simpl in Hin. apply in_map_iff in Hin.
  destruct Hin as (t & E & _). destruct (ID t =? id) eqn:Ht.
  - subst t'. reflexivity.
  - subst t'. apply Z.eqb_neq in Ht. contradiction.
Qed.

Lemma update_used_exhausts :
  forall d email ty t,
    (forall r, In r (email_tokens d) ->
       Email r = email -> Type_ r = ty -> Used r = false -> ID r = ID t) ->
    no_unused_record (snd (update_used (ID t) d)) email ty.
Proof.
  intros d email ty t Honly r Hin He Hty. simpl in Hin. apply in_map_iff in Hin.
  destruct Hin as (r0 & E & Hin0). destruct (ID r0 =? ID t) eqn:Hid.
  - subst r. reflexivity.
  - subst r. destruct (Used r0) eqn:Hu; [reflexivity|].
    apply Z.eqb_neq in Hid. elim Hid. now apply Honly.
Qed.

Lemma map_ID_mark :
  forall id l, map ID (map (fun t => if ID t =? id then mark_used t else t) l) = map ID l.
Proof.
  intros id l. rewrite map_map. apply map_ext. intro t.
  destruct (ID t =? id); reflexivity.
Qed.

Lemma well_keyed_same_id :
  forall d r t,
    well_keyed d -> In r (email_tokens d) -> In t (email_tokens d) ->
    ID r = ID t -> r = t.
Proof.
  intros d r t [Hnd _]. induction (email_tokens d) as [|a l IH]; simpl in *.
  - intros [].
  - inversion Hnd as [|? ? Hnotin Hnd']; subst.
    intros [->|Hr] [->|Ht] Hid; auto.
    + elim Hnotin. rewrite Hid. now apply in_map.
    + elim Hnotin. rewrite <- Hid. now apply in_map.
Qed.

Lemma number_rows_ids :
  forall rows next,
    Forall (fun r => forall id, ID (r id) = id) rows ->
    NoDup (map ID (number_rows next rows)) /\
    Forall (fun t => next <= ID t < next + Z.of_nat (List.length rows))
           (number_rows next rows).
Proof.
  induction rows as [|r rows IH]; intros next H.
  - split; constructor.
  - cbn [number_rows map List.length]. rewrite Nat2Z.inj_succ.
    inversion H as [|? ? Hr Hrows]; subst.
    destruct (IH (next + 1) Hrows) as [Hnd Hb]. rewrite Hr. split.
    + constructor; [|exact Hnd]. intro Hin. apply in_map_iff in Hin.
      destruct Hin as (t & Hid & Hin). rewrite Forall_forall in Hb.
      specialize (Hb t Hin). lia.
    + constructor; [cbv beta; rewrite ?Hr; lia|]. eapply Forall_impl; [|exact Hb].
      cbv beta. intros t Ht. lia.
Qed.

Lemma insert_rows_well_keyed :
  forall rows d,
    Forall (fun r => forall id, ID (r id) = id) rows ->
    well_keyed d -> well_keyed (snd (insert_rows rows d)).
Proof.
  intros rows d Hrows [Hnd Hb]. unfold well_keyed. simpl.
  destruct (number_rows_ids rows (email_tokens_id_seq d) Hrows) as [Hnd' Hb'].
  rewrite Forall_forall in Hb, Hb'. split.
  - rewrite map_app. apply NoDup_app; auto.
    intros id Hold Hnew. apply in_map_iff in Hold. apply in_map_iff in Hnew.
    destruct Hold as (t & <- & Ht). destruct Hnew as (t' & E & Ht').
    specialize (Hb t Ht). specialize (Hb' t' Ht'). lia.
  - apply Forall_forall. intros t Hin. apply in_app_or in Hin.
    destruct Hin as [Hin|Hin]; [specialize (Hb t Hin)|specialize (Hb' t Hin)]; lia.
Qed.

Lemma update_used_well_keyed :
  forall id d, well_keyed d -> well_keyed (snd (update_used id d)).
Proof.
  intros id d [Hnd Hb]. unfold well_keyed. simpl. rewrite map_ID_mark.
  split; [exact Hnd|]. rewrite Forall_forall in *. intros t Hin.
  apply in_map_iff in Hin. destruct Hin as (t0 & <- & Hin0).
  specialize (Hb t0 Hin0). destruct (ID t0 =? id); exact Hb.
Qed.

Lemma NoDup_map_filter :
  forall (f : EmailToken -> bool) l, NoDup (map ID l) -> NoDup (map ID (filter f l)).
Proof.
  intros f l. induction l as [|t l IH]; simpl; intro H; [constructor|].
  inversion H as [|? ? Hnotin Hnd]; subst.
  destruct (f t); simpl; auto. constructor; auto.
  intro Hin. apply Hnotin. apply in_map_iff in Hin.
  destruct Hin as (t' & E & Hin). apply filter_In in Hin. rewrite <- E.
  apply in_map. tauto.
Qed.

Lemma delete_swept_well_keyed :
  forall now cutoff d, well_keyed d -> well_keyed (snd (delete_swept now cutoff d)).
Proof.
  intros now cutoff d [Hnd Hb]. unfold well_keyed. simpl.
  split; [now apply NoDup_map_filter|].
  rewrite Forall_forall in *. intros t Hin. apply filter_In in Hin. apply Hb. tauto.
Qed.

(** C1, as amended. A call for a valid address and a non-empty code whose
    looked-up record is unexpired and stores the hash of the code succeeds,
    returns that record (a stored record of the address, with the user id
    kept at issuance) and marks it used, and no other record of a well-keyed
    table.  When this was the only unused password-reset record of the
    address, every later call for the address, with any non-empty code, on a
    table left as it is, fails [ErrInvalidToken]. *)
Theorem reset_code_single_use :
  forall w email code t,
    validateEmailAddress email = Ok tt -> code <> "" -> store_accepts w 2 ->
    select_latest_unused email TokenTypePasswordReset (db w) = Some t ->
    reading w 0 <= ExpiresAt t ->
    bytes_of_string (Token t) = hashToken code ->
    let call := VerifyPasswordResetCode email code in
    outcome call w = Ok t /\
    latest_unused_record (db w) email TokenTypePasswordReset t /\
    email_tokens (db (after call w)) =
      map (fun r => if ID r =? ID t then mark_used r else r) (email_tokens (db w)) /\
    In (mark_used t) (email_tokens (db (after call w))) /\
    (well_keyed (db w) ->
     forall r, In r (email_tokens (db w)) -> r <> t ->
       In r (email_tokens (db (after call w)))) /\
    ((forall r, In r (email_tokens (db w)) ->
        Email r = email -> Type_ r = TokenTypePasswordReset -> Used r = false ->
        ID r = ID t) ->
     forall w2 code2,
       email_tokens (db w2) = email_tokens (db (after call w)) ->
       store_accepts w2 1 -> code2 <> "" ->
       outcome (VerifyPasswordResetCode email code2) w2 = Err ErrInvalidToken).
Proof.
  intros w email code t Hv Hc Hs Hsel Hexp Hh call.
  destruct (verify_reset_match w email code t Hv Hc Hs Hsel Hexp (eq_sym Hh))
    as [Ho Hd].
  fold call in Ho, Hd.
  pose proof (select_latest_unused_some _ _ _ _ Hsel) as Hl.
  split; [exact Ho|]. split; [exact Hl|]. rewrite Hd. split; [reflexivity|].
  split; [|split].
  - simpl. apply in_map_iff. exists t. rewrite Z.eqb_refl. split; [reflexivity|].
    apply Hl.
  - intros Hk r Hin Hne. simpl. apply in_map_iff. exists r. split; [|exact Hin].
    destruct (ID r =? ID t) eqn:Hid; [|reflexivity].
    apply Z.eqb_eq in Hid. elim Hne.
    apply (well_keyed_same_id (db w)); auto. apply Hl.
  - intros Honly w2 code2 Hsame Hs2 Hc2.
    apply verify_reset_no_record; auto.
    apply select_latest_unused_none.
    pose proof (update_used_exhausts (db w) email TokenTypePasswordReset t Honly) as Hn.
    intros r Hin. apply Hn. now rewrite <- Hsame.
Qed.

(** ** The sample deployment *)

Example one_code_issued :
  after (RequestPasswordReset Sample.reset_request) Sample.start = Sample.one_code.
Proof. vm_compute. reflexivity. Qed.

Example two_codes_issued :
  after (RequestPasswordReset Sample.reset_request) Sample.one_code = Sample.two_codes.
Proof. vm_compute. reflexivity. Qed.

(** ** Instances on the sample deployment *)

Lemma verify_reset_failure_contract_witness :
  hashToken "999999" <> bytes_of_string (Token Sample.first_row) /\
  outcome (VerifyPasswordResetCode Sample.address "999999") Sample.one_code
    = Err ErrInvalidToken /\
  db (after (VerifyPasswordResetCode Sample.address "999999") Sample.one_code)
    = db Sample.one_code.
Proof.
  assert (Hv : validateEmailAddress Sample.address = Ok tt) by (vm_compute; reflexivity).
  assert (Hc : "999999" <> "") by discriminate.
  assert (Hs : store_accepts Sample.one_code 1) by (intros i _; reflexivity).
  assert (Hsel : select_latest_unused Sample.address TokenTypePasswordReset
                   (db Sample.one_code) = Some Sample.first_row)
    by (vm_compute; reflexivity).
  assert (Hexp : reading Sample.one_code 0 <= ExpiresAt Sample.first_row)
    by (vm_compute; discriminate).
  assert (Hne : hashToken "999999" <> bytes_of_string (Token Sample.first_row))
    by (vm_compute; discriminate).
  destruct (verify_reset_failure_contract Sample.one_code Sample.address "999999"
              Hv Hc Hs) as [_ H].
  destruct (H Sample.first_row Hsel) as (_ & _ & Hm).
  destruct (Hm Hexp Hne) as (Ho & Hd & _ & _).
  split; [exact Hne|]. split; [exact Ho|exact Hd].
Defined.

Lemma verify_reset_expiry_before_hash_witness :
  ExpiresAt Sample.first_row < reading Sample.hour_later 0 /\
  bytes_of_string (Token Sample.first_row) = hashToken "000042" /\
  outcome (VerifyPasswordResetCode Sample.address "000042")
          Sample.hour_later = Err ErrTokenExpired.
Proof.
  assert (Hv : validateEmailAddress Sample.address = Ok tt) by (vm_compute; reflexivity).
  assert (Hc : "000042" <> "") by discriminate.
  assert (Hs : store_accepts Sample.hour_later 1) by (intros i _; reflexivity).
  assert (Hsel : select_latest_unused Sample.address TokenTypePasswordReset
                   (db Sample.hour_later) = Some Sample.first_row)
    by (vm_compute; reflexivity).
  assert (Hexp : ExpiresAt Sample.first_row < reading Sample.hour_later 0)
    by (vm_compute; reflexivity).
  destruct (verify_reset_expiry_before_hash Sample.hour_later Sample.address
              "000042" Sample.first_row Hv Hc Hs Hsel Hexp) as (Ho & _).
  split; [exact Hexp|]. split; [vm_compute; reflexivity|exact Ho].
Defined.

Lemma reset_code_single_use_witness :
  outcome (VerifyPasswordResetCode Sample.address "000042") Sample.one_code
    = Ok Sample.first_row /\
  UserID Sample.first_row = user_id Sample.account /\
  outcome (VerifyPasswordResetCode Sample.address "000042")
          (after (VerifyPasswordResetCode Sample.address "000042") Sample.one_code)
    = Err ErrInvalidToken.
Proof.
  assert (Hv : validateEmailAddress Sample.address = Ok tt) by (vm_compute; reflexivity).
  assert (Hc : "000042" <> "") by discriminate.
  assert (Hs : store_accepts Sample.one_code 2) by (intros i _; reflexivity).
  assert (Hsel : select_latest_unused Sample.address TokenTypePasswordReset
                   (db Sample.one_code) = Some Sample.first_row)
    by (vm_compute; reflexivity).
  assert (Hexp : reading Sample.one_code 0 <= ExpiresAt Sample.first_row)
    by (vm_compute; discriminate).
  assert (Hh : bytes_of_string (Token Sample.first_row) = hashToken "000042")
    by (vm_compute; reflexivity).
  assert (Honly : forall r, In r (email_tokens (db Sample.one_code)) ->
            Email r = Sample.address -> Type_ r = TokenTypePasswordReset ->
            Used r = false -> ID r = ID Sample.first_row).
  { intros r [<-|[]] _ _ _. reflexivity. }
  destruct (reset_code_single_use Sample.one_code Sample.address "000042"
              Sample.first_row Hv Hc Hs Hsel Hexp Hh)
    as (Ho & _ & _ & _ & _ & Hreplay).
  split; [exact Ho|]. split; [reflexivity|].
  refine (Hreplay Honly _ "000042" eq_refl _ Hc).
  intros i _. reflexivity.
Defined.

(** C1, as stated, fails: with two codes outstanding, verifying the later
    one leaves the earlier record unused, and a later call with the earlier
    code succeeds instead of failing [ErrInvalidToken]. *)
Lemma reset_replay_with_older_code_succeeds :
  select_latest_unused Sample.address TokenTypePasswordReset (db Sample.two_codes)
    = Some Sample.second_row /\
  reading Sample.two_codes 0 <= ExpiresAt Sample.second_row /\
  bytes_of_string (Token Sample.second_row) = hashToken "000043" /\
  outcome (VerifyPasswordResetCode Sample.address "000043") Sample.two_codes
    = Ok Sample.second_row /\
  outcome (VerifyPasswordResetCode Sample.address "000042")
          (after (VerifyPasswordResetCode Sample.address "000043") Sample.two_codes)
    = Ok Sample.first_row /\
  outcome (VerifyPasswordResetCode Sample.address "000042")
          (after (VerifyPasswordResetCode Sample.address "000043") Sample.two_codes)
    <> Err ErrInvalidToken.
Proof.
  split; [vm_compute; reflexivity|].
  split; [vm_compute; discriminate|].
  split; [vm_compute; reflexivity|].
  split; [vm_compute; reflexivity|].
  split; [vm_compute; reflexivity|].
  vm_compute. discriminate.
Qed.

(** ** Maintenance *)

Lemma reading_1 : forall w, clock (env w) (S (readings w)) = reading w 1.
Proof. intro w. unfold reading. now rewrite Nat.add_1_r. Qed.

Lemma swept_spec :
  forall now cutoff t,
    swept now cutoff t = true <->
    ExpiresAt t < now \/ (Used t = true /\ CreatedAt t < cutoff).
Proof.
  intros now cutoff t. unfold swept.
  rewrite orb_true_iff, andb_true_iff, !Z.ltb_lt. tauto.
Qed.

Lemma cleanup_run :
  forall w, store_accepts w 1 ->
    outcome CleanupExpiredTokens w = Ok tt /\
    db (after CleanupExpiredTokens w) =
      snd (delete_swept (reading w 0) (reading w 1 + - (7 * 24 * Hour)) (db w)).
Proof.
  intros w Hs. apply store_accepts_0 in Hs.
  unfold CleanupExpiredTokens. run_monad. simpl. rewrite Hs.
  rewrite reading_0, reading_1. auto.
Qed.

(** C8. When the store accepts the statement, [CleanupExpiredTokens] deletes
    a record exactly when it is past its expiry, or used and created more
    than 7 days ago; the other records stay as they are and in their order,
    in particular every unused, unexpired record; nothing is added. *)
Theorem cleanup_deletes_expired_or_stale_used :
  forall w, store_accepts w 1 ->
    let now := reading w 0 in
    let week_ago := reading w 1 - 7 * 24 * Hour in
    let w' := after CleanupExpiredTokens w in
    outcome CleanupExpiredTokens w = Ok tt /\
    (forall t, In t (email_tokens (db w)) ->
       (~ In t (email_tokens (db w')) <->
        ExpiresAt t < now \/ (Used t = true /\ CreatedAt t < week_ago))) /\
    (forall t, In t (email_tokens (db w')) -> In t (email_tokens (db w))) /\
    (forall t, In t (email_tokens (db w)) ->
       Used t = false -> now <= ExpiresAt t -> In t (email_tokens (db w'))) /\
    email_tokens (db w') =
      filter (fun t => negb (swept now week_ago t)) (email_tokens (db w)) /\
    users (db w') = users (db w).
Proof.
  intros w Hs now week_ago w'.
  destruct (cleanup_run w Hs) as [Ho Hd]. fold w' in Hd.
  replace (reading w 1 + - (7 * 24 * Hour)) with week_ago in Hd by (unfold week_ago; lia).
  fold now in Hd. rewrite Hd. simpl.
  split; [exact Ho|]. split; [|split; [|split; [|split; reflexivity]]].
  - intros t Hin. rewrite filter_In, <- swept_spec.
    destruct (swept now week_ago t); simpl; split.
    + reflexivity.
    + intros _ [_ H]. discriminate.
    + intro H. exfalso. apply H. auto.
    + discriminate.
  - intros t Hin. apply filter_In in Hin. tauto.
  - intros t Hin Hu Hexp. apply filter_In. split; [assumption|].
    apply negb_true_iff. destruct (swept now week_ago t) eqn:E; [|reflexivity].
    apply swept_spec in E. destruct E as [E|[E _]]; [lia|congruence].
Qed.

(** ** The records through the operations *)

Section Keeps.

Variable P : DB -> DB -> Prop.
Hypothesis P_refl : forall d, P d d.
Hypothesis P_trans : forall d1 d2 d3, P d1 d2 -> P d2 d3 -> P d1 d3.

Lemma keeps_ret : forall A (a : A), keeps P (ret a).
Proof. intros A a w. apply P_refl. Qed.

Lemma keeps_fail : forall A e, keeps P (@fail A e).
Proof. intros A e w. apply P_refl. Qed.

Lemma keeps_lift : forall A (r : Result A), keeps P (lift r).
Proof. intros A r w. apply P_refl. Qed.

Lemma keeps_time_Now : keeps P time_Now.
Proof. intro w. apply P_refl. Qed.

Lemma keeps_rand_Int : forall max, keeps P (rand_Int max).
Proof.
  intros max w. unfold after, rand_Int.
  destruct (rand_Int_draw (env w) (draws w)); apply P_refl.
Qed.

Lemma keeps_rand_Read : forall n, keeps P (rand_Read n).
Proof.
  intros n w. unfold after, rand_Read.
  destruct (rand_Read_draw (env w) (draws w)); apply P_refl.
Qed.

Lemma keeps_deliver : forall d, keeps P (deliver d).
Proof.
  intros d w. unfold after, deliver.
  destruct (notifier_fails (env w) (deliveries w)); apply P_refl.
Qed.

Lemma keeps_GetVerificationURL : forall token, keeps P (GetVerificationURL token).
Proof. intros token w. apply P_refl. Qed.

Lemma keeps_db_QueryRow : forall A (query : DB -> option A), keeps P (db_QueryRow query).
Proof.
  intros A query w. unfold after, db_QueryRow.
  destruct (store_refuses (env w) (statements w)); [apply P_refl|].
  destruct (query (db w)); apply P_refl.
Qed.

Lemma keeps_db_Query : forall A (query : DB -> list A), keeps P (db_Query query).
Proof.
  intros A query w. unfold after, db_Query.
  destruct (store_refuses (env w) (statements w)); apply P_refl.
Qed.

Lemma keeps_db_Exec :
  forall A (stmt : DB -> A * DB),
    (forall d, P d (snd (stmt d))) ->
    keeps P (db_Exec stmt).
Proof.
  intros A stmt H w. unfold after, db_Exec.
  destruct (store_refuses (env w) (statements w)); [apply P_refl|].
  specialize (H (db w)). destruct (stmt (db w)) as [a d]. exact H.
Qed.

Lemma keeps_on_error :
  forall A f (m : M A), keeps P m -> keeps P (on_error f m).
Proof.
  intros A f m H w. specialize (H w). unfold after, on_error in *.
  destruct (m w) as [[a|e] w1]; exact H.
Qed.

Lemma keeps_bind :
  forall A B (m : M A) (k : A -> M B),
    keeps P m -> (forall a, keeps P (k a)) -> keeps P (bind m k).
Proof.
  intros A B m k Hm Hk w. specialize (Hm w). unfold after, bind in *.
  destruct (m w) as [[a|e] w1]; simpl in Hm; [|exact Hm].
  eapply P_trans; [exact Hm|]. apply Hk.
Qed.

Lemma keeps_generateNumericCode : forall length, keeps P (generateNumericCode length).
Proof.
  intro length. unfold generateNumericCode.
  destruct ((length <=? 0) || (10 <? length)); [apply keeps_fail|].
  apply keeps_bind; [apply keeps_on_error, keeps_rand_Int|].
  intro n. apply keeps_ret.
Qed.

Lemma keeps_generateSecureToken : keeps P generateSecureToken.
Proof.
  unfold generateSecureToken.
  apply keeps_bind; [apply keeps_on_error, keeps_rand_Read|].
  intro bs. apply keeps_ret.
Qed.

Lemma keeps_checkRateLimit : forall email ty, keeps P (checkRateLimit email ty).
Proof.
  intros email ty. unfold checkRateLimit.
  apply keeps_bind; [apply keeps_time_Now|]. intro now.
  apply keeps_bind; [apply keeps_on_error, keeps_db_QueryRow|]. intro count.
  destruct (3 <=? count); [apply keeps_fail|apply keeps_ret].
Qed.

End Keeps.

Lemma only_issues_refl : forall l, only_issues l l.
Proof. intro l. exists []. rewrite app_nil_r. auto. Qed.

Lemma only_issues_trans :
  forall l1 l2 l3, only_issues l1 l2 -> only_issues l2 l3 -> only_issues l1 l3.
Proof.
  intros l1 l2 l3 (a & -> & Ha) (b & -> & Hb). exists (a ++ b).
  rewrite app_assoc. split; [reflexivity|]. apply Forall_app. auto.
Qed.

Lemma flipped_or_same_trans :
  forall t1 t2 t3,
    flipped_or_same t1 t2 -> flipped_or_same t2 t3 -> flipped_or_same t1 t3.
Proof.
  intros t1 t2 t3 [->|[Hu ->]] [->|[Hu' ->]].
  - left. reflexivity.
  - right. auto.
  - right. auto.
  - simpl in Hu'. discriminate.
Qed.

Lemma only_flips_refl : forall l, only_flips l l.
Proof. induction l; constructor; [left; reflexivity|assumption]. Qed.

Lemma only_flips_trans :
  forall l1 l2 l3, only_flips l1 l2 -> only_flips l2 l3 -> only_flips l1 l3.
Proof.
  intros l1 l2 l3 H12. revert l3.
  induction H12 as [|t1 t2 l1 l2 Ht H12 IH]; intros l3 H23;
    inversion H23 as [|t2' t3 l2' l3' Ht' H23']; subst.
  - constructor.
  - constructor.
    + exact (flipped_or_same_trans _ _ _ Ht Ht').
    + apply IH. exact H23'.
Qed.

Lemma only_deletes_refl : forall l, only_deletes l l.
Proof.
  intro l. exists (fun _ => true). induction l; simpl; congruence.
Qed.

Lemma only_deletes_trans :
  forall l1 l2 l3, only_deletes l1 l2 -> only_deletes l2 l3 -> only_deletes l1 l3.
Proof.
  intros l1 l2 l3 (f & ->) (g & ->). exists (fun t => f t && g t).
  induction l1 as [|t l1 IH]; simpl; [reflexivity|].
  destruct (f t); simpl; [destruct (g t)|]; congruence.
Qed.

Lemma number_rows_unused :
  forall rows next,
    Forall (fun r => forall id, Used (r id) = false) rows ->
    Forall (fun t => Used t = false) (number_rows next rows).
Proof.
  induction rows as [|r rows IH]; intros next H; simpl; [constructor|].
  inversion H; subst. constructor; auto.
Qed.

Lemma insert_token_for_email_issues :
  forall token email ty expires created ip ua d,
    only_issues (email_tokens d)
      (email_tokens (snd (insert_token_for_email token email ty expires created ip ua d))).
Proof.
  intros. simpl. eexists. split; [reflexivity|].
  apply number_rows_unused. apply Forall_forall. intros r Hin.
  apply in_map_iff in Hin. destruct Hin as (u & <- & _). reflexivity.
Qed.

Lemma insert_token_issues :
  forall token uid email ty expires created ip ua d,
    only_issues (email_tokens d)
      (email_tokens (snd (insert_token token uid email ty expires created ip ua d))).
Proof.
  intros. simpl. eexists. split; [reflexivity|]. repeat constructor.
Qed.

Lemma update_used_flips :
  forall id d, only_flips (email_tokens d) (email_tokens (snd (update_used id d))).
Proof.
  intros id d. simpl. induction (email_tokens d) as [|t l IH]; simpl; constructor; auto.
  destruct (ID t =? id); [|left; reflexivity].
  destruct (Used t) eqn:Hu; [left; now apply mark_used_of_used|right; auto].
Qed.

Lemma delete_swept_deletes :
  forall now cutoff d,
    only_deletes (email_tokens d) (email_tokens (snd (delete_swept now cutoff d))).
Proof. intros. simpl. eexists. reflexivity. Qed.

(** the steps of a method, down to its statements *)
Ltac keeps_steps :=
  repeat match goal with
  | |- _ => assumption
  | |- forall _, _ => intro
  | |- keeps _ (if ?c then _ else _) => destruct c
  | |- keeps _ (bind _ _) => apply keeps_bind
  | |- keeps _ (on_error _ _) => apply keeps_on_error
  | |- keeps _ (db_Exec _) => apply keeps_db_Exec
  | |- keeps _ _ =>
      first [ apply keeps_ret | apply keeps_fail | apply keeps_lift
            | apply keeps_time_Now | apply keeps_deliver
            | apply keeps_GetVerificationURL | apply keeps_db_QueryRow
            | apply keeps_db_Query | apply keeps_generateNumericCode
            | apply keeps_generateSecureToken | apply keeps_checkRateLimit ]
  end.

Section Methods.

Variable P : DB -> DB -> Prop.
Hypothesis P_refl : forall d, P d d.
Hypothesis P_trans : forall d1 d2 d3, P d1 d2 -> P d2 d3 -> P d1 d3.

(** what the statements of the token manager do to the store *)
Hypothesis P_insert_for_email :
  forall token email ty expires created ip ua d,
    ty = TokenTypePasswordReset ->
    P d (snd (insert_token_for_email token email ty expires created ip ua d)).
Hypothesis P_insert :
  forall token uid email ty expires created ip ua d,
    P d (snd (insert_token token uid email ty expires created ip ua d)).
Hypothesis P_update_used : forall id d, P d (snd (update_used id d)).
Hypothesis P_update_verified : forall now uid d, P d (snd (update_verified now uid d)).
Hypothesis P_delete : forall now cutoff d, P d (snd (delete_swept now cutoff d)).

Lemma keeps_operation : forall op w, P (db w) (db (run op w)).
Proof.
  intros op w. revert w. change (keeps P (fun w => (Ok tt, run op w))).
  assert (E : forall A (m : M A), keeps P m -> keeps P (fun w => (Ok tt, after m w)))
    by (intros A m H w; exact (H w)).
  destruct op as [req|email code|req|token| |]; apply E.
  - unfold RequestPasswordReset. keeps_steps. now apply P_insert_for_email.
  - unfold VerifyPasswordResetCode. keeps_steps. apply P_update_used.
  - unfold RequestEmailVerification. keeps_steps. apply P_insert.
  - unfold VerifyEmailToken. keeps_steps.
    + apply P_update_used.
    + apply P_update_verified.
  - unfold CleanupExpiredTokens. keeps_steps. apply P_delete.
  - unfold GetTokenStats. keeps_steps.
Qed.

End Methods.

Lemma on_tokens_refl :
  forall R : list EmailToken -> list EmailToken -> Prop,
    (forall l, R l l) -> forall d, on_tokens R d d.
Proof. intros R H d. apply H. Qed.

Lemma on_tokens_trans :
  forall R : list EmailToken -> list EmailToken -> Prop,
    (forall l1 l2 l3, R l1 l2 -> R l2 l3 -> R l1 l3) ->
    forall d1 d2 d3, on_tokens R d1 d2 -> on_tokens R d2 d3 -> on_tokens R d1 d3.
Proof. intros R H d1 d2 d3. apply H. Qed.

Lemma RequestPasswordReset_issues :
  forall req, keeps (on_tokens only_issues) (RequestPasswordReset req).
Proof.
  intro req. unfold RequestPasswordReset.
  pose proof (on_tokens_refl _ only_issues_refl) as R.
  pose proof (on_tokens_trans _ only_issues_trans) as T.
  keeps_steps. apply insert_token_for_email_issues.
Qed.

Lemma RequestEmailVerification_issues :
  forall req, keeps (on_tokens only_issues) (RequestEmailVerification req).
Proof.
  intro req. unfold RequestEmailVerification.
  pose proof (on_tokens_refl _ only_issues_refl) as R.
  pose proof (on_tokens_trans _ only_issues_trans) as T.
  keeps_steps. apply insert_token_issues.
Qed.

Lemma VerifyPasswordResetCode_flips :
  forall email code, keeps (on_tokens only_flips) (VerifyPasswordResetCode email code).
Proof.
  intros email code. unfold VerifyPasswordResetCode.
  pose proof (on_tokens_refl _ only_flips_refl) as R.
  pose proof (on_tokens_trans _ only_flips_trans) as T.
  keeps_steps. apply update_used_flips.
Qed.

Lemma VerifyEmailToken_flips :
  forall token, keeps (on_tokens only_flips) (VerifyEmailToken token).
Proof.
  intro token. unfold VerifyEmailToken.
  pose proof (on_tokens_refl _ only_flips_refl) as R.
  pose proof (on_tokens_trans _ only_flips_trans) as T.
  keeps_steps. apply update_used_flips.
Qed.

Lemma CleanupExpiredTokens_deletes : keeps (on_tokens only_deletes) CleanupExpiredTokens.
Proof.
  unfold CleanupExpiredTokens.
  pose proof (on_tokens_refl _ only_deletes_refl) as R.
  pose proof (on_tokens_trans _ only_deletes_trans) as T.
  keeps_steps. apply delete_swept_deletes.
Qed.

Lemma GetTokenStats_reads :
  keeps (on_tokens (fun old new => new = old)) GetTokenStats.
Proof.
  unfold GetTokenStats.
  assert (R : forall d, on_tokens (fun old new => new = old) d d) by reflexivity.
  assert (T : forall d1 d2 d3, on_tokens (fun old new => new = old) d1 d2 ->
            on_tokens (fun old new => new = old) d2 d3 ->
            on_tokens (fun old new => new = old) d1 d3)
    by (unfold on_tokens; congruence).
  keeps_steps.
Qed.

(** the key of the table stays a key through every operation *)
Lemma operations_keep_the_key :
  forall op w, well_keyed (db w) -> well_keyed (db (run op w)).
Proof.
  intros op w.
  apply (keeps_operation (fun d d' => well_keyed d -> well_keyed d')).
  - auto.
  - auto.
  - intros token email ty expires created ip ua d _ H.
    apply insert_rows_well_keyed; [|exact H].
    apply Forall_forall. intros r Hin. apply in_map_iff in Hin.
    destruct Hin as (x & <- & _). reflexivity.
  - intros token uid email ty expires created ip ua d H.
    apply insert_rows_well_keyed; [|exact H].
    constructor; [reflexivity|constructor].
  - intros id d H. now apply update_used_well_keyed.
  - intros now uid d H. exact H.
  - intros now cutoff d H. now apply delete_swept_well_keyed.
Qed.

Lemma only_flips_used_stays :
  forall old new t,
    only_flips old new -> In t old -> Used t = true -> In t new.
Proof.
  intros old new t H. induction H as [|a b old new Hab H IH]; intros Hin Hu.
  - destruct Hin.
  - destruct Hin as [->|Hin]; [|right; auto].
    left. destruct Hab as [E|[Hf _]]; [assumption|congruence].
Qed.

Lemma only_flips_unused_origin :
  forall old new t',
    only_flips old new -> In t' new -> Used t' = false -> In t' old.
Proof.
  intros old new t' H. induction H as [|a b old new Hab H IH]; intros Hin Hu.
  - destruct Hin.
  - destruct Hin as [->|Hin]; [|right; auto].
    left. destruct Hab as [E|[_ E]]; [auto|]. subst t'. simpl in Hu. discriminate.
Qed.

(** C4. Every operation changes the table of records only along the
    lifecycle: issuance appends records that are unused and leaves the
    stored ones as they are; verification keeps every record in place,
    either unchanged or flipped from unused to used; maintenance only
    deletes; statistics change nothing.  So a used record is never turned
    back: it stays as it is unless maintenance deletes it, and an unused
    record of the new table was there before or has just been issued. *)
Theorem used_flag_only_rises :
  forall (op : Operation) (w : World),
    let old := email_tokens (db w) in
    let new := email_tokens (db (run op w)) in
    lifecycle op old new /\
    (forall t, In t old -> Used t = true ->
       In t new \/ op = OpCleanupExpiredTokens) /\
    (forall t', In t' new -> Used t' = false ->
       In t' old \/ issuance op = true).
Proof.
  intros op w old new.
  assert (L : lifecycle op old new).
  { unfold old, new. destruct op as [req|email code|req|token| |]; simpl.
    - apply RequestPasswordReset_issues.
    - apply VerifyPasswordResetCode_flips.
    - apply RequestEmailVerification_issues.
    - apply VerifyEmailToken_flips.
    - apply CleanupExpiredTokens_deletes.
    - apply GetTokenStats_reads. }
  split; [exact L|]. clearbody old new.
  destruct op as [req|email code|req|token| |]; simpl in L; split;
    intros t Hin Hu; auto.
  - left. destruct L as (added & -> & _). apply in_or_app. auto.
  - left. eapply only_flips_used_stays; eauto.
  - left. eapply only_flips_unused_origin; eauto.
  - left. destruct L as (added & -> & _). apply in_or_app. auto.
  - left. eapply only_flips_used_stays; eauto.
  - left. eapply only_flips_unused_origin; eauto.
  - left. destruct L as (keep & ->). apply filter_In in Hin. tauto.
  - left. now rewrite L.
  - left. now rewrite <- L.
Qed.

(** ** Email verification *)

Lemma unused_with_spec :
  forall token ty t,
    unused_with token ty t = true <->
    Token t = token /\ Type_ t = ty /\ Used t = false.
Proof.
  intros token ty t. unfold unused_with.
  rewrite !andb_true_iff, String.eqb_eq, TokenType_eqb_eq, negb_true_iff. tauto.
Qed.

Lemma select_unused_by_token_some :
  forall token ty d t,
    select_unused_by_token token ty d = Some t ->
    In t (email_tokens d) /\ Token t = token /\ Type_ t = ty /\ Used t = false.
Proof.
  unfold select_unused_by_token. intros token ty d t H.
  apply find_some in H. destruct H as [Hin Hu]. apply unused_with_spec in Hu. tauto.
Qed.

Lemma select_unused_by_token_none :
  forall token ty d,
    select_unused_by_token token ty d = None <->
    (forall r, In r (email_tokens d) -> Token r = token -> Type_ r = ty -> Used r = true).
Proof.
  unfold select_unused_by_token. intros token ty d. split.
  - intros H r Hin Ht Hty. pose proof (find_none _ _ H r Hin) as Hf.
    destruct (Used r) eqn:Hu; [reflexivity|].
    assert (Ht' : unused_with token ty r = true) by (apply unused_with_spec; auto).
    congruence.
  - intro H. induction (email_tokens d) as [|r l IH]; simpl; [reflexivity|].
    destruct (unused_with token ty r) eqn:Hu.
    + apply unused_with_spec in Hu. destruct Hu as (Ht & Hty & Hf).
      rewrite (H r (or_introl eq_refl) Ht Hty) in Hf. discriminate.
    + apply IH. intros r' Hin. apply H. right. assumption.
Qed.

Lemma verified_or_same_trans :
  forall u1 u2 u3,
    verified_or_same u1 u2 -> verified_or_same u2 u3 -> verified_or_same u1 u3.
Proof.
  intros u1 u2 u3 [->|[Hn [ts ->]]] [->|[Hn' [ts' ->]]].
  - left. reflexivity.
  - right. eauto.
  - right. eauto.
  - simpl in Hn'. discriminate.
Qed.

Lemma only_verifies_refl : forall l, only_verifies l l.
Proof. induction l; constructor; [left; reflexivity|assumption]. Qed.

Lemma only_verifies_trans :
  forall l1 l2 l3, only_verifies l1 l2 -> only_verifies l2 l3 -> only_verifies l1 l3.
Proof.
  intros l1 l2 l3 H12. revert l3.
  induction H12 as [|u1 u2 l1 l2 Hu H12 IH]; intros l3 H23;
    inversion H23 as [|u2' u3 l2' l3' Hu' H23']; subst.
  - constructor.
  - constructor.
    + exact (verified_or_same_trans _ _ _ Hu Hu').
    + apply IH. exact H23'.
Qed.

Lemma only_verifies_verified_stays :
  forall old new u ts,
    only_verifies old new -> In u old -> email_verified_at u = Some ts -> In u new.
Proof.
  intros old new u ts H. induction H as [|a b old new Hab H IH]; intros Hin Hv.
  - destruct Hin.
  - destruct Hin as [->|Hin]; [|right; auto].
    left. destruct Hab as [E|[Hn _]]; [assumption|congruence].
Qed.

Lemma update_verified_verifies :
  forall now uid d,
    only_verifies (users d) (users (snd (update_verified now uid d))).
Proof.
  intros now uid d. simpl. induction (users d) as [|u l IH]; simpl; constructor; auto.
  destruct (user_id u =? uid); simpl; [|left; reflexivity].
  destruct (email_verified_at u) eqn:Hv; [left; reflexivity|right; eauto].
Qed.

Lemma VerifyEmailToken_verifies :
  forall token, keeps (on_users only_verifies) (VerifyEmailToken token).
Proof.
  intro token. unfold VerifyEmailToken.
  assert (R : forall d, on_users only_verifies d d) by (intro; apply only_verifies_refl).
  assert (T : forall d1 d2 d3, on_users only_verifies d1 d2 ->
            on_users only_verifies d2 d3 -> on_users only_verifies d1 d3)
    by (intros ? ? ?; apply only_verifies_trans).
  keeps_steps. apply update_verified_verifies.
Qed.

Lemma verify_email_failure_keeps_users :
  forall w token e,
    outcome (VerifyEmailToken token) w = Err e ->
    users (db (after (VerifyEmailToken token) w)) = users (db w).
Proof.
  intros w token e. unfold VerifyEmailToken. run_monad.
  destruct (String.eqb token ""); [reflexivity|].
  destruct (store_refuses (env w) (statements w)); [reflexivity|].
  destruct (select_unused_by_token _ _ (db w)) as [t|]; [|reflexivity]. simpl.
  destruct (ExpiresAt t <? _); [reflexivity|]. simpl.
  destruct (store_refuses (env w) (S (statements w))); [reflexivity|]. simpl.
  destruct (store_refuses (env w) (S (S (statements w)))); [reflexivity|]. simpl.
  discriminate.
Qed.

Lemma verify_email_no_record :
  forall w token,
    token <> "" -> store_accepts w 1 ->
    select_unused_by_token (string_of_bytes (hashToken token))
      TokenTypeEmailVerification (db w) = None ->
    outcome (VerifyEmailToken token) w = Err ErrInvalidToken /\
    db (after (VerifyEmailToken token) w) = db w.
Proof.
  intros w token Hc Hs Hsel. apply store_accepts_0 in Hs. apply String.eqb_neq in Hc.
  unfold VerifyEmailToken. run_monad. rewrite Hc, Hs, Hsel. auto.
Qed.

Lemma verify_email_expired :
  forall w token t,
    token <> "" -> store_accepts w 1 ->
    select_unused_by_token (string_of_bytes (hashToken token))
      TokenTypeEmailVerification (db w) = Some t ->
    ExpiresAt t < reading w 0 ->
    outcome (VerifyEmailToken token) w = Err ErrTokenExpired /\
    db (after (VerifyEmailToken token) w) = db w.
Proof.
  intros w token t Hc Hs Hsel Hexp. apply store_accepts_0 in Hs.
  apply String.eqb_neq in Hc. rewrite <- reading_0 in Hexp. apply Z.ltb_lt in Hexp.
  unfold VerifyEmailToken. run_monad. rewrite Hc, Hs, Hsel. simpl.
  rewrite Hexp. auto.
Qed.

Lemma verify_email_success :
  forall w token t,
    token <> "" -> store_accepts w 3 ->
    select_unused_by_token (string_of_bytes (hashToken token))
      TokenTypeEmailVerification (db w) = Some t ->
    reading w 0 <= ExpiresAt t ->
    outcome (VerifyEmailToken token) w = Ok t /\
    db (after (VerifyEmailToken token) w) =
      snd (update_verified (reading w 1) (UserID t)
             (snd (update_used (ID t) (db w)))).
Proof.
  intros w token t Hc Hs Hsel Hexp.
  pose proof (store_accepts_2 _ _ Hs) as Hs2.
  pose proof (store_accepts_1 _ _ Hs) as Hs1. apply store_accepts_0 in Hs.
  apply String.eqb_neq in Hc. rewrite <- reading_0 in Hexp. apply Z.ltb_ge in Hexp.
  unfold VerifyEmailToken. run_monad. rewrite Hc, Hs, Hsel. simpl.
  rewrite Hexp. simpl. rewrite Hs1. simpl. rewrite Hs2. simpl.
  rewrite reading_1. auto.
Qed.

(** C6. Every call of [VerifyEmailToken] leaves each user row as it is or
    takes it from unverified to verified, so a verified timestamp is never
    reset, unset or altered; a failing call leaves the users untouched.  A
    successful call marks the record it found used and sets the timestamp of
    the owning user only where none is set.  A token whose records are all
    used fails [ErrInvalidToken], in particular the token just verified when
    no other unused record stores its hash; an expired token fails
    [ErrTokenExpired]; both leave the store as it is. *)
Theorem verify_email_marks_verified_once :
  forall (w : World) (token : string),
    let call := VerifyEmailToken token in
    let hashed := string_of_bytes (hashToken token) in
    only_verifies (users (db w)) (users (db (after call w))) /\
    (forall u ts, In u (users (db w)) -> email_verified_at u = Some ts ->
       In u (users (db (after call w)))) /\
    (forall e, outcome call w = Err e -> users (db (after call w)) = users (db w)) /\
    (token <> "" -> store_accepts w 3 ->
     forall t,
       select_unused_by_token hashed TokenTypeEmailVerification (db w) = Some t ->
       reading w 0 <= ExpiresAt t ->
       outcome call w = Ok t /\
       email_tokens (db (after call w)) =
         map (fun r => if ID r =? ID t then mark_used r else r) (email_tokens (db w)) /\
       users (db (after call w)) =
         map (fun u =>
                if (user_id u =? UserID t) &&
                   match email_verified_at u with None => true | Some _ => false end
                then mkUser (user_id u) (user_email u) (Some (reading w 1))
                else u)
             (users (db w)) /\
       ((forall r, In r (email_tokens (db w)) ->
           Token r = hashed -> Type_ r = TokenTypeEmailVerification ->
           Used r = false -> ID r = ID t) ->
        forall w2,
          email_tokens (db w2) = email_tokens (db (after call w)) ->
          store_accepts w2 1 ->
          outcome call w2 = Err ErrInvalidToken /\ db (after call w2) = db w2)) /\
    (token <> "" -> store_accepts w 1 ->
     (forall r, In r (email_tokens (db w)) ->
        Token r = hashed -> Type_ r = TokenTypeEmailVerification -> Used r = true) ->
     outcome call w = Err ErrInvalidToken /\ db (after call w) = db w) /\
    (token <> "" -> store_accepts w 1 ->
     forall t,
       select_unused_by_token hashed TokenTypeEmailVerification (db w) = Some t ->
       ExpiresAt t < reading w 0 ->
       outcome call w = Err ErrTokenExpired /\ db (after call w) = db w).
Proof.
  intros w token call hashed.
  pose proof (VerifyEmailToken_verifies token w) as Hver.
  unfold on_users in Hver. fold call in Hver.
  split; [exact Hver|]. split; [|split; [|split; [|split]]].
  - intros u ts Hin Hv. eapply only_verifies_verified_stays; eauto.
  - intros e He. eapply verify_email_failure_keeps_users; eauto.
  - intros Hc Hs t Hsel Hexp.
    destruct (verify_email_success w token t Hc Hs Hsel Hexp) as [Ho Hd].
    fold call in Ho, Hd.
    split; [exact Ho|]. rewrite Hd. split; [reflexivity|]. split; [reflexivity|].
    intros Honly w2 Hsame Hs2. apply verify_email_no_record; auto.
    apply select_unused_by_token_none. intros r Hin Ht Hty.
    rewrite Hsame in Hin. simpl in Hin. apply in_map_iff in Hin.
    destruct Hin as (r0 & E & Hin0). destruct (ID r0 =? ID t) eqn:Hid.
    + subst r. reflexivity.
    + subst r. destruct (Used r0) eqn:Hu; [reflexivity|].
      apply Z.eqb_neq in Hid. elim Hid. now apply Honly.
  - intros Hc Hs Hused. apply verify_email_no_record; auto.
    now apply select_unused_by_token_none.
  - intros Hc Hs t Hsel Hexp. now apply verify_email_expired with (t := t).
Qed.

(** ** Issuance of reset codes *)

Lemma reading_2 : forall w, clock (env w) (S (S (readings w))) = reading w 2.
Proof. intro w. unfold reading. f_equal. lia. Qed.

Lemma reading_3 : forall w, clock (env w) (S (S (S (readings w)))) = reading w 3.
Proof. intro w. unfold reading. f_equal. lia. Qed.

Lemma checkRateLimit_run :
  forall w email ty,
    checkRateLimit email ty w =
      (if store_refuses (env w) (statements w)
       then Err (fmt_Errorf "failed to check rate limit" driver_error)
       else if 3 <=? issued_after (db w) email ty (reading w 0 - Hour)
            then Err ErrRateLimitExceeded else Ok tt,
       mkWorld (db w) (handed w) (env w) (S (readings w)) (S (statements w))
               (draws w) (deliveries w)).
Proof.
  intros w email ty. unfold checkRateLimit. run_monad. simpl.
  rewrite reading_0. replace (reading w 0 + - Hour) with (reading w 0 - Hour) by lia.
  destruct (store_refuses (env w) (statements w)); [reflexivity|].
  unfold count_issued_since, issued_after.
  destruct (3 <=? _); reflexivity.
Qed.

Lemma request_reset_limited :
  forall w req,
    validateEmailAddress (reset_Email req) = Ok tt ->
    store_refuses (env w) (statements w) = false ->
    3 <= issued_after (db w) (reset_Email req) TokenTypePasswordReset
           (reading w 0 - Hour) ->
    RequestPasswordReset req w =
      (Err ErrRateLimitExceeded,
       mkWorld (db w) (handed w) (env w) (S (readings w)) (S (statements w))
               (draws w) (deliveries w)).
Proof.
  intros w req Hv Hs Hc. apply Z.leb_le in Hc.
  unfold RequestPasswordReset, bind at 1 2. unfold lift. rewrite Hv.
  rewrite checkRateLimit_run, Hs, Hc. reflexivity.
Qed.

Lemma request_reset_accepted :
  forall w req n,
    validateEmailAddress (reset_Email req) = Ok tt ->
    store_refuses (env w) (statements w) = false ->
    store_refuses (env w) (S (statements w)) = false ->
    rand_Int_draw (env w) (draws w) = Some n ->
    issued_after (db w) (reset_Email req) TokenTypePasswordReset
      (reading w 0 - Hour) < 3 ->
    let code := Sprintf_0d 6 n in
    RequestPasswordReset req w =
      (if notifier_fails (env w) (deliveries w) then Err delivery_error else Ok tt,
       mkWorld
         (snd (insert_token_for_email (string_of_bytes (hashToken code))
                 (reset_Email req) TokenTypePasswordReset
                 (reading w 1 + 15 * Minute) (reading w 2)
                 (reset_RequestIP req) (reset_UserAgent req) (db w)))
         (handed w ++ [reset_mail w req code])
         (env w) (S (S (S (S (readings w))))) (S (S (statements w)))
         (S (draws w)) (S (deliveries w))).
Proof.
  intros w req n Hv Hs Hs1 Hr Hc code. apply Z.ltb_lt in Hc.
  rewrite Z.ltb_antisym in Hc. apply negb_true_iff in Hc.
  unfold RequestPasswordReset, bind at 1 2. unfold lift. rewrite Hv.
  rewrite checkRateLimit_run, Hs, Hc.
  unfold generateNumericCode. simpl. run_monad. simpl. rewrite Hr. simpl.
  rewrite Hs1. simpl. rewrite reading_1, reading_2, reading_3. fold code.
  unfold SendPasswordResetCode, deliver, reset_mail. simpl.
  destruct (notifier_fails (env w) (deliveries w)); reflexivity.
Qed.

(** ** Rate limiting *)

Lemma clock_monotone :
  forall e, (forall i, clock e i <= clock e (S i)) ->
    forall i j, (i <= j)%nat -> clock e i <= clock e j.
Proof.
  intros e Hm i j Hij. induction Hij as [|j _ IH]; [lia|].
  specialize (Hm j). lia.
Qed.

Lemma count_app :
  forall (f : EmailToken -> bool) l1 l2,
    Z.of_nat (List.length (filter f (l1 ++ l2))) =
    Z.of_nat (List.length (filter f l1)) + Z.of_nat (List.length (filter f l2)).
Proof. intros f l1 l2. rewrite filter_app, length_app. lia. Qed.

Lemma count_none :
  forall (f : EmailToken -> bool) l,
    (forall t, In t l -> f t = false) -> Z.of_nat (List.length (filter f l)) = 0.
Proof.
  intros f l H. induction l as [|t l IH]; simpl; [reflexivity|].
  rewrite (H t (or_introl eq_refl)). apply IH. intros t' Hin. apply H. now right.
Qed.

Lemma issued_since_reset_record :
  forall w req u code since,
    issued_since (reset_Email req) TokenTypePasswordReset since
      (reset_record w req u code) = (since <? reading w 2).
Proof.
  intros. unfold issued_since, reset_record. simpl. now rewrite String.eqb_refl.
Qed.

Lemma issued_since_old :
  forall email ty since t,
    (Email t = email -> Type_ t = ty -> CreatedAt t <= since) ->
    issued_since email ty since t = false.
Proof.
  intros email ty since t H. unfold issued_since.
  destruct (String.eqb (Email t) email) eqn:He; [|reflexivity].
  destruct (TokenType_eqb (Type_ t) ty) eqn:Hty; [|reflexivity].
  apply String.eqb_eq in He. apply TokenType_eqb_eq in Hty.
  simpl. apply Z.ltb_ge. auto.
Qed.

Section Issuing.

Variable req : PasswordResetRequest.
Variable u : User.

Hypothesis valid : validateEmailAddress (reset_Email req) = Ok tt.

Lemma request_step_accepted :
  forall w, serves req u w ->
    issued_after (db w) (reset_Email req) TokenTypePasswordReset
      (reading w 0 - Hour) < 3 ->
    let w' := after (RequestPasswordReset req) w in
    exists code,
      outcome (RequestPasswordReset req) w =
        (if notifier_fails (env w) (deliveries w) then Err delivery_error else Ok tt) /\
      email_tokens (db w') = email_tokens (db w) ++ [reset_record w req u code] /\
      env w' = env w /\
      readings w' = (readings w + 4)%nat /\
      serves req u w'.
Proof.
  intros w (Hst & Hr & Hm & Hu) Hc w'.
  destruct (rand_Int_draw (env w) (draws w)) as [n|] eqn:Hn;
    [|elim (Hr _ Hn)].
  exists (Sprintf_0d 6 n).
  pose proof (request_reset_accepted w req n valid (Hst _) (Hst _) Hn Hc) as Hrun.
  unfold w', outcome, after. rewrite Hrun. simpl. rewrite Hu. simpl.
  split; [reflexivity|]. split; [reflexivity|]. split; [reflexivity|].
  split; [lia|]. unfold serves. simpl. auto.
Qed.

Lemma request_step_limited :
  forall w, serves req u w ->
    3 <= issued_after (db w) (reset_Email req) TokenTypePasswordReset
           (reading w 0 - Hour) ->
    let w' := after (RequestPasswordReset req) w in
    outcome (RequestPasswordReset req) w = Err ErrRateLimitExceeded /\
    db w' = db w /\ handed w' = handed w /\ env w' = env w.
Proof.
  intros w (Hst & Hr & Hm & Hu) Hc w'.
  pose proof (request_reset_limited w req valid (Hst _) Hc) as Hrun.
  unfold w', outcome, after. rewrite Hrun. simpl. auto.
Qed.

End Issuing.

Example three_codes_issued :
  after (RequestPasswordReset Sample.reset_request) Sample.two_codes
    = Sample.three_codes.
Proof. vm_compute. reflexivity. Qed.

Example limited_reached :
  after (RequestPasswordReset Sample.reset_request) Sample.three_codes
    = Sample.limited.
Proof. vm_compute. reflexivity. Qed.

Example stranger_thrice_reached :
  after (RequestPasswordReset Sample.stranger_request)
    (after (RequestPasswordReset Sample.stranger_request)
       (after (RequestPasswordReset Sample.stranger_request) Sample.start))
    = Sample.stranger_thrice.
Proof. vm_compute. reflexivity. Qed.

Example link_sent_issued :
  after (RequestEmailVerification Sample.verification_request) Sample.start
    = Sample.link_sent.
Proof. vm_compute. reflexivity. Qed.

(** ** Issuance for an address without an account *)

(** every record a reset request stores belongs to a user with the requested
    address; without such a user the table stays as it is *)
Lemma insert_token_for_email_resolves :
  forall token email ty expires created ip ua d,
    exists added,
      email_tokens (snd (insert_token_for_email token email ty expires created ip ua d))
        = email_tokens d ++ added /\
      Forall (fun t => exists x, In x (users d) /\ user_email x = email /\
                                 UserID t = user_id x) added /\
      ((forall x, In x (users d) -> user_email x <> email) -> added = []).
Proof.
  intros. simpl. eexists. split; [reflexivity|]. split.
  - generalize (email_tokens_id_seq d).
    assert (H : forall x, In x (filter (fun u => String.eqb (user_email u) email) (users d)) ->
              In x (users d) /\ user_email x = email).
    { intros x Hx. apply filter_In in Hx. rewrite String.eqb_eq in Hx. exact Hx. }
    induction (filter (fun u => String.eqb (user_email u) email) (users d))
      as [|x l IH]; intro next; simpl; constructor.
    + exists x. destruct (H x (or_introl eq_refl)). auto.
    + apply IH. intros y Hy. apply H. now right.
  - intro Hno.
    assert (E : filter (fun u => String.eqb (user_email u) email) (users d) = []).
    { induction (users d) as [|x l IH]; simpl; [reflexivity|].
      destruct (String.eqb (user_email x) email) eqn:Hx.
      - apply String.eqb_eq in Hx. elim (Hno x (or_introl eq_refl) Hx).
      - apply IH. intros y Hy. apply Hno. now right. }
    rewrite E. reflexivity.
Qed.

Lemma request_reset_without_account :
  forall req w,
    (forall x, In x (users (db w)) -> user_email x <> reset_Email req) ->
    email_tokens (db (after (RequestPasswordReset req) w)) = email_tokens (db w).
Proof.
  intros req w Hno.
  set (P := fun d d' : DB =>
              users d' = users d /\
              ((forall x, In x (users d) -> user_email x <> reset_Email req) ->
               email_tokens d' = email_tokens d)).
  assert (R : forall d, P d d) by (intro d; split; auto).
  assert (T : forall d1 d2 d3, P d1 d2 -> P d2 d3 -> P d1 d3).
  { intros d1 d2 d3 [U1 H1] [U2 H2]. split; [congruence|].
    intro H. rewrite H2, H1; auto. rewrite U1. exact H. }
  assert (K : keeps P (RequestPasswordReset req)).
  { unfold RequestPasswordReset. keeps_steps.
    split; [reflexivity|]. intro H.
    match goal with
    | |- email_tokens (snd (insert_token_for_email ?a ?b ?c ?e ?f ?g ?h ?d)) = _ =>
        destruct (insert_token_for_email_resolves a b c e f g h d)
          as (added & E & _ & Hnil)
    end.
    rewrite E, (Hnil H). apply app_nil_r. }
  destruct (K w) as [_ H]. auto.
Qed.

(** C2, at the failing input. A reset request for a valid address that
    no user has: the INSERT ... SELECT stores nothing and reports no error,
    and the code is handed to the notifier with its security context all the
    same, with no record persisted. *)
Theorem reset_code_handed_without_record :
  validateEmailAddress Sample.stranger = Ok tt /\
  (forall x, In x (users (db Sample.start)) -> user_email x <> Sample.stranger) /\
  outcome (RequestPasswordReset Sample.stranger_request) Sample.start = Ok tt /\
  email_tokens (db (after (RequestPasswordReset Sample.stranger_request) Sample.start))
    = [] /\
  handed (after (RequestPasswordReset Sample.stranger_request) Sample.start)
    = [Sample.stranger_mail].
Proof.
  split; [vm_compute; reflexivity|].
  split; [intros x [<-|[]]; vm_compute; discriminate|].
  split; [vm_compute; reflexivity|].
  split; vm_compute; reflexivity.
Qed.

(** C5, as stated, fails for an address that no user has: no record is
    stored, so the limiter counts nothing and the fourth request within the
    hour is accepted like the first three. *)
Lemma fourth_request_without_account_not_limited :
  validateEmailAddress Sample.stranger = Ok tt /\
  after (RequestPasswordReset Sample.stranger_request)
    (after (RequestPasswordReset Sample.stranger_request)
       (after (RequestPasswordReset Sample.stranger_request) Sample.start))
    = Sample.stranger_thrice /\
  reading Sample.stranger_thrice 0 - Hour < reading Sample.start 0 /\
  outcome (RequestPasswordReset Sample.stranger_request) Sample.stranger_thrice
    = Ok tt /\
  outcome (RequestPasswordReset Sample.stranger_request) Sample.stranger_thrice
    <> Err ErrRateLimitExceeded /\
  email_tokens (db (after (RequestPasswordReset Sample.stranger_request)
                          Sample.stranger_thrice)) = [] /\
  List.length (handed (after (RequestPasswordReset Sample.stranger_request)
                             Sample.stranger_thrice)) = 4%nat.
Proof.
  split; [vm_compute; reflexivity|].
  split; [vm_compute; reflexivity|].
  split; [vm_compute; reflexivity|].
  split; [vm_compute; reflexivity|].
  split; [vm_compute; discriminate|].
  split; vm_compute; reflexivity.
Qed.


Lemma cleanup_deletes_expired_or_stale_used_witness :
  ExpiresAt Sample.first_row < reading Sample.first_expired 0 /\
  reading Sample.first_expired 0 <= ExpiresAt Sample.second_row /\
  outcome CleanupExpiredTokens Sample.first_expired = Ok tt /\
  ~ In Sample.first_row
       (email_tokens (db (after CleanupExpiredTokens Sample.first_expired))) /\
  In Sample.second_row
     (email_tokens (db (after CleanupExpiredTokens Sample.first_expired))).
Proof.
  assert (Hs : store_accepts Sample.first_expired 1) by (intros i _; reflexivity).
  assert (H1 : ExpiresAt Sample.first_row < reading Sample.first_expired 0)
    by (vm_compute; reflexivity).
  assert (H2 : reading Sample.first_expired 0 <= ExpiresAt Sample.second_row)
    by (vm_compute; discriminate).
  destruct (cleanup_deletes_expired_or_stale_used Sample.first_expired Hs)
    as (Ho & Hdel & _ & Hkeep & _ & _).
  split; [exact H1|]. split; [exact H2|]. split; [exact Ho|]. split.
  - apply Hdel; [left; reflexivity|]. left. exact H1.
  - apply Hkeep; [right; left; reflexivity|reflexivity|exact H2].
Defined.

Lemma verify_email_marks_verified_once_witness :
  outcome (VerifyEmailToken Sample.link_token) Sample.link_sent = Ok Sample.link_row /\
  users (db (after (VerifyEmailToken Sample.link_token) Sample.link_sent)) =
    [mkUser 7 Sample.address (Some (3 * Minute))] /\
  outcome (VerifyEmailToken Sample.link_token)
          (after (VerifyEmailToken Sample.link_token) Sample.link_sent)
    = Err ErrInvalidToken /\
  users (db (after (VerifyEmailToken Sample.link_token)
                   (after (VerifyEmailToken Sample.link_token) Sample.link_sent))) =
    [mkUser 7 Sample.address (Some (3 * Minute))].
Proof.
  assert (Hc : Sample.link_token <> "") by discriminate.
  assert (Hs : store_accepts Sample.link_sent 3) by (intros i _; reflexivity).
  assert (Hsel : select_unused_by_token (string_of_bytes (hashToken Sample.link_token))
                   TokenTypeEmailVerification (db Sample.link_sent)
                 = Some Sample.link_row) by (vm_compute; reflexivity).
  assert (Hexp : reading Sample.link_sent 0 <= ExpiresAt Sample.link_row)
    by (vm_compute; discriminate).
  destruct (verify_email_marks_verified_once Sample.link_sent Sample.link_token)
    as (_ & _ & _ & Hsuccess & _ & _).
  destruct (Hsuccess Hc Hs Sample.link_row Hsel Hexp) as (Ho & _ & Hu & Hreplay).
  assert (Honly : forall r, In r (email_tokens (db Sample.link_sent)) ->
            Token r = string_of_bytes (hashToken Sample.link_token) ->
            Type_ r = TokenTypeEmailVerification -> Used r = false ->
            ID r = ID Sample.link_row).
  { intros r [<-|[]] _ _ _. reflexivity. }
  assert (Hs2 : store_accepts
                  (after (VerifyEmailToken Sample.link_token) Sample.link_sent) 1)
    by (intros i _; reflexivity).
  destruct (Hreplay Honly (after (VerifyEmailToken Sample.link_token) Sample.link_sent)
              eq_refl Hs2) as [Ho2 Hd2].
  split; [exact Ho|]. split; [rewrite Hu; vm_compute; reflexivity|].
  split; [exact Ho2|].
  rewrite Hd2, Hu. vm_compute. reflexivity.
Defined.

(** * Further properties of the package *)

(** ** What a successful verification means *)

Lemma verify_reset_ok_inversion :
  forall w email code t,
    outcome (VerifyPasswordResetCode email code) w = Ok t ->
    validateEmailAddress email = Ok tt /\ code <> "" /\
    store_refuses (env w) (statements w) = false /\
    store_refuses (env w) (S (statements w)) = false /\
    select_latest_unused email TokenTypePasswordReset (db w) = Some t /\
    reading w 0 <= ExpiresAt t /\
    hashToken code = bytes_of_string (Token t).
Proof.
  intros w email code t. unfold VerifyPasswordResetCode. run_monad.
  destruct (validateEmailAddress email) as [[]|e] eqn:Hv; [|discriminate].
  destruct (String.eqb code "") eqn:Hc; [discriminate|].
  apply String.eqb_neq in Hc.
  destruct (store_refuses (env w) (statements w)) eqn:Hs; [discriminate|].
  destruct (select_latest_unused email TokenTypePasswordReset (db w)) as [r|] eqn:Hsel;
    [|discriminate].
  simpl. rewrite reading_0.
  destruct (ExpiresAt r <? reading w 0) eqn:Hexp; [discriminate|].
  apply Z.ltb_ge in Hexp.
  destruct (subtle.ConstantTimeCompare (hashToken code) (bytes_of_string (Token r)) =? 1)
    eqn:Hcmp; simpl; [|discriminate].
  destruct (store_refuses (env w) (S (statements w))) eqn:Hs1; simpl; [discriminate|].
  intro H. injection H as <-.
  apply Z.eqb_eq in Hcmp.
  apply ConstantTimeCompare_eq in Hcmp;
    auto using hashToken_bytes, bytes_of_string_are_bytes.
  repeat split; auto.
Qed.

(** X1. [VerifyPasswordResetCode] succeeds only on a correct code: the record
    it returns is a stored, unused password-reset record of the address, a
    most recently created one, not past its expiry at the reading of the
    call, and its stored hash is the SHA-256 of the code supplied; after the
    call that record is in the table marked used. *)
Theorem verify_reset_success_is_sound :
  forall w email code t,
    outcome (VerifyPasswordResetCode email code) w = Ok t ->
    validateEmailAddress email = Ok tt /\ code <> "" /\
    latest_unused_record (db w) email TokenTypePasswordReset t /\
    reading w 0 <= ExpiresAt t /\
    bytes_of_string (Token t) = hashToken code /\
    In (mark_used t) (email_tokens (db (after (VerifyPasswordResetCode email code) w))).
Proof.
  intros w email code t Hok.
  destruct (verify_reset_ok_inversion w email code t Hok)
    as (Hv & Hc & Hs & Hs1 & Hsel & Hexp & Hh).
  assert (Hacc : store_accepts w 2).
  { intros i Hi. destruct i as [|[|i]]; [rewrite Nat.add_0_r| rewrite Nat.add_1_r|lia]; auto. }
  destruct (verify_reset_match w email code t Hv Hc Hacc Hsel Hexp Hh) as [_ Hd].
  pose proof (select_latest_unused_some _ _ _ _ Hsel) as Hl.
  split; [exact Hv|]. split; [exact Hc|]. split; [exact Hl|]. split; [exact Hexp|].
  split; [symmetry; exact Hh|].
  rewrite Hd. simpl. apply in_map_iff. exists t. rewrite Z.eqb_refl.
  split; [reflexivity|apply Hl].
Qed.

Lemma verify_email_ok_inversion :
  forall w token t,
    outcome (VerifyEmailToken token) w = Ok t ->
    token <> "" /\
    store_refuses (env w) (statements w) = false /\
    store_refuses (env w) (S (statements w)) = false /\
    store_refuses (env w) (S (S (statements w))) = false /\
    select_unused_by_token (string_of_bytes (hashToken token))
      TokenTypeEmailVerification (db w) = Some t /\
    reading w 0 <= ExpiresAt t.
Proof.
  intros w token t. unfold VerifyEmailToken. run_monad.
  destruct (String.eqb token "") eqn:Hc; [discriminate|].
  apply String.eqb_neq in Hc.
  destruct (store_refuses (env w) (statements w)) eqn:Hs; [discriminate|].
  destruct (select_unused_by_token _ _ (db w)) as [r|] eqn:Hsel; [|discriminate].
  simpl. rewrite reading_0.
  destruct (ExpiresAt r <? reading w 0) eqn:Hexp; [discriminate|].
  apply Z.ltb_ge in Hexp. simpl.
  destruct (store_refuses (env w) (S (statements w))) eqn:Hs1; simpl; [discriminate|].
  destruct (store_refuses (env w) (S (S (statements w)))) eqn:Hs2; simpl; [discriminate|].
  intro H. injection H as <-. repeat split; auto.
Qed.

(** X2. [VerifyEmailToken] succeeds only on the token of a stored record: the
    record it returns is a stored, unused email-verification record whose
    stored hash is the SHA-256 of the token supplied, not past its expiry at
    the reading of the call; after the call no user row with the id of the
    record is left unverified. *)
Theorem verify_email_success_is_sound :
  forall w token t,
    outcome (VerifyEmailToken token) w = Ok t ->
    token <> "" /\
    In t (email_tokens (db w)) /\
    Type_ t = TokenTypeEmailVerification /\ Used t = false /\
    bytes_of_string (Token t) = hashToken token /\
    reading w 0 <= ExpiresAt t /\
    In (mark_used t) (email_tokens (db (after (VerifyEmailToken token) w))) /\
    (forall u, In u (users (db (after (VerifyEmailToken token) w))) ->
       user_id u = UserID t -> email_verified_at u <> None).
Proof.
  intros w token t Hok.
  destruct (verify_email_ok_inversion w token t Hok)
    as (Hc & Hs & Hs1 & Hs2 & Hsel & Hexp).
  assert (Hacc : store_accepts w 3).
  { intros i Hi. destruct i as [|[|[|i]]]; [rewrite Nat.add_0_r|rewrite Nat.add_1_r| |lia]; auto.
    replace (statements w + 2)%nat with (S (S (statements w))) by lia. exact Hs2. }
  destruct (verify_email_success w token t Hc Hacc Hsel Hexp) as [_ Hd].
  destruct (select_unused_by_token_some _ _ _ _ Hsel) as (Hin & Ht & Hty & Hu).
  split; [exact Hc|]. split; [exact Hin|]. split; [exact Hty|]. split; [exact Hu|].
  split; [rewrite Ht; apply bytes_string_bytes, hashToken_bytes|].
  split; [exact Hexp|]. rewrite Hd. split.
  - simpl. apply in_map_iff. exists t. rewrite Z.eqb_refl. auto.
  - intros u Hin' Hid. simpl in Hin'. apply in_map_iff in Hin'.
    destruct Hin' as (u0 & E & _).
    destruct (user_id u0 =? UserID t) eqn:Hu0; simpl in E.
    + destruct (email_verified_at u0) eqn:Hv0; subst u; simpl; congruence.
    + subst u. apply Z.eqb_neq in Hu0. contradiction.
Qed.

(** ** From issuance to verification *)

Lemma latest_newest :
  forall l t best,
    (forall x, In x l -> CreatedAt x < CreatedAt t) ->
    (forall b, best = Some b -> CreatedAt b < CreatedAt t) ->
    latest best (l ++ [t]) = Some t.
Proof.
  induction l as [|r l IH]; intros t best Hl Hb; simpl.
  - destruct best as [b|]; [|reflexivity].
    specialize (Hb b eq_refl). apply Z.ltb_lt in Hb. now rewrite Hb.
  - destruct best as [b|].
    + destruct (CreatedAt b <? CreatedAt r).
      * apply IH; [intros x Hx; apply Hl; now right|].
        intros b' E. injection E as <-. apply Hl. now left.
      * apply IH; [intros x Hx; apply Hl; now right|exact Hb].
    + apply IH; [intros x Hx; apply Hl; now right|].
      intros b' E. injection E as <-. apply Hl. now left.
Qed.

Lemma select_latest_unused_newest :
  forall email ty rows users seq t,
    unused_for email ty t = true ->
    (forall x, In x rows -> Email x = email -> Type_ x = ty -> Used x = false ->
       CreatedAt x < CreatedAt t) ->
    select_latest_unused email ty (mkDB (rows ++ [t]) users seq) = Some t.
Proof.
  intros email ty rows users seq t Ht Hold. unfold select_latest_unused. simpl.
  rewrite filter_app. simpl. rewrite Ht. apply latest_newest; [|discriminate].
  intros x Hx. apply filter_In in Hx. destruct Hx as [Hin Hu].
  apply unused_for_spec in Hu. destruct Hu as (He & Hty & Hused). auto.
Qed.

Lemma insert_for_one_user :
  forall token email ty expires created ip ua d u,
    filter (fun x => String.eqb (user_email x) email) (users d) = [u] ->
    snd (insert_token_for_email token email ty expires created ip ua d) =
    mkDB (email_tokens d ++
          [mkEmailToken (email_tokens_id_seq d) token (user_id u) email ty expires
                        false created ip ua])
         (users d) (email_tokens_id_seq d + 1).
Proof.
  intros token email ty expires created ip ua d u Hu.
  unfold insert_token_for_email, insert_rows. rewrite Hu. reflexivity.
Qed.

(** X3. The code handed to the notifier is the code that verifies: after a
    reset request for the address of a user, accepted by the limiter and the
    store, a call of [VerifyPasswordResetCode] with the code of the message,
    made before the expiry on the table as the request left it, returns the
    record stored by the request, which carries the id of that user. *)
Theorem reset_code_handed_verifies :
  forall w req u n,
    validateEmailAddress (reset_Email req) = Ok tt ->
    store_accepts w 2 ->
    rand_Int_draw (env w) (draws w) = Some n -> 0 <= n < 10 ^ 6 ->
    issued_after (db w) (reset_Email req) TokenTypePasswordReset
      (reading w 0 - Hour) < 3 ->
    filter (fun x => String.eqb (user_email x) (reset_Email req)) (users (db w)) = [u] ->
    (forall t, In t (email_tokens (db w)) ->
       Email t = reset_Email req -> Type_ t = TokenTypePasswordReset ->
       Used t = false -> CreatedAt t < reading w 2) ->
    let code := Sprintf_0d 6 n in
    let w1 := after (RequestPasswordReset req) w in
    In (reset_mail w req code) (handed w1) /\
    UserID (reset_record w req u code) = user_id u /\
    forall w2,
      db w2 = db w1 -> store_accepts w2 2 ->
      reading w2 0 <= reading w 1 + 15 * Minute ->
      outcome (VerifyPasswordResetCode (reset_Email req) code) w2
        = Ok (reset_record w req u code).
Proof.
  intros w req u n Hv Hs Hn Hrange Hc Hu Hold code w1.
  pose proof (request_reset_accepted w req n Hv (store_accepts_0 _ _ Hs)
                (store_accepts_1 _ _ Hs) Hn Hc) as Hrun.
  fold code in Hrun.
  assert (Hh : handed w1 = handed w ++ [reset_mail w req code])
    by (unfold w1, after; rewrite Hrun; reflexivity).
  assert (Hd : db w1 = mkDB (email_tokens (db w) ++ [reset_record w req u code])
                            (users (db w)) (email_tokens_id_seq (db w) + 1)).
  { unfold w1, after. rewrite Hrun. cbn [snd db].
    apply insert_for_one_user. exact Hu. }
  split; [rewrite Hh; apply in_or_app; right; left; reflexivity|].
  split; [reflexivity|].
  intros w2 Hdb Hs2 Hexp.
  assert (Hcode : code <> "").
  { intro E. destruct (Sprintf_0d_digits 6 n ltac:(lia) Hrange) as [Hlen _].
    fold code in Hlen. rewrite E in Hlen. simpl in Hlen. lia. }
  assert (Hsel : select_latest_unused (reset_Email req) TokenTypePasswordReset (db w2)
                 = Some (reset_record w req u code)).
  { rewrite Hdb, Hd. apply select_latest_unused_newest.
    - unfold unused_for, reset_record. cbn [Email Type_ Used].
      now rewrite String.eqb_refl.
    - intros x Hx He Hty Hused. unfold reset_record. cbn [CreatedAt].
      now apply Hold. }
  destruct (verify_reset_match w2 (reset_Email req) code (reset_record w req u code)
              Hv Hcode Hs2 Hsel) as [Ho _].
  - exact Hexp.
  - unfold reset_record. cbn [Token]. symmetry.
    apply bytes_string_bytes, hashToken_bytes.
  - exact Ho.
Qed.

Lemma EncodeToString_nonempty :
  forall a l, EncodeToString (a :: l) <> "".
Proof. intros a [|b [|c l]]; discriminate. Qed.

Lemma token_of_entropy_nonempty : forall bs, token_of_entropy bs <> "".
Proof.
  intro bs. unfold token_of_entropy.
  destruct (firstn 32 (map (fun b => b mod 256) bs ++ repeat 0 32)) as [|a l] eqn:E.
  - apply (f_equal (@List.length Z)) in E.
    rewrite length_firstn, length_app, repeat_length in E.
    cbn [List.length] in E. lia.
  - apply EncodeToString_nonempty.
Qed.

Lemma request_verification_accepted :
  forall w req bs,
    validateEmailAddress (verif_Email req) = Ok tt ->
    0 < verif_UserID req ->
    rand_Read_draw (env w) (draws w) = Some bs ->
    store_refuses (env w) (statements w) = false ->
    let token := token_of_entropy bs in
    RequestEmailVerification req w =
      (if notifier_fails (env w) (deliveries w) then Err delivery_error else Ok tt,
       mkWorld
         (mkDB (email_tokens (db w) ++ [verification_record w req token])
               (users (db w)) (email_tokens_id_seq (db w) + 1))
         (handed w ++ [verification_mail w req token])
         (env w) (S (S (readings w))) (S (statements w))
         (S (draws w)) (S (deliveries w))).
Proof.
  intros w req bs Hv Hid Hr Hs token.
  assert (Hid' : (verif_UserID req <=? 0) = false) by (apply Z.leb_gt; exact Hid).
  unfold RequestEmailVerification, bind at 1. unfold lift. rewrite Hv, Hid'.
  unfold generateSecureToken. run_monad. rewrite Hr. simpl. rewrite Hs. simpl.
  unfold GetVerificationURL, SendEmailVerification, deliver. simpl.
  rewrite reading_0, reading_1.
  destruct (notifier_fails (env w) (deliveries w)); reflexivity.
Qed.

Lemma select_unused_by_token_new :
  forall token ty rows users seq t,
    unused_with token ty t = true ->
    (forall x, In x rows -> Token x = token -> Type_ x = ty -> Used x = true) ->
    select_unused_by_token token ty (mkDB (rows ++ [t]) users seq) = Some t.
Proof.
  intros token ty rows users seq t Ht Hold. unfold select_unused_by_token. simpl.
  induction rows as [|r rows IH]; simpl.
  - now rewrite Ht.
  - destruct (unused_with token ty r) eqn:Hr.
    + apply unused_with_spec in Hr. destruct Hr as (A & B & C).
      rewrite (Hold r (or_introl eq_refl) A B) in C. discriminate.
    + apply IH. intros x Hx. apply Hold. now right.
Qed.

(** X4. The link handed to the notifier carries the token that verifies:
    after a request for verification accepted by the store, a call of
    [VerifyEmailToken] with the token of the link, made within 48 hours on
    the table as the request left it, returns the record stored by the
    request and leaves the user of the request verified, at the instant of
    the call if the user was not verified before. *)
Theorem verification_link_handed_verifies :
  forall w req bs,
    validateEmailAddress (verif_Email req) = Ok tt ->
    0 < verif_UserID req ->
    rand_Read_draw (env w) (draws w) = Some bs ->
    store_accepts w 1 ->
    let token := token_of_entropy bs in
    (forall t, In t (email_tokens (db w)) ->
       Token t = string_of_bytes (hashToken token) ->
       Type_ t = TokenTypeEmailVerification -> Used t = true) ->
    let w1 := after (RequestEmailVerification req) w in
    In (verification_mail w req token) (handed w1) /\
    forall w2,
      db w2 = db w1 -> store_accepts w2 3 ->
      reading w2 0 <= reading w 0 + 48 * Hour ->
      outcome (VerifyEmailToken token) w2 = Ok (verification_record w req token) /\
      forall u, In u (users (db w)) -> user_id u = verif_UserID req ->
        In (mkUser (user_id u) (user_email u)
              (match email_verified_at u with
               | Some ts => Some ts
               | None => Some (reading w2 1)
               end))
           (users (db (after (VerifyEmailToken token) w2))).
Proof.
  intros w req bs Hv Hid Hr Hs token Hfresh w1.
  pose proof (request_verification_accepted w req bs Hv Hid Hr (store_accepts_0 _ _ Hs))
    as Hrun. fold token in Hrun.
  assert (Hh : handed w1 = handed w ++ [verification_mail w req token])
    by (unfold w1, after; rewrite Hrun; reflexivity).
  assert (Hd : db w1 = mkDB (email_tokens (db w) ++ [verification_record w req token])
                            (users (db w)) (email_tokens_id_seq (db w) + 1))
    by (unfold w1, after; rewrite Hrun; reflexivity).
  split; [rewrite Hh; apply in_or_app; right; left; reflexivity|].
  intros w2 Hdb Hs2 Hexp.
  assert (Hsel : select_unused_by_token (string_of_bytes (hashToken token))
                   TokenTypeEmailVerification (db w2)
                 = Some (verification_record w req token)).
  { rewrite Hdb, Hd. apply select_unused_by_token_new.
    - unfold unused_with, verification_record. cbn [Token Type_ Used].
      now rewrite String.eqb_refl.
    - exact Hfresh. }
  destruct (verify_email_success w2 token (verification_record w req token)
              (token_of_entropy_nonempty bs) Hs2 Hsel) as [Ho Hd2].
  - exact Hexp.
  - split; [exact Ho|]. intros u Hin Huid. rewrite Hd2.
    cbn [update_verified update_used snd users with_tokens UserID verification_record].
    apply in_map_iff. exists u. rewrite Hdb, Hd. simpl. split; [|exact Hin].
    apply Z.eqb_eq in Huid. rewrite Huid.
    destruct u as [i e [ts|]]; reflexivity.
Qed.
(** ** Every run of the two requests *)

Lemma RequestPasswordReset_run :
  forall req w,
    RequestPasswordReset req w =
    match validateEmailAddress (reset_Email req) with
    | Err e => (Err e, w)
    | Ok _ =>
        let checked :=
          mkWorld (db w) (handed w) (env w) (S (readings w)) (S (statements w))
                  (draws w) (deliveries w) in
        if store_refuses (env w) (statements w)
        then (Err (fmt_Errorf "failed to check rate limit" driver_error), checked)
        else if 3 <=? issued_after (db w) (reset_Email req) TokenTypePasswordReset
                        (reading w 0 - Hour)
        then (Err ErrRateLimitExceeded, checked)
        else
          match rand_Int_draw (env w) (draws w) with
          | None =>
              (Err (fmt_Errorf "failed to generate reset code"
                      (fmt_Errorf "failed to generate numeric code" entropy_error)),
               mkWorld (db w) (handed w) (env w) (S (readings w)) (S (statements w))
                       (S (draws w)) (deliveries w))
          | Some n =>
              let code := Sprintf_0d 6 n in
              if store_refuses (env w) (S (statements w))
              then (Err (fmt_Errorf "failed to store password reset token" driver_error),
                    mkWorld (db w) (handed w) (env w) (S (S (S (readings w))))
                            (S (S (statements w))) (S (draws w)) (deliveries w))
              else
                (if notifier_fails (env w) (deliveries w)
                 then Err delivery_error else Ok tt,
                 mkWorld
                   (snd (insert_token_for_email (string_of_bytes (hashToken code))
                           (reset_Email req) TokenTypePasswordReset
                           (reading w 1 + 15 * Minute) (reading w 2)
                           (reset_RequestIP req) (reset_UserAgent req) (db w)))
                   (handed w ++ [reset_mail w req code])
                   (env w) (S (S (S (S (readings w))))) (S (S (statements w)))
                   (S (draws w)) (S (deliveries w)))
          end
    end.
Proof.
  intros req w.
  destruct (validateEmailAddress (reset_Email req)) as [[]|e] eqn:Hv.
  - destruct (store_refuses (env w) (statements w)) eqn:Hs.
    + unfold RequestPasswordReset, bind at 1 2. unfold lift.
      rewrite Hv, checkRateLimit_run, Hs. reflexivity.
    + destruct (3 <=? issued_after (db w) (reset_Email req) TokenTypePasswordReset
                        (reading w 0 - Hour)) eqn:Hc.
      * apply Z.leb_le in Hc. now apply request_reset_limited.
      * apply Z.leb_gt in Hc.
        destruct (rand_Int_draw (env w) (draws w)) as [n|] eqn:Hn.
        -- destruct (store_refuses (env w) (S (statements w))) eqn:Hs1.
           ++ apply Z.ltb_lt in Hc. rewrite Z.ltb_antisym in Hc.
              apply negb_true_iff in Hc.
              unfold RequestPasswordReset, bind at 1 2. unfold lift.
              rewrite Hv, checkRateLimit_run, Hs, Hc.
              unfold generateNumericCode. simpl. run_monad. simpl. rewrite Hn. simpl.
              rewrite Hs1. reflexivity.
           ++ now apply request_reset_accepted.
        -- apply Z.ltb_lt in Hc. rewrite Z.ltb_antisym in Hc.
           apply negb_true_iff in Hc.
           unfold RequestPasswordReset, bind at 1 2. unfold lift.
           rewrite Hv, checkRateLimit_run, Hs, Hc.
           unfold generateNumericCode. simpl. run_monad. simpl. rewrite Hn. reflexivity.
  - unfold RequestPasswordReset, bind at 1. unfold lift. rewrite Hv. reflexivity.
Qed.

Lemma string_of_bytes_length :
  forall bs, String.length (string_of_bytes bs) = List.length bs.
Proof. induction bs; simpl; congruence. Qed.

Lemma number_rows_forall :
  forall (A : Type) (P : EmailToken -> Prop) (f : A -> Z -> EmailToken) l next,
    (forall a id, In a l -> P (f a id)) ->
    Forall P (number_rows next (map f l)).
Proof.
  intros A P f l. induction l as [|a l IH]; intros next H; simpl; constructor.
  - apply H. now left.
  - apply IH. intros a' id Hin. apply H. now right.
Qed.

(** X5. Hash at rest. Whatever a run of [RequestPasswordReset] adds to the
    table, it appends: each new record stores the 32 bytes of the SHA-256
    of the code handed to the notifier in that run, is unused, belongs to
    the requested address and to a user with that address, and expires 15
    minutes after the reading taken for the expiry; the users are
    untouched. *)
Theorem reset_request_stores_hash_of_code_handed :
  forall req w,
    let w' := after (RequestPasswordReset req) w in
    users (db w') = users (db w) /\
    exists added,
      email_tokens (db w') = email_tokens (db w) ++ added /\
      Forall (fun t =>
                exists code u,
                  In (reset_mail w req code) (handed w') /\
                  bytes_of_string (Token t) = hashToken code /\
                  String.length (Token t) = 32%nat /\
                  In u (users (db w)) /\ user_email u = reset_Email req /\
                  UserID t = user_id u /\
                  Email t = reset_Email req /\ Type_ t = TokenTypePasswordReset /\
                  Used t = false /\
                  ExpiresAt t = reading w 1 + 15 * Minute /\
                  CreatedAt t = reading w 2)
             added.
Proof.
  intros req w w'. unfold w', after. rewrite RequestPasswordReset_run.
  destruct (validateEmailAddress (reset_Email req)) as [[]|e];
    [|split; [reflexivity|exists []; rewrite app_nil_r; auto]].
  cbv zeta.
  destruct (store_refuses (env w) (statements w));
    [split; [reflexivity|exists []; rewrite app_nil_r; auto]|].
  destruct (3 <=? _); [split; [reflexivity|exists []; rewrite app_nil_r; auto]|].
  destruct (rand_Int_draw (env w) (draws w)) as [n|];
    [|split; [reflexivity|exists []; rewrite app_nil_r; auto]].
  destruct (store_refuses (env w) (S (statements w)));
    [split; [reflexivity|exists []; rewrite app_nil_r; auto]|].
  split; [reflexivity|]. cbn [snd db handed]. eexists. split; [reflexivity|].
  apply number_rows_forall. intros u id Hin.
  apply filter_In in Hin. destruct Hin as [Hin He]. apply String.eqb_eq in He.
  exists (Sprintf_0d 6 n), u. cbn [Token UserID Email Type_ Used ExpiresAt CreatedAt].
  split; [apply in_or_app; right; left; reflexivity|].
  split; [apply bytes_string_bytes, hashToken_bytes|].
  split; [rewrite string_of_bytes_length; apply hashToken_length|].
  repeat split; auto.
Qed.

(** X6. The notifier and the store in [RequestPasswordReset]. A run either
    ends in an error that is not the notifier's, with the store and the
    notifier untouched; or it has executed the INSERT and handed exactly one
    message to the notifier, and then it returns what the notifier returned:
    a failed delivery does not undo the INSERT. *)
Theorem reset_request_notifies_after_insert_without_rollback :
  forall req w,
    let w' := after (RequestPasswordReset req) w in
    (db w' = db w /\ handed w' = handed w /\
     exists e, outcome (RequestPasswordReset req) w = Err e /\ e <> delivery_error) \/
    (exists n,
       rand_Int_draw (env w) (draws w) = Some n /\
       store_refuses (env w) (S (statements w)) = false /\
       db w' = snd (insert_token_for_email
                      (string_of_bytes (hashToken (Sprintf_0d 6 n)))
                      (reset_Email req) TokenTypePasswordReset
                      (reading w 1 + 15 * Minute) (reading w 2)
                      (reset_RequestIP req) (reset_UserAgent req) (db w)) /\
       handed w' = handed w ++ [reset_mail w req (Sprintf_0d 6 n)] /\
       outcome (RequestPasswordReset req) w =
         (if notifier_fails (env w) (deliveries w) then Err delivery_error else Ok tt)).
Proof.
  intros req w w'. unfold w', outcome, after. rewrite RequestPasswordReset_run.
  destruct (validateEmailAddress (reset_Email req)) as [[]|e] eqn:Hv.
  - cbv zeta.
    destruct (store_refuses (env w) (statements w));
      [left; repeat split; eexists; split; [reflexivity|discriminate]|].
    destruct (3 <=? _);
      [left; repeat split; eexists; split; [reflexivity|discriminate]|].
    destruct (rand_Int_draw (env w) (draws w)) as [n|];
      [|left; repeat split; eexists; split; [reflexivity|discriminate]].
    destruct (store_refuses (env w) (S (statements w))) eqn:Hs1;
      [left; repeat split; eexists; split; [reflexivity|discriminate]|].
    right. exists n. repeat split; reflexivity.
  - left. repeat split. exists e. split; [reflexivity|].
    unfold validateEmailAddress in Hv.
    destruct (sanitizeEmail (reset_Email req)) as [[]|e'] eqn:Hsan.
    + destruct (negb (isValidEmail (reset_Email req))); [|discriminate].
      injection Hv as <-. discriminate.
    + unfold sanitizeEmail in Hsan.
      destruct (_ || _) in Hsan; [|discriminate].
      injection Hsan as <-. injection Hv as <-. discriminate.
Qed.

Lemma RequestEmailVerification_run :
  forall req w,
    RequestEmailVerification req w =
    match validateEmailAddress (verif_Email req) with
    | Err e => (Err e, w)
    | Ok _ =>
        if verif_UserID req <=? 0 then (Err (errors_New "user ID is required"), w)
        else
          match rand_Read_draw (env w) (draws w) with
          | None =>
              (Err (fmt_Errorf "failed to generate verification token"
                      (fmt_Errorf "failed to generate secure token" entropy_error)),
               mkWorld (db w) (handed w) (env w) (readings w) (statements w)
                       (S (draws w)) (deliveries w))
          | Some bs =>
              let token := token_of_entropy bs in
              if store_refuses (env w) (statements w)
              then (Err (fmt_Errorf "failed to store verification token" driver_error),
                    mkWorld (db w) (handed w) (env w) (S (S (readings w)))
                            (S (statements w)) (S (draws w)) (deliveries w))
              else
                (if notifier_fails (env w) (deliveries w)
                 then Err delivery_error else Ok tt,
                 mkWorld
                   (mkDB (email_tokens (db w) ++ [verification_record w req token])
                         (users (db w)) (email_tokens_id_seq (db w) + 1))
                   (handed w ++ [verification_mail w req token])
                   (env w) (S (S (readings w))) (S (statements w))
                   (S (draws w)) (S (deliveries w)))
          end
    end.
Proof.
  intros req w.
  destruct (validateEmailAddress (verif_Email req)) as [[]|e] eqn:Hv.
  - destruct (verif_UserID req <=? 0) eqn:Hid.
    + unfold RequestEmailVerification, bind at 1. unfold lift. rewrite Hv, Hid.
      reflexivity.
    + destruct (rand_Read_draw (env w) (draws w)) as [bs|] eqn:Hr.
      * destruct (store_refuses (env w) (statements w)) eqn:Hs.
        -- unfold RequestEmailVerification, bind at 1. unfold lift. rewrite Hv, Hid.
           unfold generateSecureToken. run_monad. rewrite Hr. simpl. rewrite Hs.
           reflexivity.
        -- apply Z.leb_gt in Hid. now apply request_verification_accepted.
      * unfold RequestEmailVerification, bind at 1. unfold lift. rewrite Hv, Hid.
        unfold generateSecureToken. run_monad. rewrite Hr. reflexivity.
  - unfold RequestEmailVerification, bind at 1. unfold lift. rewrite Hv. reflexivity.
Qed.

(** X7. [RequestEmailVerification] is not rate limited and sends one
    statement. A run either fails before or at the INSERT, with the store
    and the notifier untouched; or, whatever the table holds for the
    address, it appends one unused record that stores the SHA-256 of a fresh
    token and expires 48 hours after the first reading, hands the link with
    that token to the notifier, and returns what the notifier returned.  It
    never fails [ErrRateLimitExceeded]. *)
Theorem verification_request_is_not_rate_limited :
  forall req w,
    let w' := after (RequestEmailVerification req) w in
    outcome (RequestEmailVerification req) w <> Err ErrRateLimitExceeded /\
    ((db w' = db w /\ handed w' = handed w /\
      exists e, outcome (RequestEmailVerification req) w = Err e) \/
     (exists bs,
        rand_Read_draw (env w) (draws w) = Some bs /\
        validateEmailAddress (verif_Email req) = Ok tt /\ 0 < verif_UserID req /\
        email_tokens (db w') =
          email_tokens (db w) ++ [verification_record w req (token_of_entropy bs)] /\
        users (db w') = users (db w) /\
        handed w' = handed w ++ [verification_mail w req (token_of_entropy bs)] /\
        statements w' = S (statements w) /\
        outcome (RequestEmailVerification req) w =
          (if notifier_fails (env w) (deliveries w) then Err delivery_error else Ok tt))).
Proof.
  intros req w w'. unfold w', outcome, after. rewrite RequestEmailVerification_run.
  destruct (validateEmailAddress (verif_Email req)) as [[]|e] eqn:Hv.
  - destruct (verif_UserID req <=? 0) eqn:Hid.
    + split; [discriminate|]. left. repeat split. eexists. reflexivity.
    + apply Z.leb_gt in Hid.
      destruct (rand_Read_draw (env w) (draws w)) as [bs|].
      * cbv zeta. destruct (store_refuses (env w) (statements w)).
        -- split; [discriminate|]. left. repeat split. eexists. reflexivity.
        -- split; [destruct (notifier_fails (env w) (deliveries w)); discriminate|].
           right. exists bs. repeat split; auto.
      * split; [discriminate|]. left. repeat split. eexists. reflexivity.
  - split.
    + simpl. intro H. injection H as ->.
      unfold validateEmailAddress in Hv.
      destruct (sanitizeEmail (verif_Email req)) as [[]|e'] eqn:Hsan.
      * destruct (negb (isValidEmail (verif_Email req))); discriminate.
      * unfold sanitizeEmail in Hsan. destruct (_ || _) in Hsan; [|discriminate].
        injection Hsan as <-. discriminate.
    + left. repeat split. eexists. reflexivity.
Qed.

(** ** Every run of the two verifications *)

Lemma VerifyPasswordResetCode_run :
  forall email code w,
    VerifyPasswordResetCode email code w =
    match validateEmailAddress email with
    | Err e => (Err e, w)
    | Ok _ =>
        if String.eqb code "" then (Err (errors_New "code cannot be empty"), w)
        else
          let queried :=
            mkWorld (db w) (handed w) (env w) (readings w) (S (statements w))
                    (draws w) (deliveries w) in
          if store_refuses (env w) (statements w)
          then (Err (fmt_Errorf "failed to lookup token" driver_error), queried)
          else
            match select_latest_unused email TokenTypePasswordReset (db w) with
            | None => (Err ErrInvalidToken, queried)
            | Some t =>
                let read :=
                  mkWorld (db w) (handed w) (env w) (S (readings w))
                          (S (statements w)) (draws w) (deliveries w) in
                if ExpiresAt t <? reading w 0 then (Err ErrTokenExpired, read)
                else if negb (subtle.ConstantTimeCompare (hashToken code)
                                (bytes_of_string (Token t)) =? 1)
                then (Err ErrInvalidToken, read)
                else if store_refuses (env w) (S (statements w))
                then (Err (fmt_Errorf "failed to mark token as used" driver_error),
                      mkWorld (db w) (handed w) (env w) (S (readings w))
                              (S (S (statements w))) (draws w) (deliveries w))
                else (Ok t,
                      mkWorld (snd (update_used (ID t) (db w))) (handed w) (env w)
                              (S (readings w)) (S (S (statements w))) (draws w)
                              (deliveries w))
            end
    end.
Proof.
  intros email code w. rewrite <- reading_0.
  unfold VerifyPasswordResetCode, bind at 1. unfold lift.
  destruct (validateEmailAddress email) as [[]|e]; [|reflexivity].
  destruct (String.eqb code ""); [reflexivity|].
  unfold bind, on_error, db_QueryRow, time_Now, db_Exec, fail, ret. cbn [db env statements readings handed draws deliveries].
  destruct (store_refuses (env w) (statements w)); [reflexivity|].
  destruct (select_latest_unused email TokenTypePasswordReset (db w)) as [t|];
    [|reflexivity].
  cbn [db env statements readings handed draws deliveries].
  destruct (ExpiresAt t <? clock (env w) (readings w)); [reflexivity|].
  destruct (negb _); [reflexivity|].
  cbn [db env statements readings handed draws deliveries].
  destruct (store_refuses (env w) (S (statements w))); reflexivity.
Qed.

Lemma VerifyEmailToken_run :
  forall token w,
    VerifyEmailToken token w =
    if String.eqb token "" then (Err (errors_New "token cannot be empty"), w)
    else
      let queried :=
        mkWorld (db w) (handed w) (env w) (readings w) (S (statements w))
                (draws w) (deliveries w) in
      if store_refuses (env w) (statements w)
      then (Err (fmt_Errorf "failed to lookup token" driver_error), queried)
      else
        match select_unused_by_token (string_of_bytes (hashToken token))
                TokenTypeEmailVerification (db w) with
        | None => (Err ErrInvalidToken, queried)
        | Some t =>
            if ExpiresAt t <? reading w 0
            then (Err ErrTokenExpired,
                  mkWorld (db w) (handed w) (env w) (S (readings w))
                          (S (statements w)) (draws w) (deliveries w))
            else if store_refuses (env w) (S (statements w))
            then (Err (fmt_Errorf "failed to mark token as used" driver_error),
                  mkWorld (db w) (handed w) (env w) (S (readings w))
                          (S (S (statements w))) (draws w) (deliveries w))
            else if store_refuses (env w) (S (S (statements w)))
            then (Err (fmt_Errorf "failed to mark email as verified" driver_error),
                  mkWorld (snd (update_used (ID t) (db w))) (handed w) (env w)
                          (S (S (readings w))) (S (S (S (statements w)))) (draws w)
                          (deliveries w))
            else (Ok t,
                  mkWorld (snd (update_verified (reading w 1) (UserID t)
                                  (snd (update_used (ID t) (db w)))))
                          (handed w) (env w) (S (S (readings w)))
                          (S (S (S (statements w)))) (draws w) (deliveries w))
        end.
Proof.
  intros token w. rewrite <- reading_0, <- reading_1.
  unfold VerifyEmailToken.
  destruct (String.eqb token ""); [reflexivity|].
  unfold bind, on_error, db_QueryRow, time_Now, db_Exec, fail, ret.
  cbn [db env statements readings handed draws deliveries].
  destruct (store_refuses (env w) (statements w)); [reflexivity|].
  destruct (select_unused_by_token _ _ (db w)) as [t|]; [|reflexivity].
  cbn [db env statements readings handed draws deliveries].
  destruct (ExpiresAt t <? clock (env w) (readings w)); [reflexivity|].
  cbn [db env statements readings handed draws deliveries].
  destruct (store_refuses (env w) (S (statements w))); [reflexivity|].
  cbn [db env statements readings handed draws deliveries update_used snd fst].
  destruct (store_refuses (env w) (S (S (statements w)))); reflexivity.
Qed.

Lemma validation_errors :
  forall email e,
    validateEmailAddress email = Err e ->
    e = errors_New "invalid email format: contains newline characters" \/
    e = ErrInvalidEmail.
Proof.
  intros email e H. unfold validateEmailAddress, sanitizeEmail in H.
  destruct (_ || _) in H; [injection H as <-; auto|].
  destruct (negb (isValidEmail email)); [injection H as <-; auto|discriminate].
Qed.

(** X8. The checks of the arguments come before every effect: a call that
    fails one of them returns its error with the clock unread and the store,
    the entropy source and the notifier untouched; the address is checked
    before the code and before the user id. *)
Theorem argument_checks_precede_effects :
  forall w,
    (forall req e, validateEmailAddress (reset_Email req) = Err e ->
       RequestPasswordReset req w = (Err e, w)) /\
    (forall email code e, validateEmailAddress email = Err e ->
       VerifyPasswordResetCode email code w = (Err e, w)) /\
    (forall email, validateEmailAddress email = Ok tt ->
       VerifyPasswordResetCode email "" w
         = (Err (errors_New "code cannot be empty"), w)) /\
    (forall req e, validateEmailAddress (verif_Email req) = Err e ->
       RequestEmailVerification req w = (Err e, w)) /\
    (forall req, validateEmailAddress (verif_Email req) = Ok tt ->
       verif_UserID req <= 0 ->
       RequestEmailVerification req w = (Err (errors_New "user ID is required"), w)) /\
    VerifyEmailToken "" w = (Err (errors_New "token cannot be empty"), w).
Proof.
  intro w.
  split; [intros req e H; rewrite RequestPasswordReset_run, H; reflexivity|].
  split; [intros email code e H; rewrite VerifyPasswordResetCode_run, H; reflexivity|].
  split; [intros email H; rewrite VerifyPasswordResetCode_run, H; reflexivity|].
  split; [intros req e H; rewrite RequestEmailVerification_run, H; reflexivity|].
  split; [|reflexivity].
  intros req H Hid. rewrite RequestEmailVerification_run, H.
  apply Z.leb_le in Hid. rewrite Hid. reflexivity.
Qed.

Lemma find_filter_none :
  forall (A : Type) (f : A -> bool) l,
    (forall x, In x l -> f x = false) -> find f l = None.
Proof.
  intros A f l. induction l as [|a l IH]; intro H; simpl; [reflexivity|].
  rewrite (H a (or_introl eq_refl)). apply IH. intros x Hx. apply H. now right.
Qed.

Lemma update_used_table :
  forall id d,
    email_tokens (snd (update_used id d)) =
      map (fun t => if ID t =? id then mark_used t else t) (email_tokens d) /\
    users (snd (update_used id d)) = users d.
Proof. intros id d. split; reflexivity. Qed.

(** X9. [VerifyEmailToken] is not atomic. When the store accepts the lookup
    and the UPDATE of the record but refuses the UPDATE of the user, the call
    fails, the record stays marked used and the users are as before; the
    token of a link whose hash no other unused record carries is then spent:
    a later call with it is refused as invalid, so that link can no longer
    verify the user. *)
Theorem verify_email_refused_user_update_spends_token :
  forall w token t,
    token <> "" ->
    store_refuses (env w) (statements w) = false ->
    store_refuses (env w) (S (statements w)) = false ->
    store_refuses (env w) (S (S (statements w))) = true ->
    select_unused_by_token (string_of_bytes (hashToken token))
      TokenTypeEmailVerification (db w) = Some t ->
    reading w 0 <= ExpiresAt t ->
    let w' := after (VerifyEmailToken token) w in
    outcome (VerifyEmailToken token) w
      = Err (fmt_Errorf "failed to mark email as verified" driver_error) /\
    email_tokens (db w') =
      map (fun r => if ID r =? ID t then mark_used r else r) (email_tokens (db w)) /\
    In (mark_used t) (email_tokens (db w')) /\
    users (db w') = users (db w) /\
    ((forall r, In r (email_tokens (db w)) ->
        Token r = string_of_bytes (hashToken token) ->
        Type_ r = TokenTypeEmailVerification -> Used r = false -> ID r = ID t) ->
     forall w2, db w2 = db w' -> store_refuses (env w2) (statements w2) = false ->
       outcome (VerifyEmailToken token) w2 = Err ErrInvalidToken /\
       db (after (VerifyEmailToken token) w2) = db w2).
Proof.
  intros w token t Hc Hs0 Hs1 Hs2 Hsel Hexp w'.
  assert (Hrun : VerifyEmailToken token w =
                 (Err (fmt_Errorf "failed to mark email as verified" driver_error),
                  mkWorld (snd (update_used (ID t) (db w))) (handed w) (env w)
                          (S (S (readings w))) (S (S (S (statements w)))) (draws w)
                          (deliveries w))).
  { rewrite VerifyEmailToken_run.
    apply String.eqb_neq in Hc. rewrite Hc. cbv zeta. rewrite Hs0, Hsel.
    apply Z.ltb_ge in Hexp. rewrite Hexp, Hs1, Hs2. reflexivity. }
  assert (Hd : db w' = snd (update_used (ID t) (db w)))
    by (unfold w', after; rewrite Hrun; reflexivity).
  destruct (select_unused_by_token_some _ _ _ _ Hsel) as (Hin & Ht & Hty & Hu).
  split; [unfold outcome; rewrite Hrun; reflexivity|].
  split; [rewrite Hd; reflexivity|].
  split.
  { rewrite Hd. cbn [update_used snd with_tokens email_tokens].
    apply in_map_iff. exists t. rewrite Z.eqb_refl. auto. }
  split; [rewrite Hd; reflexivity|].
  intros Honly w2 Hdb Hs. unfold outcome, after.
  rewrite VerifyEmailToken_run.
  apply String.eqb_neq in Hc. rewrite Hc. cbv zeta. rewrite Hs.
  assert (Hnone : select_unused_by_token (string_of_bytes (hashToken token))
                    TokenTypeEmailVerification (db w2) = None).
  { rewrite Hdb, Hd. unfold select_unused_by_token.
    cbn [update_used snd with_tokens email_tokens].
    apply find_filter_none. intros x Hx. apply in_map_iff in Hx.
    destruct Hx as (r & Hr & Hinr).
    destruct (unused_with (string_of_bytes (hashToken token))
                TokenTypeEmailVerification x) eqn:E; [exfalso|reflexivity].
    apply unused_with_spec in E. destruct E as (A & B & C).
    destruct (ID r =? ID t) eqn:Hid.
    - subst x. simpl in C. discriminate.
    - subst x. apply Z.eqb_neq in Hid. apply Hid. now apply Honly. }
  rewrite Hnone. split; reflexivity.
Qed.

(** ** The users and the records through any history *)

Lemma CleanupExpiredTokens_run :
  forall w,
    CleanupExpiredTokens w =
    if store_refuses (env w) (statements w)
    then (Err driver_error,
          mkWorld (db w) (handed w) (env w) (S (S (readings w))) (S (statements w))
                  (draws w) (deliveries w))
    else (Ok tt,
          mkWorld (snd (delete_swept (reading w 0) (reading w 1 + - (7 * 24 * Hour))
                          (db w)))
                  (handed w) (env w) (S (S (readings w))) (S (statements w))
                  (draws w) (deliveries w)).
Proof.
  intro w. rewrite <- reading_0, <- reading_1.
  unfold CleanupExpiredTokens, bind, time_Now, db_Exec.
  cbn [db env statements readings handed draws deliveries].
  destruct (store_refuses (env w) (statements w)); reflexivity.
Qed.

Lemma GetTokenStats_store :
  forall w, db (after GetTokenStats w) = db w /\ handed (after GetTokenStats w) = handed w.
Proof.
  intro w. unfold after, GetTokenStats, bind, time_Now, db_Query, db_QueryRow, ret.
  cbn [db env statements readings handed draws deliveries].
  destruct (store_refuses (env w) (statements w)); [split; reflexivity|].
  cbn [db env statements readings handed draws deliveries].
  destruct (store_refuses (env w) (S (statements w))); [split; reflexivity|].
  unfold count_expired. split; reflexivity.
Qed.

(** X10. The users are written by one thing only, a successful
    [VerifyEmailToken]: every other run of an operation, failed
    verifications included, leaves the table of users as it is; the
    successful verification sets the timestamp, read after the record was
    marked, on the rows of the owner of the record that have none, and
    nothing else. *)
Theorem users_written_only_by_successful_verification :
  forall op w,
    users (db (run op w)) = users (db w) \/
    exists token t,
      op = OpVerifyEmailToken token /\
      outcome (VerifyEmailToken token) w = Ok t /\
      users (db (run op w)) = map (verify_user (reading w 1) (UserID t)) (users (db w)).
Proof.
  intros op w. destruct op as [req|email code|req|token| |]; cbn [run]; unfold after.
  - left. rewrite RequestPasswordReset_run.
    destruct (validateEmailAddress (reset_Email req)) as [[]|e]; [|reflexivity].
    cbv zeta. destruct (store_refuses (env w) (statements w)); [reflexivity|].
    destruct (3 <=? _); [reflexivity|].
    destruct (rand_Int_draw (env w) (draws w)); [|reflexivity].
    destruct (store_refuses (env w) (S (statements w))); reflexivity.
  - left. rewrite VerifyPasswordResetCode_run.
    destruct (validateEmailAddress email) as [[]|e]; [|reflexivity].
    destruct (String.eqb code ""); [reflexivity|].
    cbv zeta. destruct (store_refuses (env w) (statements w)); [reflexivity|].
    destruct (select_latest_unused _ _ _) as [t|]; [|reflexivity].
    destruct (ExpiresAt t <? reading w 0); [reflexivity|].
    destruct (negb _); [reflexivity|].
    destruct (store_refuses (env w) (S (statements w))); reflexivity.
  - left. rewrite RequestEmailVerification_run.
    destruct (validateEmailAddress (verif_Email req)) as [[]|e]; [|reflexivity].
    destruct (verif_UserID req <=? 0); [reflexivity|].
    destruct (rand_Read_draw (env w) (draws w)); [|reflexivity].
    cbv zeta. destruct (store_refuses (env w) (statements w)); reflexivity.
  - rewrite VerifyEmailToken_run.
    destruct (String.eqb token "") eqn:Hc; [left; reflexivity|].
    cbv zeta.
    destruct (store_refuses (env w) (statements w)) eqn:Hs0; [left; reflexivity|].
    destruct (select_unused_by_token _ _ _) as [t|] eqn:Hsel; [|left; reflexivity].
    destruct (ExpiresAt t <? reading w 0) eqn:Hexp; [left; reflexivity|].
    destruct (store_refuses (env w) (S (statements w))) eqn:Hs1; [left; reflexivity|].
    destruct (store_refuses (env w) (S (S (statements w)))) eqn:Hs2;
      [left; reflexivity|].
    right. exists token, t. split; [reflexivity|]. split.
    + unfold outcome. rewrite VerifyEmailToken_run, Hc. cbv zeta.
      rewrite Hs0, Hsel, Hexp, Hs1, Hs2. reflexivity.
    + cbn [snd db update_verified update_used users with_tokens].
      apply map_ext. intro u. reflexivity.
  - left. rewrite CleanupExpiredTokens_run.
    destruct (store_refuses (env w) (statements w)); reflexivity.
  - left. exact (f_equal users (proj1 (GetTokenStats_store w))).
Qed.

Lemma flipped_or_same_ID : forall t t', flipped_or_same t t' -> ID t' = ID t.
Proof. intros t t' [->|[_ ->]]; reflexivity. Qed.

Lemma evolves_refl : forall d, evolves d d.
Proof.
  intro d. split; [lia|]. apply Forall_forall. intros t Hin. right.
  exists t. split; [assumption|left; reflexivity].
Qed.

Lemma evolves_trans :
  forall d1 d2 d3, evolves d1 d2 -> evolves d2 d3 -> evolves d1 d3.
Proof.
  intros d1 d2 d3 [Hs12 H12] [Hs23 H23]. split; [lia|].
  rewrite Forall_forall in *. intros t3 Hin3.
  destruct (H23 t3 Hin3) as [Hfresh|(t2 & Hin2 & Hf23)]; [left; lia|].
  destruct (H12 t2 Hin2) as [Hfresh|(t1 & Hin1 & Hf12)].
  - left. rewrite (flipped_or_same_ID _ _ Hf23). exact Hfresh.
  - right. exists t1. split; [assumption|].
    exact (flipped_or_same_trans _ _ _ Hf12 Hf23).
Qed.

Lemma insert_rows_evolves :
  forall rows d,
    Forall (fun r => forall id, ID (r id) = id) rows ->
    evolves d (snd (insert_rows rows d)).
Proof.
  intros rows d Hrows. split; [simpl; lia|]. simpl.
  apply Forall_app. split.
  - apply Forall_forall. intros t Hin. right. exists t.
    split; [assumption|left; reflexivity].
  - destruct (number_rows_ids rows (email_tokens_id_seq d) Hrows) as [_ Hb].
    eapply Forall_impl; [|exact Hb]. cbv beta. intros t Ht. left. lia.
Qed.

Lemma operations_evolve : forall op w, evolves (db w) (db (run op w)).
Proof.
  intros op w. apply (keeps_operation evolves).
  - apply evolves_refl.
  - apply evolves_trans.
  - intros token email ty expires created ip ua d _.
    apply insert_rows_evolves. apply Forall_forall. intros r Hin.
    apply in_map_iff in Hin. destruct Hin as (x & <- & _). reflexivity.
  - intros token uid email ty expires created ip ua d.
    apply insert_rows_evolves. constructor; [reflexivity|constructor].
  - intros id d. split; [simpl; lia|]. simpl. apply Forall_forall.
    intros t' Hin. apply in_map_iff in Hin. destruct Hin as (t & <- & Hin).
    right. exists t. split; [assumption|].
    destruct (ID t =? id); [|left; reflexivity].
    destruct (Used t) eqn:Hu; [left; now apply mark_used_of_used|].
    right. auto.
  - intros now uid d. exact (evolves_refl d).
  - intros now cutoff d. split; [simpl; lia|]. simpl. apply Forall_forall.
    intros t Hin. apply filter_In in Hin. right. exists t.
    split; [tauto|left; reflexivity].
Qed.

Lemma operations_verify_users :
  forall op w, only_verifies (users (db w)) (users (db (run op w))).
Proof.
  intros op w.
  apply (keeps_operation (fun d d' => only_verifies (users d) (users d'))).
  - intro d. apply only_verifies_refl.
  - intros d1 d2 d3. apply only_verifies_trans.
  - intros. apply only_verifies_refl.
  - intros. apply only_verifies_refl.
  - intros. apply only_verifies_refl.
  - intros. apply update_verified_verifies.
  - intros. apply only_verifies_refl.
Qed.

Lemma history_snoc :
  forall ops op w, history (ops ++ [op]) w = run op (history ops w).
Proof. intros ops op w. unfold history. rewrite fold_left_app. reflexivity. Qed.

Lemma history_invariants :
  forall ops w,
    evolves (db w) (db (history ops w)) /\
    only_verifies (users (db w)) (users (db (history ops w))) /\
    (well_keyed (db w) -> well_keyed (db (history ops w))).
Proof.
  intros ops. induction ops as [|op ops IH] using rev_ind; intro w.
  - split; [apply evolves_refl|]. split; [apply only_verifies_refl|auto].
  - rewrite history_snoc. destruct (IH w) as (He & Hu & Hk).
    split; [eapply evolves_trans; [exact He|apply operations_evolve]|].
    split; [eapply only_verifies_trans; [exact Hu|apply operations_verify_users]|].
    intro H. apply operations_keep_the_key. auto.
Qed.

(** X11. Records are immutable but for the flag, through any sequence of
    operations. On a table with the key of the schema, a record found later
    under the id of an earlier record is that record, as it was or flipped
    from unused to used: its hash, owner, address, type, expiry and creation
    time never change, a used record is never turned back, and the id of a
    deleted record is not given to another. The key stays, and each user row
    is as before or went from unverified to verified. *)
Theorem records_keep_identity_through_history :
  forall ops w,
    well_keyed (db w) ->
    let w' := history ops w in
    well_keyed (db w') /\
    only_verifies (users (db w)) (users (db w')) /\
    forall t t',
      In t (email_tokens (db w)) -> In t' (email_tokens (db w')) -> ID t' = ID t ->
      t' = t \/ (Used t = false /\ t' = mark_used t).
Proof.
  intros ops w Hk w'. destruct (history_invariants ops w) as ([_ He] & Hu & Hk').
  split; [auto|]. split; [exact Hu|].
  intros t t' Hin Hin' Hid. rewrite Forall_forall in He.
  destruct (He t' Hin') as [Hfresh|(t0 & Hin0 & Hf)].
  - exfalso. destruct Hk as [_ Hb]. rewrite Forall_forall in Hb.
    specialize (Hb t Hin). lia.
  - assert (t0 = t).
    { apply (well_keyed_same_id (db w)); auto.
      rewrite <- Hid. symmetry. now apply flipped_or_same_ID. }
    subst t0. exact Hf.
Qed.

(** ** What the limiter counts *)

Lemma RequestPasswordReset_appends :
  forall req w,
    exists added,
      email_tokens (db (after (RequestPasswordReset req) w)) =
        email_tokens (db w) ++ added /\
      Forall (fun t => Email t = reset_Email req /\ Type_ t = TokenTypePasswordReset)
             added.
Proof.
  intros req w. unfold after. rewrite RequestPasswordReset_run.
  destruct (validateEmailAddress (reset_Email req)) as [[]|e];
    [|exists []; rewrite app_nil_r; auto].
  cbv zeta.
  destruct (store_refuses (env w) (statements w));
    [exists []; rewrite app_nil_r; auto|].
  destruct (3 <=? _); [exists []; rewrite app_nil_r; auto|].
  destruct (rand_Int_draw (env w) (draws w)) as [n|];
    [|exists []; rewrite app_nil_r; auto].
  destruct (store_refuses (env w) (S (statements w)));
    [exists []; rewrite app_nil_r; auto|].
  cbn [snd db]. eexists. split; [reflexivity|].
  apply number_rows_forall. intros u id _. split; reflexivity.
Qed.

Lemma RequestEmailVerification_appends :
  forall req w,
    exists added,
      email_tokens (db (after (RequestEmailVerification req) w)) =
        email_tokens (db w) ++ added /\
      (added = [] \/ exists token, added = [verification_record w req token]).
Proof.
  intros req w. unfold after. rewrite RequestEmailVerification_run.
  destruct (validateEmailAddress (verif_Email req)) as [[]|e];
    [|exists []; rewrite app_nil_r; auto].
  destruct (verif_UserID req <=? 0); [exists []; rewrite app_nil_r; auto|].
  destruct (rand_Read_draw (env w) (draws w)) as [bs|];
    [|exists []; rewrite app_nil_r; auto].
  cbv zeta. destruct (store_refuses (env w) (statements w));
    [exists []; rewrite app_nil_r; auto|].
  eexists. split; [reflexivity|]. right. eexists. reflexivity.
Qed.

Lemma issued_since_spec :
  forall email ty since t,
    issued_since email ty since t = true <->
    Email t = email /\ Type_ t = ty /\ since < CreatedAt t.
Proof.
  intros email ty since t. unfold issued_since.
  rewrite !andb_true_iff, String.eqb_eq, TokenType_eqb_eq, Z.ltb_lt. tauto.
Qed.

Lemma count_flips :
  forall email ty since old new,
    only_flips old new ->
    List.length (filter (issued_since email ty since) new) =
    List.length (filter (issued_since email ty since) old).
Proof.
  intros email ty since old new H.
  induction H as [|t t' old new Hf H IH]; [reflexivity|]. simpl.
  assert (E : issued_since email ty since t' = issued_since email ty since t)
    by (destruct Hf as [->|[_ ->]]; reflexivity).
  rewrite E. destruct (issued_since email ty since t); simpl; congruence.
Qed.

Lemma count_filter_le :
  forall (f keep : EmailToken -> bool) l,
    (List.length (filter f (filter keep l)) <= List.length (filter f l))%nat.
Proof.
  intros f keep l. induction l as [|t l IH]; simpl; [lia|].
  destruct (keep t); simpl; destruct (f t); simpl; lia.
Qed.

Lemma count_positive :
  forall (f : EmailToken -> bool) l,
    (0 < List.length (filter f l))%nat -> exists t, In t l /\ f t = true.
Proof.
  intros f l H. destruct (filter f l) as [|t l'] eqn:E; [simpl in H; lia|].
  exists t. apply filter_In. rewrite E. now left.
Qed.

(** X12. What the limiter counts for an address and a type changes in two
    ways only: a request of that type for that very address may raise it,
    and the cleanup may lower it. Requests for other addresses, requests of
    the other type, failed attempts and successful verifications leave it as
    it is: using a code does not give a request back, and the traffic of one
    address does not consume the allowance of another. *)
Theorem limiter_count_moves_only_by_own_requests_and_cleanup :
  forall op w email ty since,
    let n := issued_after (db w) email ty since in
    let n' := issued_after (db (run op w)) email ty since in
    n' = n \/
    (n < n' /\
     ((exists req, op = OpRequestPasswordReset req /\
                   reset_Email req = email /\ ty = TokenTypePasswordReset) \/
      (exists req, op = OpRequestEmailVerification req /\
                   verif_Email req = email /\ ty = TokenTypeEmailVerification /\
                   n' = n + 1))) \/
    (n' < n /\ op = OpCleanupExpiredTokens).
Proof.
  intros op w email ty since n n'. unfold n, n', issued_after.
  destruct op as [req|email' code|req|token| |]; cbn [run].
  - destruct (RequestPasswordReset_appends req w) as (added & -> & Hadd).
    rewrite count_app.
    destruct (List.length (filter (issued_since email ty since) added)) eqn:E;
      [left; lia|].
    right. left. split; [lia|]. left. exists req. split; [reflexivity|].
    destruct (count_positive (issued_since email ty since) added) as (t & Hin & Ht);
      [lia|].
    apply issued_since_spec in Ht. rewrite Forall_forall in Hadd.
    destruct (Hadd t Hin) as [He Hty]. destruct Ht as (He' & Hty' & _).
    split; congruence.
  - left. f_equal. apply count_flips. apply (VerifyPasswordResetCode_flips email' code w).
  - destruct (RequestEmailVerification_appends req w) as (added & -> & [->|[token ->]]).
    + left. rewrite app_nil_r. reflexivity.
    + rewrite count_app. cbn [filter].
      destruct (issued_since email ty since (verification_record w req token)) eqn:E.
      * right. left. cbn [List.length]. split; [lia|]. right. exists req.
        apply issued_since_spec in E. destruct E as (He & Hty & _).
        cbn [verification_record Email Type_] in He, Hty.
        split; [reflexivity|]. split; [exact He|]. split; [congruence|lia].
      * left. cbn [List.length]. lia.
  - left. f_equal. apply count_flips. apply (VerifyEmailToken_flips token w).
  - destruct (CleanupExpiredTokens_deletes w) as (keep & E).
    unfold on_tokens in E. cbn [run] in E. rewrite E.
    pose proof (count_filter_le (issued_since email ty since) keep
                  (email_tokens (db w))) as Hle.
    destruct (Nat.eq_dec
                (List.length (filter (issued_since email ty since)
                                (filter keep (email_tokens (db w)))))
                (List.length (filter (issued_since email ty since)
                                (email_tokens (db w))))) as [Heq|Hne].
    + left. rewrite Heq. reflexivity.
    + right. right. split; [lia|reflexivity].
  - left. destruct (GetTokenStats_store w) as [-> _]. reflexivity.
Qed.

(** X13. The cleanup erases the history the limiter counts. When every
    password-reset record of an address is past its expiry at the cleanup,
    the limiter counts none for the address afterwards, whatever it counted
    before, so the next request for the address on the table as the cleanup
    left it is not refused for the rate, also within the hour of three
    earlier requests. *)
Theorem cleanup_reopens_the_limiter :
  forall w req,
    store_accepts w 1 ->
    (forall t, In t (email_tokens (db w)) ->
       Email t = reset_Email req -> Type_ t = TokenTypePasswordReset ->
       ExpiresAt t < reading w 0) ->
    let w1 := after CleanupExpiredTokens w in
    (forall since,
       issued_after (db w1) (reset_Email req) TokenTypePasswordReset since = 0) /\
    forall w2, db w2 = db w1 ->
      outcome (RequestPasswordReset req) w2 <> Err ErrRateLimitExceeded.
Proof.
  intros w req Hs Hexp w1.
  assert (Hd : db w1 = snd (delete_swept (reading w 0) (reading w 1 + - (7 * 24 * Hour))
                              (db w))).
  { unfold w1, after. rewrite CleanupExpiredTokens_run, (store_accepts_0 _ _ Hs).
    reflexivity. }
  assert (Hzero : forall since,
            issued_after (db w1) (reset_Email req) TokenTypePasswordReset since = 0).
  { intro since. unfold issued_after. rewrite Hd.
    cbn [delete_swept snd with_tokens email_tokens].
    destruct (List.length _) eqn:E; [reflexivity|exfalso].
    destruct (count_positive (issued_since (reset_Email req) TokenTypePasswordReset since)
                (filter (fun t => negb (swept (reading w 0)
                                          (reading w 1 + - (7 * 24 * Hour)) t))
                        (email_tokens (db w)))) as (t & Hin & Ht); [lia|].
    apply filter_In in Hin. destruct Hin as [Hin Hkeep].
    apply issued_since_spec in Ht. destruct Ht as (He & Hty & _).
    specialize (Hexp t Hin He Hty).
    apply negb_true_iff in Hkeep.
    assert (Hsw : swept (reading w 0) (reading w 1 + - (7 * 24 * Hour)) t = true)
      by (apply swept_spec; left; exact Hexp).
    congruence. }
  split; [exact Hzero|].
  intros w2 Hdb. unfold outcome. rewrite RequestPasswordReset_run.
  destruct (validateEmailAddress (reset_Email req)) as [[]|e] eqn:Hv.
  - cbv zeta. destruct (store_refuses (env w2) (statements w2)); [discriminate|].
    rewrite Hdb, Hzero. cbn [Z.leb Z.compare].
    destruct (rand_Int_draw (env w2) (draws w2)); [|discriminate].
    destruct (store_refuses (env w2) (S (statements w2))); [discriminate|].
    destruct (notifier_fails (env w2) (deliveries w2)); discriminate.
  - cbn [fst]. intro H. injection H as ->.
    destruct (validation_errors _ _ Hv); discriminate.
Qed.

(** ** The cleanup and the outstanding codes *)

Lemma latest_stays :
  forall rows t,
    Forall (fun x => CreatedAt x <= CreatedAt t) rows -> latest (Some t) rows = Some t.
Proof.
  induction rows as [|r rows IH]; intros t H; [reflexivity|].
  inversion H as [|? ? Hr Hrows]; subst. cbn [latest].
  apply Z.ltb_ge in Hr. rewrite Hr. now apply IH.
Qed.

Lemma latest_join :
  forall l1 best t l2,
    Forall (fun x => CreatedAt x < CreatedAt t) l1 ->
    (forall b, best = Some b -> CreatedAt b < CreatedAt t) ->
    Forall (fun x => CreatedAt x <= CreatedAt t) l2 ->
    latest best (l1 ++ t :: l2) = Some t.
Proof.
  induction l1 as [|a l1 IH]; intros best t l2 H1 Hb H2.
  - cbn [app latest]. destruct best as [b|]; [|now apply latest_stays].
    specialize (Hb b eq_refl). apply Z.ltb_lt in Hb. rewrite Hb.
    now apply latest_stays.
  - inversion H1 as [|? ? Ha H1']; subst. cbn [app latest].
    destruct best as [b|].
    + destruct (CreatedAt b <? CreatedAt a).
      * apply IH; auto. intros b' E. injection E as <-. exact Ha.
      * apply IH; auto.
    + apply IH; auto. intros b' E. injection E as <-. exact Ha.
Qed.

Lemma latest_split :
  forall rows best t,
    latest best rows = Some t ->
    (best = Some t /\ Forall (fun x => CreatedAt x <= CreatedAt t) rows) \/
    exists l1 l2,
      rows = l1 ++ t :: l2 /\
      Forall (fun x => CreatedAt x < CreatedAt t) l1 /\
      (forall b, best = Some b -> CreatedAt b < CreatedAt t) /\
      Forall (fun x => CreatedAt x <= CreatedAt t) l2.
Proof.
  induction rows as [|r rows IH]; intros best t H; cbn [latest] in H.
  - left. auto.
  - destruct best as [b|].
    + destruct (CreatedAt b <? CreatedAt r) eqn:Hlt.
      * apply Z.ltb_lt in Hlt.
        destruct (IH _ _ H) as [[E Hall]|(l1 & l2 & -> & H1 & Hb & H2)].
        -- injection E as ->. right. exists [], rows.
           split; [reflexivity|]. split; [constructor|]. split; [|exact Hall].
           intros b' E. injection E as <-. exact Hlt.
        -- specialize (Hb r eq_refl). right. exists (r :: l1), l2.
           split; [reflexivity|]. split; [constructor; assumption|].
           split; [|exact H2]. intros b' E. injection E as <-. lia.
      * apply Z.ltb_ge in Hlt.
        destruct (IH _ _ H) as [[E Hall]|(l1 & l2 & -> & H1 & Hb & H2)].
        -- injection E as ->. left. split; [reflexivity|]. constructor; auto.
        -- specialize (Hb b eq_refl). right. exists (r :: l1), l2.
           split; [reflexivity|]. split; [constructor; [lia|assumption]|].
           split; [|exact H2]. intros b' E. injection E as <-. exact Hb.
    + destruct (IH _ _ H) as [[E Hall]|(l1 & l2 & -> & H1 & Hb & H2)].
      * injection E as ->. right. exists [], rows.
        split; [reflexivity|]. split; [constructor|]. split; [|exact Hall].
        intros b E. discriminate.
      * specialize (Hb r eq_refl). right. exists (r :: l1), l2.
        split; [reflexivity|]. split; [constructor; assumption|].
        split; [|exact H2]. intros b E. discriminate.
Qed.

Lemma Forall_filter :
  forall (A : Type) (P : A -> Prop) (f : A -> bool) l,
    Forall P l -> Forall P (filter f l).
Proof.
  intros A P f l H. apply Forall_forall. intros x Hx. apply filter_In in Hx.
  rewrite Forall_forall in H. apply H. tauto.
Qed.

Lemma latest_filter :
  forall (keep : EmailToken -> bool) rows t,
    latest None rows = Some t -> keep t = true ->
    latest None (filter keep rows) = Some t.
Proof.
  intros keep rows t H Hk.
  destruct (latest_split _ _ _ H) as [[E _]|(l1 & l2 & -> & H1 & _ & H2)];
    [discriminate|].
  rewrite filter_app. cbn [filter]. rewrite Hk.
  apply latest_join; [now apply Forall_filter|intros b E; discriminate|
                      now apply Forall_filter].
Qed.

Lemma filter_comm :
  forall (A : Type) (f g : A -> bool) l,
    filter f (filter g l) = filter g (filter f l).
Proof.
  intros A f g l. induction l as [|a l IH]; [reflexivity|]. simpl.
  destruct (f a) eqn:Hf; destruct (g a) eqn:Hg; simpl; rewrite ?Hf, ?Hg; congruence.
Qed.

Lemma find_filter :
  forall (A : Type) (f keep : A -> bool) l t,
    find f l = Some t -> keep t = true -> find f (filter keep l) = Some t.
Proof.
  intros A f keep l t. induction l as [|a l IH]; intros H Hk; [discriminate|].
  simpl in H. destruct (f a) eqn:Hf.
  - injection H as ->. simpl. rewrite Hk. simpl. rewrite Hf. reflexivity.
  - simpl. destruct (keep a); [simpl; rewrite Hf|]; auto.
Qed.

(** X14. The cleanup does not disturb what can still be verified. After a
    cleanup accepted by the store, the lookup of the reset path for an
    address and the lookup of the verification path for a token return the
    record they returned before, whenever that record was not past its
    expiry at the cleanup; so a code that would have verified still
    verifies, with the same record, on the table the cleanup left. *)
Theorem cleanup_keeps_what_still_verifies :
  forall w,
    store_accepts w 1 ->
    let w1 := after CleanupExpiredTokens w in
    (forall email ty t,
       select_latest_unused email ty (db w) = Some t ->
       reading w 0 <= ExpiresAt t ->
       select_latest_unused email ty (db w1) = Some t) /\
    (forall token ty t,
       select_unused_by_token token ty (db w) = Some t ->
       reading w 0 <= ExpiresAt t ->
       select_unused_by_token token ty (db w1) = Some t) /\
    (forall email code t w2,
       validateEmailAddress email = Ok tt -> code <> "" ->
       select_latest_unused email TokenTypePasswordReset (db w) = Some t ->
       bytes_of_string (Token t) = hashToken code ->
       reading w 0 <= ExpiresAt t ->
       db w2 = db w1 -> store_accepts w2 2 -> reading w2 0 <= ExpiresAt t ->
       outcome (VerifyPasswordResetCode email code) w2 = Ok t).
Proof.
  intros w Hs w1.
  assert (Hd : email_tokens (db w1) =
               filter (fun t => negb (swept (reading w 0)
                                        (reading w 1 + - (7 * 24 * Hour)) t))
                      (email_tokens (db w))).
  { unfold w1, after. rewrite CleanupExpiredTokens_run, (store_accepts_0 _ _ Hs).
    reflexivity. }
  assert (Hkeep : forall t, Used t = false -> reading w 0 <= ExpiresAt t ->
            negb (swept (reading w 0) (reading w 1 + - (7 * 24 * Hour)) t) = true).
  { intros t Hu He. apply negb_true_iff.
    destruct (swept _ _ t) eqn:E; [exfalso|reflexivity].
    apply swept_spec in E. destruct E as [E|[E _]]; [lia|congruence]. }
  assert (Hlatest : forall email ty t,
            select_latest_unused email ty (db w) = Some t ->
            reading w 0 <= ExpiresAt t ->
            select_latest_unused email ty (db w1) = Some t).
  { intros email ty t Hsel He.
    destruct (select_latest_unused_some _ _ _ _ Hsel) as (_ & _ & _ & Hu & _).
    unfold select_latest_unused in *. rewrite Hd, filter_comm.
    apply latest_filter; auto. }
  split; [exact Hlatest|]. split.
  - intros token ty t Hsel He.
    destruct (select_unused_by_token_some _ _ _ _ Hsel) as (_ & _ & _ & Hu).
    unfold select_unused_by_token in *. rewrite Hd. apply find_filter; auto.
  - intros email code t w2 Hv Hc Hsel Hh He Hdb Hs2 He2.
    apply (verify_reset_match w2 email code t Hv Hc Hs2); auto.
    rewrite Hdb. now apply Hlatest.
Qed.

(** ** The addresses that pass validation *)

Lemma prefix_nil : forall s, String.prefix "" s = true.
Proof. destruct s; reflexivity. Qed.

Lemma prefix_spec :
  forall p s, String.prefix p s = true <-> exists post, s = String.append p post.
Proof.
  induction p as [|a p IH]; intro s.
  - rewrite prefix_nil. split; [intros _; exists s; reflexivity|reflexivity].
  - destruct s as [|b s]; cbn [String.prefix String.append].
    + split; [discriminate|intros [post H]; discriminate].
    + destruct (Ascii.ascii_dec a b) as [->|Hne].
      * rewrite IH. split; intros [post H]; exists post; congruence.
      * split; [discriminate|]. intros [post H]. congruence.
Qed.

Lemma strings_Contains_spec :
  forall s sub,
    strings_Contains s sub = true <->
    exists pre post, s = String.append pre (String.append sub post).
Proof.
  induction s as [|a s IH]; intro sub; cbn [strings_Contains].
  - rewrite orb_false_r, prefix_spec. split.
    + intros [post H]. exists "", post. exact H.
    + intros (pre & post & H). destruct pre; [exists post; exact H|discriminate].
  - rewrite orb_true_iff, prefix_spec, IH. split.
    + intros [[post H]|(pre & post & H)].
      * exists "", post. exact H.
      * exists (String a pre), post. simpl. congruence.
    + intros (pre & post & H). destruct pre as [|b pre].
      * left. exists post. exact H.
      * right. exists pre, post. simpl in H. congruence.
Qed.

Lemma contains_char_cons :
  forall a s c,
    strings_Contains (String a s) (String c "") =
    Ascii.eqb a c || strings_Contains s (String c "").
Proof.
  intros a s c. cbn [strings_Contains String.prefix].
  destruct (Ascii.ascii_dec c a) as [->|Hne].
  - rewrite Ascii.eqb_refl, prefix_nil. reflexivity.
  - assert (E : Ascii.eqb a c = false) by (apply Ascii.eqb_neq; congruence).
    rewrite E. reflexivity.
Qed.

Lemma append_nil_r : forall s, String.append s "" = s.
Proof. induction s; simpl; congruence. Qed.

Lemma append_assoc :
  forall a b c,
    String.append (String.append a b) c = String.append a (String.append b c).
Proof. induction a; intros; simpl; congruence. Qed.

Lemma string_of_list_ascii_snoc :
  forall l a s,
    String.append (string_of_list_ascii (l ++ [a])) s =
    String.append (string_of_list_ascii l) (String a s).
Proof. induction l as [|b l IH]; intros a s; simpl; [reflexivity|]. now rewrite IH. Qed.

Lemma split_from_nonempty : forall sep s cur, split_from sep s cur <> [].
Proof.
  intros sep s. induction s as [|a s IH]; intro cur; simpl; [discriminate|].
  destruct (Ascii.eqb a sep); [discriminate|apply IH].
Qed.

Lemma split_from_one :
  forall sep s cur x,
    split_from sep s cur = [x] <->
    strings_Contains s (String sep "") = false /\
    x = String.append (string_of_list_ascii (rev cur)) s.
Proof.
  intros sep s. induction s as [|a s IH]; intros cur x.
  - cbn [split_from strings_Contains String.prefix orb]. rewrite append_nil_r.
    split; [intro H; injection H as <-; auto|intros [_ ->]; reflexivity].
  - cbn [split_from]. rewrite contains_char_cons.
    destruct (Ascii.eqb a sep) eqn:E.
    + split; [|intros [H _]; discriminate].
      intro H. injection H as _ H. elim (split_from_nonempty _ _ _ H).
    + rewrite IH. cbn [rev orb]. rewrite string_of_list_ascii_snoc. reflexivity.
Qed.

Lemma split_from_two :
  forall sep s cur x y,
    split_from sep s cur = [x; y] <->
    exists s1,
      s = String.append s1 (String sep y) /\
      strings_Contains s1 (String sep "") = false /\
      strings_Contains y (String sep "") = false /\
      x = String.append (string_of_list_ascii (rev cur)) s1.
Proof.
  intros sep s. induction s as [|a s IH]; intros cur x y.
  - cbn [split_from]. split; [discriminate|].
    intros (s1 & H & _). destruct s1; discriminate.
  - cbn [split_from]. destruct (Ascii.eqb a sep) eqn:E.
    + apply Ascii.eqb_eq in E. subst a. split.
      * intro H. injection H as <- H.
        assert (H' : split_from sep s (rev (rev [])) = [y]) by exact H.
        apply split_from_one in H. destruct H as [Hn ->].
        exists "". cbn [rev string_of_list_ascii String.append].
        rewrite append_nil_r. auto.
      * intros (s1 & H & H1 & Hy & ->). destruct s1 as [|b s1].
        -- cbn [String.append] in H. injection H as ->. rewrite append_nil_r.
           f_equal. apply split_from_one. auto.
        -- cbn [String.append] in H. injection H as <- _.
           rewrite contains_char_cons, Ascii.eqb_refl in H1. discriminate.
    + rewrite IH. cbn [rev]. split.
      * intros (s1 & -> & H1 & Hy & ->). exists (String a s1).
        rewrite contains_char_cons, E, string_of_list_ascii_snoc. auto.
      * intros (s1 & H & H1 & Hy & ->). destruct s1 as [|b s1].
        -- cbn [String.append] in H. injection H as -> _.
           rewrite Ascii.eqb_refl in E. discriminate.
        -- cbn [String.append] in H. injection H as <- ->.
           rewrite contains_char_cons, E in H1. exists s1.
           rewrite string_of_list_ascii_snoc. auto.
Qed.

Lemma isValidEmail_spec :
  forall email,
    isValidEmail email = true <->
    exists local domain,
      email = String.append local (String.append "@" domain) /\
      local <> "" /\ domain <> "" /\
      strings_Contains local "@" = false /\ strings_Contains domain "@" = false /\
      forall blocked, In blocked blockedDomains ->
        strings_Contains domain blocked = false.
Proof.
  intro email. unfold isValidEmail, strings_Split. split.
  - destruct (String.eqb email ""); [discriminate|].
    destruct (split_from "@" email []) as [|local [|domain [|z l]]] eqn:E;
      try discriminate.
    apply split_from_two in E. destruct E as (s1 & -> & H1 & Hd & ->).
    cbn [rev string_of_list_ascii String.append].
    destruct (String.eqb s1 "") eqn:El; [discriminate|].
    destruct (String.eqb domain "") eqn:Ed; [discriminate|].
    cbn [orb]. intro H. apply negb_true_iff in H.
    exists s1, domain. apply String.eqb_neq in El. apply String.eqb_neq in Ed.
    repeat split; auto.
    intros blocked Hin. destruct (strings_Contains domain blocked) eqn:Hb; [|reflexivity].
    assert (Hex : existsb (fun blocked => strings_Contains domain blocked)
                    blockedDomains = true)
      by (apply existsb_exists; exists blocked; auto).
    congruence.
  - intros (local & domain & -> & Hl & Hd & H1 & H2 & Hb).
    assert (E : split_from "@" (String.append local (String.append "@" domain)) []
                = [local; domain]).
    { apply split_from_two. exists local. repeat split; auto. }
    destruct (String.eqb _ "") eqn:Ee.
    + apply String.eqb_eq in Ee. destruct local; discriminate.
    + rewrite E. apply String.eqb_neq in Hl. apply String.eqb_neq in Hd.
      rewrite Hl, Hd. cbn [orb]. apply negb_true_iff.
      destruct (existsb _ blockedDomains) eqn:Hex; [|reflexivity].
      apply existsb_exists in Hex. destruct Hex as (blocked & Hin & Hc).
      rewrite (Hb blocked Hin) in Hc. discriminate.
Qed.

(** X15. The addresses the package accepts. [validateEmailAddress] returns no
    error exactly for the strings [local@domain] with both parts non-empty
    and free of a further [@], no line feed and no carriage return anywhere,
    and a domain in which none of the blocked strings "localhost",
    "127.0.0.1", "0.0.0.0", "10.", "192.168." and "172." occurs, at any
    position: a public domain such as [mail10.example.com] is refused with
    the private ranges. Nothing else of the address is checked. *)
Theorem validateEmailAddress_accepts_exactly :
  forall email,
    validateEmailAddress email = Ok tt <->
    exists local domain,
      email = String.append local (String.append "@" domain) /\
      local <> "" /\ domain <> "" /\
      strings_Contains local "@" = false /\ strings_Contains domain "@" = false /\
      strings_Contains email LF = false /\ strings_Contains email CR = false /\
      forall blocked, In blocked blockedDomains ->
        strings_Contains domain blocked = false.
Proof.
  intro email. unfold validateEmailAddress, sanitizeEmail. split.
  - destruct (strings_Contains email LF) eqn:Hlf; [discriminate|].
    destruct (strings_Contains email CR) eqn:Hcr; [discriminate|]. cbn [orb].
    destruct (isValidEmail email) eqn:Hv; [|discriminate]. intros _.
    apply isValidEmail_spec in Hv.
    destruct Hv as (local & domain & E & Hl & Hd & H1 & H2 & Hb).
    exists local, domain. repeat split; auto.
  - intros (local & domain & E & Hl & Hd & H1 & H2 & Hlf & Hcr & Hb).
    rewrite Hlf, Hcr. cbn [orb].
    assert (Hv : isValidEmail email = true).
    { apply isValidEmail_spec. exists local, domain. repeat split; auto. }
    rewrite Hv. reflexivity.
Qed.

Example TestBlockedSubstring :
  validateEmailAddress "user@mail10.example.com" = Err ErrInvalidEmail /\
  validateEmailAddress "user@172.example.org" = Err ErrInvalidEmail /\
  validateEmailAddress "user@example.org" = Ok tt.
Proof. vm_compute. auto. Qed.

(** ** The shape of the verification token *)

Lemma enc_base64url : forall i, is_base64url (enc i) = true.
Proof.
  intro i. assert (H : forallb (fun n => is_base64url (enc (Z.of_nat n))) (seq 0 64) = true)
    by (vm_compute; reflexivity).
  rewrite forallb_forall in H.
  destruct (Z_lt_le_dec i 0) as [Hneg|Hpos].
  - unfold enc. replace (Z.to_nat i) with 0%nat by lia. reflexivity.
  - destruct (Z_lt_le_dec i 64) as [Hlt|Hge].
    + specialize (H (Z.to_nat i)). rewrite Z2Nat.id in H by lia.
      apply H. apply in_seq. lia.
    + unfold enc. destruct (String.get (Z.to_nat i) encodeURL) eqn:E; [|reflexivity].
      exfalso.
      assert (Hnone : forall n, (64 <= n)%nat -> String.get n encodeURL = None).
      { intros n Hn. do 64 (destruct n as [|n]; [lia|]). destruct n; reflexivity. }
      rewrite Hnone in E by lia. discriminate.
Qed.

Lemma EncodeToString_shape :
  forall n src,
    (List.length src < 3 * n)%nat ->
    String.length (EncodeToString src) = (4 * ((List.length src + 2) / 3))%nat /\
    all_base64url (EncodeToString src) = true.
Proof.
  induction n as [|n IH]; intros src Hn; [lia|].
  destruct src as [|a [|b [|c rest]]].
  - split; reflexivity.
  - split; [reflexivity|]. unfold EncodeToString. cbn [all_base64url].
    rewrite !enc_base64url. reflexivity.
  - split; [reflexivity|]. unfold EncodeToString. cbn [all_base64url].
    rewrite !enc_base64url. reflexivity.
  - cbn [List.length] in Hn. destruct (IH rest) as [Hl Ha]; [lia|].
    change (EncodeToString (a :: b :: c :: rest))
      with (String (enc (a / 4))
              (String (enc ((a mod 4) * 16 + b / 16))
                 (String (enc ((b mod 16) * 4 + c / 64))
                    (String (enc (c mod 64)) (EncodeToString rest))))).
    split.
    + cbn [String.length List.length]. rewrite Hl.
      replace (S (S (S (List.length rest))) + 2)%nat
        with (1 * 3 + (List.length rest + 2))%nat by lia.
      rewrite Nat.div_add_l by lia. lia.
    + cbn [all_base64url]. rewrite !enc_base64url, Ha. reflexivity.
Qed.

Lemma firstn_padded_length :
  forall (A : Type) n (l : list A) (x : A),
    List.length (firstn n (l ++ repeat x n)) = n.
Proof.
  intros A n l x. rewrite length_firstn, length_app, repeat_length. lia.
Qed.

(** X16. The shape of the verification token. Whatever the entropy source
    delivers, a token returned by [generateSecureToken] has 44 characters,
    each a letter, a digit, [-], [_] or the padding [=]: it is not empty and
    holds no character that would end or split the query of the
    verification link. *)
Theorem generateSecureToken_shape :
  forall w token,
    outcome generateSecureToken w = Ok token ->
    String.length token = 44%nat /\ all_base64url token = true /\
    strings_Contains token "&" = false /\ strings_Contains token "#" = false /\
    strings_Contains token "?" = false /\ strings_Contains token "/" = false /\
    strings_Contains token "+" = false /\ strings_Contains token " " = false.
Proof.
  intros w token H.
  assert (E : exists src, List.length src = 32%nat /\ token = EncodeToString src).
  { unfold outcome, generateSecureToken, bind, on_error, rand_Read, ret in H.
    destruct (rand_Read_draw (env w) (draws w)) as [bs|]; [|discriminate].
    cbn [fst] in H. injection H as <-.
    exists (firstn 32 (map (fun b => b mod 256) bs ++ repeat 0 32)).
    split; [|reflexivity]. apply firstn_padded_length. }
  destruct E as (src & Hlen & ->).
  destruct (EncodeToString_shape 11 src) as [Hl Ha]; [lia|].
  rewrite Hlen in Hl. split; [exact Hl|]. split; [exact Ha|].
  assert (Hfree : forall c s, is_base64url c = false -> all_base64url s = true ->
            strings_Contains s (String c "") = false).
  { intros c s Hc. induction s as [|a s IH]; intro Hs; [reflexivity|].
    cbn [all_base64url] in Hs. apply andb_true_iff in Hs. destruct Hs as [Hsa Hs].
    rewrite contains_char_cons, (IH Hs), orb_false_r.
    apply Ascii.eqb_neq. intros ->. congruence. }
  repeat split; apply Hfree; auto.
Qed.

(** ** The errors of the operations *)

Lemma GetTokenStats_failure :
  forall w e, outcome GetTokenStats w = Err e -> e = driver_error.
Proof.
  intros w e. unfold outcome, GetTokenStats, bind, time_Now, db_Query, db_QueryRow, ret.
  cbn [db env statements readings handed draws deliveries].
  destruct (store_refuses (env w) (statements w));
    [intro H; injection H as <-; reflexivity|].
  cbn [db env statements readings handed draws deliveries].
  destruct (store_refuses (env w) (S (statements w)));
    [intro H; injection H as <-; reflexivity|].
  unfold count_expired. discriminate.
Qed.

Ltac atomic_error :=
  first [ solve [intros [Hx|[]]; discriminate]
        | solve [intros [[Hx|[]]|[Hx|[]]]; discriminate]
        | solve [intros _; split; [auto|assumption]] ].

(** X17. The errors a caller can meet. No operation returns
    [ErrTokenAlreadyUsed], [ErrInvalidProvider] or the [sql.ErrNoRows] of
    the driver, neither as such nor wrapped: a used or unknown code or token
    is reported as [ErrInvalidToken]. [ErrRateLimitExceeded] comes from
    [RequestPasswordReset] only, [ErrTokenExpired] and [ErrInvalidToken]
    from the two verifications only, and the error of the notifier from the
    two requests only, returned as the notifier gave it. *)
Theorem errors_of_the_operations :
  forall op w e,
    failure op w = Some e ->
    ~ In ErrTokenAlreadyUsed (unwraps e) /\
    ~ In ErrInvalidProvider (unwraps e) /\
    ~ In sql_ErrNoRows (unwraps e) /\
    (In ErrRateLimitExceeded (unwraps e) ->
       e = ErrRateLimitExceeded /\ exists req, op = OpRequestPasswordReset req) /\
    (In ErrTokenExpired (unwraps e) \/ In ErrInvalidToken (unwraps e) ->
       (e = ErrTokenExpired \/ e = ErrInvalidToken) /\
       ((exists email code, op = OpVerifyPasswordResetCode email code) \/
        (exists token, op = OpVerifyEmailToken token))) /\
    (In delivery_error (unwraps e) ->
       e = delivery_error /\
       ((exists req, op = OpRequestPasswordReset req) \/
        (exists req, op = OpRequestEmailVerification req))).
Proof.
  intros op w e H.
  assert (Hcases :
    (e = errors_New "invalid email format: contains newline characters" \/
     e = ErrInvalidEmail \/ (exists msg, e = fmt_Errorf msg driver_error) \/
     (exists msg msg', e = fmt_Errorf msg (fmt_Errorf msg' entropy_error)) \/
     (exists msg, e = errors_New msg) \/ e = driver_error) \/
    (e = ErrRateLimitExceeded /\ exists req, op = OpRequestPasswordReset req) \/
    ((e = ErrTokenExpired \/ e = ErrInvalidToken) /\
     ((exists email code, op = OpVerifyPasswordResetCode email code) \/
      (exists token, op = OpVerifyEmailToken token))) \/
    (e = delivery_error /\
     ((exists req, op = OpRequestPasswordReset req) \/
      (exists req, op = OpRequestEmailVerification req)))).
  { destruct op as [req|email code|req|token| |]; cbn [failure] in H; unfold outcome, error_of in H.
    - rewrite RequestPasswordReset_run in H.
      destruct (validateEmailAddress (reset_Email req)) as [[]|e'] eqn:Hv.
      + cbv zeta in H.
        destruct (store_refuses (env w) (statements w));
          [injection H as <-; left; eauto 6|].
        destruct (3 <=? _); [injection H as <-; right; left; eauto|].
        destruct (rand_Int_draw (env w) (draws w));
          [|injection H as <-; left; eauto 7].
        destruct (store_refuses (env w) (S (statements w)));
          [injection H as <-; left; eauto 6|].
        cbn [fst] in H. destruct (notifier_fails (env w) (deliveries w));
          [|discriminate].
        injection H as <-. right. right. right. eauto.
      + injection H as <-. left. destruct (validation_errors _ _ Hv); auto.
    - rewrite VerifyPasswordResetCode_run in H.
      destruct (validateEmailAddress email) as [[]|e'] eqn:Hv.
      + destruct (String.eqb code ""); [injection H as <-; left; eauto 7|].
        cbv zeta in H.
        destruct (store_refuses (env w) (statements w));
          [injection H as <-; left; eauto 6|].
        destruct (select_latest_unused _ _ _) as [t|];
          [|injection H as <-; right; right; left; eauto 7].
        destruct (ExpiresAt t <? reading w 0);
          [injection H as <-; right; right; left; eauto 7|].
        destruct (negb _); [injection H as <-; right; right; left; eauto 7|].
        destruct (store_refuses (env w) (S (statements w)));
          [injection H as <-; left; eauto 6|discriminate].
      + injection H as <-. left. destruct (validation_errors _ _ Hv); auto.
    - rewrite RequestEmailVerification_run in H.
      destruct (validateEmailAddress (verif_Email req)) as [[]|e'] eqn:Hv.
      + destruct (verif_UserID req <=? 0); [injection H as <-; left; eauto 7|].
        destruct (rand_Read_draw (env w) (draws w));
          [|injection H as <-; left; eauto 7].
        cbv zeta in H.
        destruct (store_refuses (env w) (statements w));
          [injection H as <-; left; eauto 6|].
        cbn [fst] in H. destruct (notifier_fails (env w) (deliveries w));
          [|discriminate].
        injection H as <-. right. right. right. eauto.
      + injection H as <-. left. destruct (validation_errors _ _ Hv); auto.
    - rewrite VerifyEmailToken_run in H.
      destruct (String.eqb token ""); [injection H as <-; left; eauto 7|].
      cbv zeta in H.
      destruct (store_refuses (env w) (statements w));
        [injection H as <-; left; eauto 6|].
      destruct (select_unused_by_token _ _ _) as [t|];
        [|injection H as <-; right; right; left; eauto 7].
      destruct (ExpiresAt t <? reading w 0);
        [injection H as <-; right; right; left; eauto 7|].
      destruct (store_refuses (env w) (S (statements w)));
        [injection H as <-; left; eauto 6|].
      destruct (store_refuses (env w) (S (S (statements w))));
        [injection H as <-; left; eauto 6|discriminate].
    - rewrite CleanupExpiredTokens_run in H.
      destruct (store_refuses (env w) (statements w)); [|discriminate].
      injection H as <-. left. auto 7.
    - destruct (GetTokenStats w) as [[s|e'] w'] eqn:E; [discriminate|].
      injection H as <-. left. right. right. right. right. right.
      apply (GetTokenStats_failure w). unfold outcome. rewrite E. reflexivity. }
  destruct Hcases as [Hplain|[[-> Hop]|[[[->| ->] Hop]|[-> Hop]]]].
  - assert (Hnot : forall x, In x (unwraps e) ->
              x = e \/ x = driver_error \/ x = entropy_error \/
              exists msg, x = fmt_Errorf msg entropy_error).
    { destruct Hplain as [->|[->|[[msg ->]|[(msg & msg' & ->)|[[msg ->]| ->]]]]];
        cbn [unwraps In]; intros x Hx; intuition eauto. }
    assert (Hshape : forall x, In x (unwraps e) ->
              x <> ErrTokenAlreadyUsed /\ x <> ErrInvalidProvider /\
              x <> sql_ErrNoRows /\ x <> ErrRateLimitExceeded /\
              x <> ErrTokenExpired /\ x <> ErrInvalidToken /\ x <> delivery_error).
    { intros x Hx. destruct (Hnot x Hx) as [->|[->|[->|[msg ->]]]];
        try (repeat split; discriminate).
      destruct Hplain as [->|[->|[[msg ->]|[(msg & msg' & ->)|[[msg ->]| ->]]]]];
        repeat split; discriminate. }
    split; [intro Hx; apply Hshape in Hx; tauto|].
    split; [intro Hx; apply Hshape in Hx; tauto|].
    split; [intro Hx; apply Hshape in Hx; tauto|].
    split; [intro Hx; apply Hshape in Hx; tauto|].
    split; [intros [Hx|Hx]; apply Hshape in Hx; tauto|].
    intro Hx; apply Hshape in Hx; tauto.
  - cbn [unwraps In]. do 5 (split; [atomic_error|]). atomic_error.
  - cbn [unwraps In]. do 5 (split; [atomic_error|]). atomic_error.
  - cbn [unwraps In]. do 5 (split; [atomic_error|]). atomic_error.
  - cbn [unwraps In]. do 5 (split; [atomic_error|]). atomic_error.
Qed.

(** ** The creation of the service *)

Lemma validateConfig_spec :
  forall config,
    (fst (validateConfig config) = None <->
     FromEmail config <> "" /\ FromName config <> "" /\
     isValidEmail (FromEmail config) = true) /\
    (fst (validateConfig config) = None ->
     snd (validateConfig config) =
       mkConfig (Provider config) (SendGridAPIKey config) (SESRegion config)
                (SESAccessKeyID config) (SESSecretAccessKey config)
                (FromEmail config) (FromName config)
                (if RateLimitPerHour config <=? 0 then 100
                 else RateLimitPerHour config)
                (RequireTLS config)) /\
    (fst (validateConfig config) <> None -> snd (validateConfig config) = config).
Proof.
  intro config. unfold validateConfig.
  destruct (String.eqb (FromEmail config) "") eqn:He.
  { apply String.eqb_eq in He. cbn [fst snd]. split; [|split]; auto.
    - split; [discriminate|]. intros (H & _). contradiction.
    - discriminate. }
  destruct (String.eqb (FromName config) "") eqn:Hn.
  { apply String.eqb_eq in Hn. cbn [fst snd]. split; [|split]; auto.
    - split; [discriminate|]. intros (_ & H & _). contradiction.
    - discriminate. }
  apply String.eqb_neq in He. apply String.eqb_neq in Hn.
  destruct (isValidEmail (FromEmail config)) eqn:Hv; cbn [negb].
  - destruct (RateLimitPerHour config <=? 0); cbn [fst snd].
    + split; [tauto|]. split; [reflexivity|]. intro H. contradiction.
    + split; [tauto|]. split; [destruct config; reflexivity|]. intro H. contradiction.
  - cbn [fst snd]. split; [|split]; auto.
    + split; [discriminate|]. intros (_ & _ & H). discriminate.
    + discriminate.
Qed.

(** X18. When [NewEmailService] creates a service. It returns no error
    exactly when a configuration is given whose from-address passes
    [isValidEmail], whose from-name is not empty, and whose provider, in
    lower case, is "smtp", or "sendgrid" with an API key, or "ses" with a
    region, an access key and a secret key. The from-address is not passed
    through [sanitizeEmail]: a line break in it does not refuse the
    configuration. The service then is a non-nil pointer of the type of the
    provider. *)
Theorem NewEmailService_succeeds_exactly :
  forall (unicode_ToLower : string -> string) (config : option Config),
    let '(service, err, _) := NewEmailService unicode_ToLower config in
    (err = None <->
     exists c,
       config = Some c /\
       FromEmail c <> "" /\ FromName c <> "" /\ isValidEmail (FromEmail c) = true /\
       let provider := strings_ToLower unicode_ToLower (Provider c) in
       (provider = "sendgrid" /\ SendGridAPIKey c <> "") \/
       (provider = "ses" /\ SESRegion c <> "" /\
        SESAccessKeyID c <> "" /\ SESSecretAccessKey c <> "") \/
       provider = "smtp") /\
    (err = None ->
     exists c,
       config = Some c /\
       let provider := strings_ToLower unicode_ToLower (Provider c) in
       (provider = "sendgrid" /\
        service = SendGrid (Some (mkSendGridService (SendGridAPIKey c) (FromEmail c)
                                    (FromName c) (30 * Second)))) \/
       (provider = "ses" /\
        service = SES (Some (mkSESService (SESRegion c) (SESAccessKeyID c)
                               (SESSecretAccessKey c) (FromEmail c) (FromName c)))) \/
       (provider = "smtp" /\
        service = SMTP (Some (mkSMTPService "localhost" "587" "" "" (FromEmail c)
                                (FromName c) (RequireTLS c))))).
Proof.
  intros lower [c|]; cbn [NewEmailService].
  2:{ split; [|discriminate]. split; [discriminate|]. intros (c & H & _). discriminate. }
  destruct (validateConfig_spec c) as (Hok & Hafter & _).
  destruct (validateConfig c) as [[e|] c'] eqn:Hval; cbn [fst snd] in *.
  { split; [|discriminate]. split; [discriminate|].
    intros (c0 & E & He & Hn & Hv & _). injection E as <-.
    assert (H : Some e = None) by (apply Hok; auto). discriminate. }
  specialize (Hafter eq_refl). destruct Hok as [Hok _]. specialize (Hok eq_refl).
  destruct Hok as (He & Hn & Hv).
  assert (Hp : Provider c' = Provider c) by (rewrite Hafter; reflexivity).
  assert (Hk : SendGridAPIKey c' = SendGridAPIKey c) by (rewrite Hafter; reflexivity).
  assert (Hr : SESRegion c' = SESRegion c) by (rewrite Hafter; reflexivity).
  assert (Ha : SESAccessKeyID c' = SESAccessKeyID c) by (rewrite Hafter; reflexivity).
  assert (Hs : SESSecretAccessKey c' = SESSecretAccessKey c)
    by (rewrite Hafter; reflexivity).
  assert (Hfe : FromEmail c' = FromEmail c) by (rewrite Hafter; reflexivity).
  assert (Hfn : FromName c' = FromName c) by (rewrite Hafter; reflexivity).
  assert (Htls : RequireTLS c' = RequireTLS c) by (rewrite Hafter; reflexivity).
  clear Hafter Hval. cbv zeta. rewrite Hp.
  unfold ProviderSendGrid, ProviderSES, ProviderSMTP.
  destruct (String.eqb (strings_ToLower lower (Provider c)) "sendgrid") eqn:E1.
  { apply String.eqb_eq in E1. unfold NewSendGridService. rewrite Hk, Hfe, Hfn.
    destruct (String.eqb (SendGridAPIKey c) "") eqn:Ek; cbn [option_map].
    - apply String.eqb_eq in Ek. split; [|discriminate]. split; [discriminate|].
      intros (c0 & E & _ & _ & _ & [[_ H]|[[H _]|H]]); injection E as <-;
        [contradiction|rewrite E1 in H; discriminate|rewrite E1 in H; discriminate].
    - apply String.eqb_neq in Ek. split.
      + split; [intros _|reflexivity]. exists c. repeat split; auto.
      + intros _. exists c. split; [reflexivity|]. left. auto. }
  destruct (String.eqb (strings_ToLower lower (Provider c)) "ses") eqn:E2.
  { apply String.eqb_eq in E2. unfold NewSESService. rewrite Hr, Ha, Hs, Hfe, Hfn.
    destruct (String.eqb (SESRegion c) "") eqn:Er; cbn [option_map].
    - apply String.eqb_eq in Er. split; [|discriminate]. split; [discriminate|].
      intros (c0 & E & _ & _ & _ & [[H _]|[(_ & H & _)|H]]); injection E as <-;
        [rewrite E2 in H; discriminate|contradiction|rewrite E2 in H; discriminate].
    - apply String.eqb_neq in Er.
      destruct (String.eqb (SESAccessKeyID c) "") eqn:Eak; cbn [orb option_map].
      + apply String.eqb_eq in Eak. split; [|discriminate]. split; [discriminate|].
        intros (c0 & E & _ & _ & _ & [[H _]|[(_ & _ & H & _)|H]]); injection E as <-;
          [rewrite E2 in H; discriminate|contradiction|rewrite E2 in H; discriminate].
      + apply String.eqb_neq in Eak.
        destruct (String.eqb (SESSecretAccessKey c) "") eqn:Esk; cbn [option_map].
        * apply String.eqb_eq in Esk. split; [|discriminate]. split; [discriminate|].
          intros (c0 & E & _ & _ & _ & [[H _]|[(_ & _ & _ & H)|H]]); injection E as <-;
            [rewrite E2 in H; discriminate|contradiction|rewrite E2 in H; discriminate].
        * apply String.eqb_neq in Esk. split.
          -- split; [intros _|reflexivity]. exists c.
             split; [reflexivity|]. split; [exact He|]. split; [exact Hn|].
             split; [exact Hv|]. right. left. auto.
          -- intros _. exists c. split; [reflexivity|]. right. left. auto. }
  destruct (String.eqb (strings_ToLower lower (Provider c)) "smtp") eqn:E3.
  { apply String.eqb_eq in E3. unfold NewSMTPService. rewrite Hfe, Hfn, Htls.
    cbn [option_map]. split.
    - split; [intros _|reflexivity]. exists c.
      split; [reflexivity|]. split; [exact He|]. split; [exact Hn|].
      split; [exact Hv|]. right. right. exact E3.
    - intros _. exists c. split; [reflexivity|]. right. right. auto. }
  split; [|discriminate]. split; [discriminate|].
  apply String.eqb_neq in E1. apply String.eqb_neq in E2. apply String.eqb_neq in E3.
  intros (c0 & E & _ & _ & _ & [[H _]|[[H _]|H]]); injection E as <-; contradiction.
Qed.

(** X19. What a refused creation leaves behind. When the constructor of the
    provider refuses the configuration, [NewEmailService] returns the error
    together with an interface value that is not nil, a nil pointer of the
    type of the provider: only the error tells the caller that no service
    was created. And whenever the common checks have passed, the rate limit
    behind the pointer is positive afterwards, 100 in place of a value that
    was not, also when the provider is then refused; the other fields are
    never written. *)
Theorem NewEmailService_refusal_and_the_pointer :
  forall (unicode_ToLower : string -> string) (c : Config),
    let '(service, err, after) := NewEmailService unicode_ToLower (Some c) in
    let provider := strings_ToLower unicode_ToLower (Provider c) in
    (fst (validateConfig c) = None -> err <> None ->
     (provider = "sendgrid" -> service = SendGrid None) /\
     (provider = "ses" -> service = SES None) /\
     (provider <> "sendgrid" -> provider <> "ses" -> service = nil_EmailService)) /\
    (fst (validateConfig c) <> None -> service = nil_EmailService /\ after = Some c) /\
    (fst (validateConfig c) = None ->
     after = Some (mkConfig (Provider c) (SendGridAPIKey c) (SESRegion c)
                     (SESAccessKeyID c) (SESSecretAccessKey c)
                     (FromEmail c) (FromName c)
                     (if RateLimitPerHour c <=? 0 then 100 else RateLimitPerHour c)
                     (RequireTLS c))).
Proof.
  intros lower c. cbn [NewEmailService].
  destruct (validateConfig_spec c) as (_ & Hafter & Hsame).
  destruct (validateConfig c) as [[e|] c'] eqn:Hval; cbn [fst snd] in *.
  { split; [discriminate|]. split; [|discriminate].
    intros _. rewrite Hsame by discriminate. auto. }
  specialize (Hafter eq_refl).
  assert (Hp : Provider c' = Provider c) by (rewrite Hafter; reflexivity).
  cbv zeta. rewrite Hp. unfold ProviderSendGrid, ProviderSES, ProviderSMTP.
  destruct (String.eqb (strings_ToLower lower (Provider c)) "sendgrid") eqn:E1.
  { apply String.eqb_eq in E1. unfold NewSendGridService.
    destruct (String.eqb (SendGridAPIKey c') ""); cbn [option_map].
    - split; [|split; [intro H; contradiction|intros _; congruence]].
      intros _ _. split; [reflexivity|]. split; [rewrite E1; discriminate|].
      intros H. contradiction.
    - split; [|split; [intro H; contradiction|intros _; congruence]].
      intros _ H. contradiction. }
  destruct (String.eqb (strings_ToLower lower (Provider c)) "ses") eqn:E2.
  { apply String.eqb_eq in E2. apply String.eqb_neq in E1. unfold NewSESService.
    destruct (String.eqb (SESRegion c') ""); cbn [option_map].
    - split; [|split; [intro H; contradiction|intros _; congruence]].
      intros _ _. split; [intro H; contradiction|]. split; [reflexivity|].
      intros _ H. contradiction.
    - destruct (_ || _); cbn [option_map].
      + split; [|split; [intro H; contradiction|intros _; congruence]].
        intros _ _. split; [intro H; contradiction|]. split; [reflexivity|].
        intros _ H. contradiction.
      + split; [|split; [intro H; contradiction|intros _; congruence]].
        intros _ H. contradiction. }
  apply String.eqb_neq in E1. apply String.eqb_neq in E2.
  destruct (String.eqb (strings_ToLower lower (Provider c)) "smtp") eqn:E3.
  { unfold NewSMTPService. cbn [option_map].
    split; [|split; [intro H; contradiction|intros _; congruence]].
    intros _ H. contradiction. }
  split; [|split; [intro H; contradiction|intros _; congruence]].
  intros _ _. split; [intro H; contradiction|]. split; [intro H; contradiction|].
  reflexivity.
Qed.

Example TestNewEmailService :
  let err config := snd (fst (NewEmailService (fun s => s) config)) in
  let base := mkConfig "" "" "" "" "" "test@example.com" "Test Service" 0 false in
  let provider p :=
    mkConfig p "" (SESRegion base) "" "" (FromEmail base) (FromName base) 0 false in
  err None = Some (plainly (errors_New "email config cannot be nil")) /\
  err (Some (mkConfig "invalid" "" "" "" "" "test@example.com" "Test" 0 false))
    = Some (invalid_provider "invalid") /\
  err (Some (mkConfig "smtp" "" "" "" "" "" "Test" 0 false))
    = Some (plainly (fmt_Errorf "invalid email config"
                       (errors_New "from email is required"))) /\
  err (Some (mkConfig "smtp" "" "" "" "" "test@example.com" "" 0 false))
    = Some (plainly (fmt_Errorf "invalid email config"
                       (errors_New "from name is required"))) /\
  err (Some (mkConfig "smtp" "" "" "" "" "invalid-email" "Test" 0 false))
    = Some (plainly (fmt_Errorf "invalid email config"
                       (errors_New "from email is invalid"))) /\
  err (Some (provider "smtp")) = None /\
  err (Some (provider "SMTP")) = None /\
  err (Some (provider "sendgrid"))
    = Some (plainly (errors_New "SendGrid API key is required")) /\
  err (Some (mkConfig "ses" "" "us-east-1" "" "" "test@example.com" "Test Service"
               0 false))
    = Some (plainly (errors_New "SES credentials are required")).
Proof. vm_compute. repeat split. Qed.

Example from_address_with_line_break :
  fst (validateConfig
         (mkConfig "smtp" "" "" "" ""
            (String.append "noreply" (String.append LF "Bcc: all@example.com"))
            "Test Service" 0 false)) = None.
Proof. vm_compute. reflexivity. Qed.

(** ** The instant of expiry *)

Lemma GetTokenStats_run :
  forall w, store_accepts w 2 ->
    outcome GetTokenStats w =
      Ok (mkTokenStats
            (count_active_by_type (reading w 0) (db w))
            (Z.of_nat (List.length (filter (fun t => ExpiresAt t <=? reading w 1)
                                      (email_tokens (db w)))))).
Proof.
  intros w Hs. pose proof (store_accepts_1 _ _ Hs) as Hs1. apply store_accepts_0 in Hs.
  rewrite <- reading_0, <- reading_1.
  unfold outcome, GetTokenStats, bind, time_Now, db_Query, db_QueryRow, ret.
  cbn [db env statements readings handed draws deliveries].
  rewrite Hs. cbn [db env statements readings handed draws deliveries].
  rewrite Hs1. reflexivity.
Qed.

(** X20. The instant of expiry is read in three ways. For a record whose
    expiry is the very reading of the clock: [VerifyPasswordResetCode] still
    accepts its code, [CleanupExpiredTokens] keeps it, and [GetTokenStats]
    counts it as expired and not as active. *)
Theorem instant_of_expiry_is_read_three_ways :
  forall d t email code,
    validateEmailAddress email = Ok tt -> code <> "" ->
    select_latest_unused email TokenTypePasswordReset d = Some t ->
    bytes_of_string (Token t) = hashToken code ->
    (forall w, db w = d -> store_accepts w 2 -> reading w 0 = ExpiresAt t ->
       outcome (VerifyPasswordResetCode email code) w = Ok t) /\
    (forall w, db w = d -> store_accepts w 1 -> reading w 0 = ExpiresAt t ->
       outcome CleanupExpiredTokens w = Ok tt /\
       In t (email_tokens (db (after CleanupExpiredTokens w)))) /\
    (forall w, db w = d -> store_accepts w 2 ->
       reading w 0 = ExpiresAt t -> reading w 1 = ExpiresAt t ->
       exists stats,
         outcome GetTokenStats w = Ok stats /\
         expired_tokens stats =
           Z.of_nat (List.length (filter (fun r => ExpiresAt r <=? ExpiresAt t)
                                    (email_tokens d))) /\
         In t (filter (fun r => ExpiresAt r <=? ExpiresAt t) (email_tokens d)) /\
         0 < expired_tokens stats /\
         active_tokens stats = count_active_by_type (ExpiresAt t) d /\
         forall ty, ~ In t (filter (active_of ty (ExpiresAt t)) (email_tokens d))).
Proof.
  intros d t email code Hv Hc Hsel Hh.
  destruct (select_latest_unused_some _ _ _ _ Hsel) as (Hin & He & Hty & Hu & _).
  split; [|split].
  - intros w Hd Hs Hr.
    apply (verify_reset_match w email code t Hv Hc Hs); [congruence|lia|symmetry; exact Hh].
  - intros w Hd Hs Hr. unfold outcome, after.
    rewrite CleanupExpiredTokens_run, (store_accepts_0 _ _ Hs).
    split; [reflexivity|]. cbn [snd db delete_swept with_tokens email_tokens].
    apply filter_In. split; [congruence|]. apply negb_true_iff.
    destruct (swept _ _ t) eqn:E; [exfalso|reflexivity].
    apply swept_spec in E. destruct E as [E|[E _]]; [lia|congruence].
  - intros w Hd Hs Hr0 Hr1. eexists. split; [apply GetTokenStats_run; exact Hs|].
    cbn [expired_tokens active_tokens]. rewrite Hr0, Hr1, Hd.
    assert (Hexp : In t (filter (fun r => ExpiresAt r <=? ExpiresAt t) (email_tokens d))).
    { apply filter_In. split; [exact Hin|]. apply Z.leb_le. lia. }
    split; [reflexivity|]. split; [exact Hexp|]. split.
    + destruct (filter (fun r => ExpiresAt r <=? ExpiresAt t) (email_tokens d));
        [destruct Hexp|]. cbn [List.length]. lia.
    + split; [reflexivity|]. intros ty Ha. apply filter_In in Ha.
      destruct Ha as [_ Ha]. unfold active_of in Ha.
      rewrite Z.ltb_irrefl, andb_false_r in Ha. discriminate.
Qed.

(** ** Nothing of the draw is lost *)

Lemma numeral_from_append :
  forall a b acc,
    numeral_from (String.append a b) acc = numeral_from b (numeral_from a acc).
Proof. induction a as [|c a IH]; intros b acc; simpl; [reflexivity|apply IH]. Qed.

Lemma numeral_from_zeros : forall k, numeral_from (zeros k) 0 = 0.
Proof. induction k as [|k IH]; simpl; [reflexivity|exact IH]. Qed.

Lemma digit_char_value :
  forall d, 0 <= d < 10 -> byte_of_ascii (digit_char d) - 48 = d.
Proof.
  intros d Hd. unfold digit_char. rewrite byte_ascii_byte by (unfold is_byte; lia). lia.
Qed.

Lemma decimal_from_value :
  forall fuel n acc,
    0 <= n < 2 ^ Z.of_nat fuel ->
    exists ds,
      decimal_from fuel n acc = String.append ds acc /\
      forall a, numeral_from ds a = a * 10 ^ Z.of_nat (String.length ds) + n.
Proof.
  induction fuel as [|fuel IH]; intros n acc Hn.
  - exists "". split; [reflexivity|]. intro a. simpl in *. lia.
  - cbn [decimal_from].
    assert (Hd : 0 <= n mod 10 < 10) by (apply Z.mod_pos_bound; lia).
    destruct (n <? 10) eqn:Hlt.
    + apply Z.ltb_lt in Hlt. exists (String (digit_char (n mod 10)) "").
      split; [reflexivity|]. intro a. cbn [numeral_from String.length].
      rewrite digit_char_value by exact Hd. rewrite Z.mod_small by lia.
      change (10 ^ Z.of_nat 1) with 10. lia.
    + apply Z.ltb_ge in Hlt.
      rewrite Nat2Z.inj_succ, Z.pow_succ_r in Hn by lia.
      destruct (IH (n / 10) (String (digit_char (n mod 10)) acc)) as (ds & E & Hval).
      { split; [apply Z.div_pos; lia|]. apply Z.div_lt_upper_bound; lia. }
      exists (String.append ds (String (digit_char (n mod 10)) "")). split.
      * rewrite E, append_assoc. reflexivity.
      * intro a. rewrite numeral_from_append, Hval. cbn [numeral_from].
        rewrite digit_char_value by exact Hd.
        rewrite append_length. cbn [String.length].
        rewrite Nat.add_1_r, Nat2Z.inj_succ, Z.pow_succ_r by lia.
        pose proof (Z.div_mod n 10 ltac:(lia)). lia.
Qed.

Lemma numeral_Sprintf_0d :
  forall width n, 0 <= n -> numeral (Sprintf_0d width n) = n.
Proof.
  intros width n Hn. unfold Sprintf_0d, numeral.
  assert (Hs : (n <? 0) = false) by (apply Z.ltb_ge; lia).
  rewrite Hs, Z.abs_eq by lia. cbn [String.append String.length].
  rewrite numeral_from_append, numeral_from_zeros. unfold decimal.
  destruct (decimal_from_value (S (Z.to_nat (Z.log2 n))) n "") as (ds & E & Hval).
  { split; [lia|]. rewrite Nat2Z.inj_succ, Z2Nat.id by apply Z.log2_nonneg.
    destruct (Z.eq_dec n 0) as [->|Hne]; [reflexivity|].
    pose proof (Z.log2_spec n ltac:(lia)) as Hl. lia. }
  rewrite E, append_nil_r, Hval. lia.
Qed.

Lemma sextet_enc : forall i, 0 <= i < 64 -> sextet (enc i) = i /\ enc i <> "="%char.
Proof.
  intros i Hi.
  assert (H : forallb (fun n => (sextet (enc (Z.of_nat n)) =? Z.of_nat n) &&
                                negb (Ascii.eqb (enc (Z.of_nat n)) "="))
                      (seq 0 64) = true) by (vm_compute; reflexivity).
  rewrite forallb_forall in H. specialize (H (Z.to_nat i)).
  rewrite Z2Nat.id in H by lia.
  destruct (andb_prop _ _ (H ltac:(apply in_seq; lia))) as [H1 H2].
  apply Z.eqb_eq in H1. apply negb_true_iff, Ascii.eqb_neq in H2. auto.
Qed.

Lemma enc_inj : forall i j, 0 <= i < 64 -> 0 <= j < 64 -> enc i = enc j -> i = j.
Proof.
  intros i j Hi Hj E. destruct (sextet_enc i Hi) as [<- _].
  destruct (sextet_enc j Hj) as [<- _]. now rewrite E.
Qed.

Ltac sextets :=
  repeat match goal with
         | H : is_byte _ |- _ => unfold is_byte in H
         end;
  try (apply Z.div_lt_upper_bound; lia);
  Z.div_mod_to_equations; lia.

Lemma EncodeToString_inj :
  forall n l1 l2,
    (List.length l1 < 3 * n)%nat ->
    Forall is_byte l1 -> Forall is_byte l2 ->
    EncodeToString l1 = EncodeToString l2 -> l1 = l2.
Proof.
  induction n as [|n IH]; intros l1 l2 Hn H1 H2 E; [lia|].
  destruct l1 as [|a [|b [|c r1]]]; destruct l2 as [|a' [|b' [|c' r2]]];
    unfold EncodeToString in E; fold EncodeToString in E;
    try discriminate; try reflexivity;
    repeat match goal with
           | H : Forall is_byte (_ :: _) |- _ => inversion H; clear H; subst
           end.
  - injection E as E1 E2.
    apply enc_inj in E1; [|sextets|sextets]. apply enc_inj in E2; [|sextets|sextets].
    f_equal. sextets.
  - injection E as _ _ E3. exfalso.
    refine (proj2 (sextet_enc ((b' mod 16) * 4) _) (eq_sym E3)). sextets.
  - injection E as _ _ E3 _. exfalso.
    refine (proj2 (sextet_enc ((b' mod 16) * 4 + c' / 64) _) (eq_sym E3)). sextets.
  - injection E as _ _ E3. exfalso.
    refine (proj2 (sextet_enc ((b mod 16) * 4) _) E3). sextets.
  - injection E as E1 E2 E3.
    apply enc_inj in E1; [|sextets|sextets]. apply enc_inj in E2; [|sextets|sextets].
    apply enc_inj in E3; [|sextets|sextets].
    assert (a = a') by sextets. assert (b = b') by sextets. congruence.
  - injection E as _ _ _ E4 _. exfalso.
    refine (proj2 (sextet_enc (c' mod 64) _) (eq_sym E4)). sextets.
  - injection E as _ _ E3 _. exfalso.
    refine (proj2 (sextet_enc ((b mod 16) * 4 + c / 64) _) E3). sextets.
  - injection E as _ _ _ E4 _. exfalso.
    refine (proj2 (sextet_enc (c mod 64) _) E4). sextets.
  - injection E as E1 E2 E3 E4 E5.
    apply enc_inj in E1; [|sextets|sextets]. apply enc_inj in E2; [|sextets|sextets].
    apply enc_inj in E3; [|sextets|sextets]. apply enc_inj in E4; [|sextets|sextets].
    assert (a = a') by sextets. assert (b = b') by sextets. assert (c = c') by sextets.
    subst. f_equal. f_equal. f_equal.
    apply (IH r1 r2); auto. cbn [List.length] in Hn. lia.
Qed.

Lemma entropy_buffer_bytes :
  forall bs, List.length (entropy_buffer bs) = 32%nat /\ Forall is_byte (entropy_buffer bs).
Proof.
  intro bs. unfold entropy_buffer. split; [apply firstn_padded_length|].
  apply Forall_forall. intros x Hx.
  assert (Hx' : In x (firstn 32 (map (fun b => b mod 256) bs ++ repeat 0 32) ++
                      skipn 32 (map (fun b => b mod 256) bs ++ repeat 0 32)))
    by (apply in_or_app; left; exact Hx).
  rewrite firstn_skipn in Hx'. clear Hx. rename Hx' into Hx. apply in_app_or in Hx.
  destruct Hx as [Hx|Hx].
  - apply in_map_iff in Hx. destruct Hx as (b & <- & _). unfold is_byte.
    apply Z.mod_pos_bound. lia.
  - apply repeat_spec in Hx. subst x. unfold is_byte. lia.
Qed.

(** X21. Nothing of the draw is lost on the way to the user. The code
    [generateNumericCode] returns is the decimal numeral of the number drawn,
    so two draws that give the same code are the same number; and the token
    [generateSecureToken] returns determines the 32 bytes it encodes, so two
    buffers that give the same token are the same bytes. A six-digit code
    therefore takes each of its 10^6 values for exactly one draw. *)
Theorem generated_values_determine_the_draw :
  (forall L w n code,
     rand_Int_draw (env w) (draws w) = Some n -> 0 <= n ->
     outcome (generateNumericCode L) w = Ok code ->
     numeral code = n) /\
  (forall L w w' n n' code,
     rand_Int_draw (env w) (draws w) = Some n -> 0 <= n ->
     rand_Int_draw (env w') (draws w') = Some n' -> 0 <= n' ->
     outcome (generateNumericCode L) w = Ok code ->
     outcome (generateNumericCode L) w' = Ok code ->
     n = n') /\
  (forall w w' bs bs' token,
     rand_Read_draw (env w) (draws w) = Some bs ->
     rand_Read_draw (env w') (draws w') = Some bs' ->
     outcome generateSecureToken w = Ok token ->
     outcome generateSecureToken w' = Ok token ->
     entropy_buffer bs = entropy_buffer bs').
Proof.
  assert (Hnum : forall L w n code,
            rand_Int_draw (env w) (draws w) = Some n -> 0 <= n ->
            outcome (generateNumericCode L) w = Ok code -> numeral code = n).
  { intros L w n code Hd Hn H.
    unfold outcome, generateNumericCode in H.
    destruct ((L <=? 0) || (10 <? L)); [discriminate|].
    unfold bind, on_error, rand_Int, ret in H. rewrite Hd in H.
    cbn [fst] in H. injection H as <-. now apply numeral_Sprintf_0d. }
  assert (Htok : forall w bs token,
            rand_Read_draw (env w) (draws w) = Some bs ->
            outcome generateSecureToken w = Ok token ->
            token = EncodeToString (entropy_buffer bs)).
  { intros w bs token Hd H.
    unfold outcome, generateSecureToken, bind, on_error, rand_Read, ret in H.
    rewrite Hd in H. injection H as <-. reflexivity. }
  split; [exact Hnum|]. split.
  - intros L w w' n n' code Hd Hn Hd' Hn' H H'.
    rewrite <- (Hnum L w n code Hd Hn H). exact (Hnum L w' n' code Hd' Hn' H').
  - intros w w' bs bs' token Hd Hd' H H'.
    pose proof (Htok w bs token Hd H) as E. pose proof (Htok w' bs' token Hd' H') as E'.
    destruct (entropy_buffer_bytes bs) as [Hl Hb].
    destruct (entropy_buffer_bytes bs') as [_ Hb'].
    apply (EncodeToString_inj 11); auto; [lia|congruence].
Qed.

(** ** The calls of the notifier *)


(** X22. Who is written to. A run of an operation hands at most one message
    to the notifier, appended to those handed before, and only the two
    requests do: the verifications, the cleanup and the statistics never
    send. The message goes to the address of the request, which has passed
    [validateEmailAddress] and so holds no line break. *)
Theorem notifier_is_called_only_by_requests :
  forall op w,
    handed (run op w) = handed w \/
    exists d,
      handed (run op w) = handed w ++ [d] /\
      ((exists req, op = OpRequestPasswordReset req /\
                    recipient d = reset_Email req /\
                    validateEmailAddress (reset_Email req) = Ok tt) \/
       (exists req, op = OpRequestEmailVerification req /\
                    recipient d = verif_Email req /\
                    validateEmailAddress (verif_Email req) = Ok tt)).
Proof.
  intros op w. destruct op as [req|email code|req|token| |]; cbn [run]; unfold after.
  - rewrite RequestPasswordReset_run.
    destruct (validateEmailAddress (reset_Email req)) as [[]|e] eqn:Hv;
      [|left; reflexivity].
    cbv zeta. destruct (store_refuses (env w) (statements w)); [left; reflexivity|].
    destruct (3 <=? _); [left; reflexivity|].
    destruct (rand_Int_draw (env w) (draws w)) as [n|]; [|left; reflexivity].
    destruct (store_refuses (env w) (S (statements w))); [left; reflexivity|].
    right. eexists. split; [reflexivity|]. left. exists req. auto.
  - left. rewrite VerifyPasswordResetCode_run.
    destruct (validateEmailAddress email) as [[]|e]; [|reflexivity].
    destruct (String.eqb code ""); [reflexivity|].
    cbv zeta. destruct (store_refuses (env w) (statements w)); [reflexivity|].
    destruct (select_latest_unused _ _ _) as [t|]; [|reflexivity].
    destruct (ExpiresAt t <? reading w 0); [reflexivity|].
    destruct (negb _); [reflexivity|].
    destruct (store_refuses (env w) (S (statements w))); reflexivity.
  - rewrite RequestEmailVerification_run.
    destruct (validateEmailAddress (verif_Email req)) as [[]|e] eqn:Hv;
      [|left; reflexivity].
    destruct (verif_UserID req <=? 0); [left; reflexivity|].
    destruct (rand_Read_draw (env w) (draws w)) as [bs|]; [|left; reflexivity].
    cbv zeta. destruct (store_refuses (env w) (statements w)); [left; reflexivity|].
    right. eexists. split; [reflexivity|]. right. exists req. auto.
  - left. rewrite VerifyEmailToken_run.
    destruct (String.eqb token ""); [reflexivity|].
    cbv zeta. destruct (store_refuses (env w) (statements w)); [reflexivity|].
    destruct (select_unused_by_token _ _ _) as [t|]; [|reflexivity].
    destruct (ExpiresAt t <? reading w 0); [reflexivity|].
    destruct (store_refuses (env w) (S (statements w))); [reflexivity|].
    destruct (store_refuses (env w) (S (S (statements w)))); reflexivity.
  - left. rewrite CleanupExpiredTokens_run.
    destruct (store_refuses (env w) (statements w)); reflexivity.
  - left. exact (proj2 (GetTokenStats_store w)).
Qed.

(** ** The configuration *)

Lemma getEnvOrDefault_nonempty :
  forall os_Getenv key defaultValue,
    defaultValue <> "" -> config.getEnvOrDefault os_Getenv key defaultValue <> "".
Proof.
  intros os_Getenv key defaultValue Hd. unfold config.getEnvOrDefault.
  destruct (String.eqb (os_Getenv key) "") eqn:E; cbn [negb]; [exact Hd|].
  now apply String.eqb_neq.
Qed.

Lemma contains_char_append :
  forall a b c,
    strings_Contains (String.append a b) (String c "") =
    strings_Contains a (String c "") || strings_Contains b (String c "").
Proof.
  induction a as [|x a IH]; intros b c.
  - cbn [String.append]. destruct b; reflexivity.
  - cbn [String.append]. rewrite !contains_char_cons, IH, orb_assoc. reflexivity.
Qed.

Lemma split_unique :
  forall sep a a' b b',
    strings_Contains a (String sep "") = false ->
    strings_Contains a' (String sep "") = false ->
    String.append a (String sep b) = String.append a' (String sep b') ->
    a = a' /\ b = b'.
Proof.
  intros sep a. induction a as [|x a IH]; intros [|x' a'] b b' Ha Ha' E;
    cbn [String.append] in E.
  - injection E as ->. auto.
  - injection E as <- _. rewrite contains_char_cons, Ascii.eqb_refl in Ha'.
    discriminate.
  - injection E as -> _. rewrite contains_char_cons, Ascii.eqb_refl in Ha.
    discriminate.
  - injection E as <- E. rewrite contains_char_cons in Ha, Ha'.
    apply orb_false_elim in Ha. apply orb_false_elim in Ha'.
    destruct (IH a' b b') as [-> ->]; tauto.
Qed.

(** X23. The configuration the package reads. [GetAppConfig] loads the
    configuration at its first call and returns that one ever after, whatever
    the environment has become; each field is the value of its variable when
    that is not empty and the default otherwise, so no field is empty. The
    from-address [noreply@domain] made of it passes [validateEmailAddress]
    exactly when the domain holds no [@], no line break and none of the
    blocked strings. *)
Theorem configuration_is_loaded_once_and_its_from_address :
  forall (os_Getenv later : string -> string) (appConfig : option config.AppConfig),
    let '(c, loaded) := config.GetAppConfig os_Getenv appConfig in
    config.GetAppConfig later loaded = (c, loaded) /\
    (appConfig = None -> c = config.loadAppConfig os_Getenv) /\
    Forall (fun field => field <> "") (config.fields (config.loadAppConfig os_Getenv)) /\
    (let domain := config.EmailFromDomain (config.loadAppConfig os_Getenv) in
     validateEmailAddress
       (config.GetEmailFromAddress (config.loadAppConfig os_Getenv)) = Ok tt <->
     strings_Contains domain "@" = false /\
     strings_Contains domain LF = false /\ strings_Contains domain CR = false /\
     forall blocked, In blocked blockedDomains ->
       strings_Contains domain blocked = false).
Proof.
  intros os_Getenv later appConfig.
  assert (Hfields : Forall (fun field => field <> "")
                      (config.fields (config.loadAppConfig os_Getenv))).
  { unfold config.fields, config.loadAppConfig.
    cbn [config.AppName config.AppDisplayName config.CompanyName config.SupportEmail
         config.AppBaseURL config.DashboardURL config.VerificationURL
         config.SecurityURL config.EmailFromDomain config.EmailFromName
         config.EmailMailer config.Description config.Version].
    repeat constructor; apply getEnvOrDefault_nonempty; discriminate. }
  assert (Hfrom :
    let domain := config.EmailFromDomain (config.loadAppConfig os_Getenv) in
    validateEmailAddress
      (config.GetEmailFromAddress (config.loadAppConfig os_Getenv)) = Ok tt <->
    strings_Contains domain "@" = false /\
    strings_Contains domain LF = false /\ strings_Contains domain CR = false /\
    forall blocked, In blocked blockedDomains ->
      strings_Contains domain blocked = false).
  { intro domain.
    assert (Hd : domain <> "")
      by (apply getEnvOrDefault_nonempty; discriminate).
    unfold config.GetEmailFromAddress. fold domain.
    change (String.append "noreply@" domain)
      with (String.append "noreply" (String.append "@" domain)).
    unfold validateEmailAddress, sanitizeEmail.
    unfold LF, CR. rewrite !contains_char_append.
    change (strings_Contains "noreply" (String (ascii_of_nat 10) "")) with false.
    change (strings_Contains "noreply" (String (ascii_of_nat 13) "")) with false.
    change (strings_Contains "@" (String (ascii_of_nat 10) "")) with false.
    change (strings_Contains "@" (String (ascii_of_nat 13) "")) with false.
    cbn [orb]. split.
    - destruct (strings_Contains domain (String (ascii_of_nat 10) "")) eqn:Hlf;
        [discriminate|].
      destruct (strings_Contains domain (String (ascii_of_nat 13) "")) eqn:Hcr;
        [discriminate|]. cbn [orb].
      destruct (isValidEmail _) eqn:Hv; [|discriminate]. intros _.
      apply isValidEmail_spec in Hv.
      destruct Hv as (local & dom & E & Hl & Hdn & H1 & H2 & Hb).
      destruct (split_unique "@" "noreply" local domain dom) as [_ Hdom];
        [reflexivity|exact H1|exact E|].
      subst dom. auto.
    - intros (Hat & Hlf & Hcr & Hb). rewrite Hlf, Hcr. cbn [orb].
      assert (Hv : isValidEmail (String.append "noreply" (String.append "@" domain))
                   = true).
      { apply isValidEmail_spec. exists "noreply", domain.
        repeat split; auto. discriminate. }
      rewrite Hv. reflexivity. }
  destruct appConfig as [c|]; cbn [config.GetAppConfig].
  - split; [reflexivity|]. split; [discriminate|]. split; [exact Hfields|exact Hfrom].
  - split; [reflexivity|]. split; [reflexivity|]. split; [exact Hfields|exact Hfrom].
Qed.

(** ** The further properties on the sample run *)

Lemma verify_reset_success_is_sound_witness :
  outcome (VerifyPasswordResetCode Sample.address "000042") Sample.one_code
    = Ok Sample.first_row /\
  bytes_of_string (Token Sample.first_row) = hashToken "000042" /\
  In (mark_used Sample.first_row)
     (email_tokens (db (after (VerifyPasswordResetCode Sample.address "000042")
                              Sample.one_code))).
Proof.
  assert (H : outcome (VerifyPasswordResetCode Sample.address "000042") Sample.one_code
              = Ok Sample.first_row) by (vm_compute; reflexivity).
  destruct (verify_reset_success_is_sound _ _ _ _ H) as (_ & _ & _ & _ & Hh & Hin).
  split; [exact H|]. split; [exact Hh|exact Hin].
Defined.

Lemma verify_email_success_is_sound_witness :
  outcome (VerifyEmailToken Sample.link_token) Sample.link_sent = Ok Sample.link_row /\
  bytes_of_string (Token Sample.link_row) = hashToken Sample.link_token /\
  forall u,
    In u (users (db (after (VerifyEmailToken Sample.link_token) Sample.link_sent))) ->
    user_id u = UserID Sample.link_row -> email_verified_at u <> None.
Proof.
  assert (H : outcome (VerifyEmailToken Sample.link_token) Sample.link_sent
              = Ok Sample.link_row) by (vm_compute; reflexivity).
  destruct (verify_email_success_is_sound _ _ _ H) as (_ & _ & _ & _ & Hh & _ & _ & Hu).
  split; [exact H|]. split; [exact Hh|exact Hu].
Defined.

Lemma reset_code_handed_verifies_witness :
  In Sample.first_mail
     (handed (after (RequestPasswordReset Sample.reset_request) Sample.start)) /\
  outcome (VerifyPasswordResetCode Sample.address "000042") Sample.one_code
    = Ok Sample.first_row.
Proof.
  assert (Hv : validateEmailAddress (reset_Email Sample.reset_request) = Ok tt)
    by (vm_compute; reflexivity).
  assert (Hs : store_accepts Sample.start 2) by (intros i _; reflexivity).
  assert (Hn : rand_Int_draw (env Sample.start) (draws Sample.start) = Some 42)
    by (vm_compute; reflexivity).
  assert (Hrange : 0 <= 42 < 10 ^ 6) by (vm_compute; split; [discriminate|reflexivity]).
  assert (Hc : issued_after (db Sample.start) (reset_Email Sample.reset_request)
                 TokenTypePasswordReset (reading Sample.start 0 - Hour) < 3)
    by (vm_compute; reflexivity).
  assert (Hu : filter (fun x => String.eqb (user_email x)
                                  (reset_Email Sample.reset_request))
                 (users (db Sample.start)) = [Sample.account])
    by (vm_compute; reflexivity).
  assert (Hold : forall t, In t (email_tokens (db Sample.start)) ->
            Email t = reset_Email Sample.reset_request ->
            Type_ t = TokenTypePasswordReset ->
            Used t = false -> CreatedAt t < reading Sample.start 2)
    by (intros t []).
  destruct (reset_code_handed_verifies Sample.start Sample.reset_request Sample.account
              42 Hv Hs Hn Hrange Hc Hu Hold) as (Hin & _ & Hverify).
  assert (Hcode : Sprintf_0d 6 42 = "000042") by (vm_compute; reflexivity).
  assert (Hrow : reset_record Sample.start Sample.reset_request Sample.account "000042"
                 = Sample.first_row) by (vm_compute; reflexivity).
  assert (Hmail : reset_mail Sample.start Sample.reset_request "000042"
                  = Sample.first_mail) by (vm_compute; reflexivity).
  assert (Hdb : db Sample.one_code =
                db (after (RequestPasswordReset Sample.reset_request) Sample.start))
    by (vm_compute; reflexivity).
  assert (Hs2 : store_accepts Sample.one_code 2) by (intros i _; reflexivity).
  assert (Hexp : reading Sample.one_code 0 <= reading Sample.start 1 + 15 * Minute)
    by (vm_compute; discriminate).
  specialize (Hverify Sample.one_code Hdb Hs2 Hexp).
  rewrite Hcode in Hin, Hverify. rewrite Hrow in Hverify. rewrite Hmail in Hin.
  split; [exact Hin|exact Hverify].
Defined.

Lemma verification_link_handed_verifies_witness :
  In Sample.link_mail
     (handed (after (RequestEmailVerification Sample.verification_request)
                    Sample.start)) /\
  outcome (VerifyEmailToken Sample.link_token) Sample.link_sent = Ok Sample.link_row /\
  In (mkUser 7 Sample.address (Some (3 * Minute)))
     (users (db (after (VerifyEmailToken Sample.link_token) Sample.link_sent))).
Proof.
  assert (Hv : validateEmailAddress (verif_Email Sample.verification_request) = Ok tt)
    by (vm_compute; reflexivity).
  assert (Hid : 0 < verif_UserID Sample.verification_request) by reflexivity.
  assert (Hr : rand_Read_draw (env Sample.start) (draws Sample.start)
               = Some (repeat 0 32)) by (vm_compute; reflexivity).
  assert (Hs : store_accepts Sample.start 1) by (intros i _; reflexivity).
  assert (Hfresh : forall t, In t (email_tokens (db Sample.start)) ->
            Token t = string_of_bytes (hashToken (token_of_entropy (repeat 0 32))) ->
            Type_ t = TokenTypeEmailVerification -> Used t = true)
    by (intros t []).
  destruct (verification_link_handed_verifies Sample.start Sample.verification_request
              (repeat 0 32) Hv Hid Hr Hs Hfresh) as (Hin & Hverify).
  assert (Htoken : token_of_entropy (repeat 0 32) = Sample.link_token)
    by (vm_compute; reflexivity).
  rewrite Htoken in Hin, Hverify.
  assert (Hrow : verification_record Sample.start Sample.verification_request
                   Sample.link_token = Sample.link_row) by (vm_compute; reflexivity).
  assert (Hmail : verification_mail Sample.start Sample.verification_request
                    Sample.link_token = Sample.link_mail) by (vm_compute; reflexivity).
  assert (Hdb : db Sample.link_sent =
                db (after (RequestEmailVerification Sample.verification_request)
                          Sample.start))
    by (vm_compute; reflexivity).
  assert (Hs2 : store_accepts Sample.link_sent 3) by (intros i _; reflexivity).
  assert (Hexp : reading Sample.link_sent 0 <= reading Sample.start 0 + 48 * Hour)
    by (vm_compute; discriminate).
  destruct (Hverify Sample.link_sent Hdb Hs2 Hexp) as (Ho & Husers).
  rewrite Hrow in Ho. rewrite Hmail in Hin.
  split; [exact Hin|]. split; [exact Ho|].
  assert (Hacc : In Sample.account (users (db Sample.start))) by (left; reflexivity).
  assert (Hsame : user_id Sample.account = verif_UserID Sample.verification_request)
    by reflexivity.
  assert (Hnow : Some (reading Sample.link_sent 1) = Some (3 * Minute))
    by (vm_compute; reflexivity).
  pose proof (Husers Sample.account Hacc Hsame) as Hres.
  cbn [Sample.account user_id user_email email_verified_at] in Hres.
  rewrite Hnow in Hres. exact Hres.
Defined.

Lemma verify_email_refused_user_update_spends_token_witness :
  outcome (VerifyEmailToken Sample.link_token) Outage.link_sent
    = Err (fmt_Errorf "failed to mark email as verified" driver_error) /\
  users (db (after (VerifyEmailToken Sample.link_token) Outage.link_sent))
    = [Sample.account] /\
  outcome (VerifyEmailToken Sample.link_token) Outage.link_spent = Err ErrInvalidToken.
Proof.
  assert (Hc : Sample.link_token <> "") by discriminate.
  assert (Hs0 : store_refuses (env Outage.link_sent) (statements Outage.link_sent)
                = false) by reflexivity.
  assert (Hs1 : store_refuses (env Outage.link_sent) (S (statements Outage.link_sent))
                = false) by reflexivity.
  assert (Hs2 : store_refuses (env Outage.link_sent)
                  (S (S (statements Outage.link_sent))) = true) by reflexivity.
  assert (Hsel : select_unused_by_token (string_of_bytes (hashToken Sample.link_token))
                   TokenTypeEmailVerification (db Outage.link_sent)
                 = Some Sample.link_row) by (vm_compute; reflexivity).
  assert (Hexp : reading Outage.link_sent 0 <= ExpiresAt Sample.link_row)
    by (vm_compute; discriminate).
  destruct (verify_email_refused_user_update_spends_token Outage.link_sent
              Sample.link_token Sample.link_row Hc Hs0 Hs1 Hs2 Hsel Hexp)
    as (Ho & _ & _ & Hu & Hlater).
  assert (Honly : forall r, In r (email_tokens (db Outage.link_sent)) ->
            Token r = string_of_bytes (hashToken Sample.link_token) ->
            Type_ r = TokenTypeEmailVerification -> Used r = false ->
            ID r = ID Sample.link_row).
  { intros r [<-|[]] _ _ _. reflexivity. }
  assert (Hdb : db Outage.link_spent =
                db (after (VerifyEmailToken Sample.link_token) Outage.link_sent))
    by (vm_compute; reflexivity).
  assert (Hs : store_refuses (env Outage.link_spent) (statements Outage.link_spent)
               = false) by reflexivity.
  destruct (Hlater Honly Outage.link_spent Hdb Hs) as [Ho2 _].
  split; [exact Ho|]. split; [exact Hu|exact Ho2].
Defined.

Lemma records_keep_identity_through_history_witness :
  well_keyed (db (history [OpVerifyPasswordResetCode Sample.address "000042";
                           OpCleanupExpiredTokens] Sample.one_code)) /\
  (mark_used Sample.first_row = Sample.first_row \/
   (Used Sample.first_row = false /\
    mark_used Sample.first_row = mark_used Sample.first_row)).
Proof.
  assert (Hk : well_keyed (db Sample.one_code)).
  { split.
    - constructor; [intros []|constructor].
    - constructor; [reflexivity|constructor]. }
  destruct (records_keep_identity_through_history
              [OpVerifyPasswordResetCode Sample.address "000042";
               OpCleanupExpiredTokens] Sample.one_code Hk) as (Hk' & _ & Hsame).
  split; [exact Hk'|].
  assert (Hin : In Sample.first_row (email_tokens (db Sample.one_code)))
    by (left; reflexivity).
  assert (E : email_tokens
                (db (history [OpVerifyPasswordResetCode Sample.address "000042";
                              OpCleanupExpiredTokens] Sample.one_code))
              = [mark_used Sample.first_row]) by (vm_compute; reflexivity).
  assert (Hin' : In (mark_used Sample.first_row)
                   (email_tokens
                      (db (history [OpVerifyPasswordResetCode Sample.address "000042";
                                    OpCleanupExpiredTokens] Sample.one_code))))
    by (rewrite E; left; reflexivity).
  exact (Hsame Sample.first_row (mark_used Sample.first_row) Hin Hin' eq_refl).
Defined.

Lemma cleanup_reopens_the_limiter_witness :
  issued_after (db Sample.three_codes) Sample.address TokenTypePasswordReset
    (reading (elapse 13 Sample.three_codes) 0 - Hour) = 3 /\
  issued_after (db (after CleanupExpiredTokens (elapse 13 Sample.three_codes)))
    Sample.address TokenTypePasswordReset
    (reading (elapse 13 Sample.three_codes) 0 - Hour) = 0 /\
  outcome (RequestPasswordReset Sample.reset_request)
          (after CleanupExpiredTokens (elapse 13 Sample.three_codes))
    <> Err ErrRateLimitExceeded.
Proof.
  assert (Hs : store_accepts (elapse 13 Sample.three_codes) 1)
    by (intros i _; reflexivity).
  assert (Hexp : forall t, In t (email_tokens (db (elapse 13 Sample.three_codes))) ->
            Email t = reset_Email Sample.reset_request ->
            Type_ t = TokenTypePasswordReset ->
            ExpiresAt t < reading (elapse 13 Sample.three_codes) 0).
  { intros t [<-|[<-|[<-|[]]]] _ _; vm_compute; reflexivity. }
  destruct (cleanup_reopens_the_limiter (elapse 13 Sample.three_codes)
              Sample.reset_request Hs Hexp) as [Hzero Hopen].
  split; [vm_compute; reflexivity|].
  split; [exact (Hzero _)|].
  exact (Hopen _ eq_refl).
Defined.

Lemma cleanup_keeps_what_still_verifies_witness :
  outcome (VerifyPasswordResetCode Sample.address "000042")
          (mkWorld (mkDB [Sample.first_row] [Sample.account] 2) [Sample.first_mail]
                   Sample.environment 6 3 1 1)
    = Ok Sample.first_row.
Proof.
  assert (Hs : store_accepts Sample.one_code 1) by (intros i _; reflexivity).
  destruct (cleanup_keeps_what_still_verifies Sample.one_code Hs) as (_ & _ & Hverify).
  assert (Hv : validateEmailAddress Sample.address = Ok tt) by (vm_compute; reflexivity).
  assert (Hc : "000042" <> "") by discriminate.
  assert (Hsel : select_latest_unused Sample.address TokenTypePasswordReset
                   (db Sample.one_code) = Some Sample.first_row)
    by (vm_compute; reflexivity).
  assert (Hh : bytes_of_string (Token Sample.first_row) = hashToken "000042")
    by (vm_compute; reflexivity).
  assert (He : reading Sample.one_code 0 <= ExpiresAt Sample.first_row)
    by (vm_compute; discriminate).
  assert (Hdb : db (mkWorld (mkDB [Sample.first_row] [Sample.account] 2)
                      [Sample.first_mail] Sample.environment 6 3 1 1)
                = db (after CleanupExpiredTokens Sample.one_code))
    by (vm_compute; reflexivity).
  assert (Hs2 : store_accepts
                  (mkWorld (mkDB [Sample.first_row] [Sample.account] 2)
                     [Sample.first_mail] Sample.environment 6 3 1 1) 2)
    by (intros i _; reflexivity).
  assert (He2 : reading (mkWorld (mkDB [Sample.first_row] [Sample.account] 2)
                           [Sample.first_mail] Sample.environment 6 3 1 1) 0
                <= ExpiresAt Sample.first_row) by (vm_compute; discriminate).
  exact (Hverify Sample.address "000042" Sample.first_row _ Hv Hc Hsel Hh He Hdb Hs2 He2).
Defined.

Lemma generateSecureToken_shape_witness :
  outcome generateSecureToken Sample.start = Ok Sample.link_token /\
  String.length Sample.link_token = 44%nat /\
  all_base64url Sample.link_token = true.
Proof.
  assert (H : outcome generateSecureToken Sample.start = Ok Sample.link_token)
    by (vm_compute; reflexivity).
  destruct (generateSecureToken_shape Sample.start Sample.link_token H)
    as (Hl & Ha & _).
  split; [exact H|]. split; [exact Hl|exact Ha].
Defined.

Lemma errors_of_the_operations_witness :
  failure (OpVerifyPasswordResetCode Sample.address "999999") Sample.one_code
    = Some ErrInvalidToken /\
  ~ In ErrTokenAlreadyUsed (unwraps ErrInvalidToken) /\
  ~ In sql_ErrNoRows (unwraps ErrInvalidToken).
Proof.
  assert (H : failure (OpVerifyPasswordResetCode Sample.address "999999")
                Sample.one_code = Some ErrInvalidToken) by (vm_compute; reflexivity).
  destruct (errors_of_the_operations _ _ _ H) as (Hused & _ & Hrows & _).
  split; [exact H|]. split; [exact Hused|exact Hrows].
Defined.

Lemma instant_of_expiry_is_read_three_ways_witness :
  outcome (VerifyPasswordResetCode Sample.address "000042") Expiry.one_code
    = Ok Sample.first_row /\
  In Sample.first_row (email_tokens (db (after CleanupExpiredTokens Expiry.one_code))) /\
  exists stats,
    outcome GetTokenStats Expiry.one_code = Ok stats /\
    0 < expired_tokens stats /\
    active_tokens stats =
      count_active_by_type (ExpiresAt Sample.first_row) (db Expiry.one_code).
Proof.
  assert (Hv : validateEmailAddress Sample.address = Ok tt) by (vm_compute; reflexivity).
  assert (Hc : "000042" <> "") by discriminate.
  assert (Hsel : select_latest_unused Sample.address TokenTypePasswordReset
                   (db Expiry.one_code) = Some Sample.first_row)
    by (vm_compute; reflexivity).
  assert (Hh : bytes_of_string (Token Sample.first_row) = hashToken "000042")
    by (vm_compute; reflexivity).
  destruct (instant_of_expiry_is_read_three_ways (db Expiry.one_code) Sample.first_row
              Sample.address "000042" Hv Hc Hsel Hh) as (Hverify & Hclean & Hstats).
  assert (Hs2 : store_accepts Expiry.one_code 2) by (intros i _; reflexivity).
  assert (Hs1 : store_accepts Expiry.one_code 1) by (intros i _; reflexivity).
  assert (Hr0 : reading Expiry.one_code 0 = ExpiresAt Sample.first_row)
    by (vm_compute; reflexivity).
  assert (Hr1 : reading Expiry.one_code 1 = ExpiresAt Sample.first_row)
    by (vm_compute; reflexivity).
  split; [exact (Hverify Expiry.one_code eq_refl Hs2 Hr0)|].
  split; [exact (proj2 (Hclean Expiry.one_code eq_refl Hs1 Hr0))|].
  destruct (Hstats Expiry.one_code eq_refl Hs2 Hr0 Hr1)
    as (stats & Ho & _ & _ & Hpos & Hact & _).
  exists stats. split; [exact Ho|]. split; [exact Hpos|exact Hact].
Defined.

Lemma generated_values_determine_the_draw_witness : numeral "000042" = 42.
Proof.
  destruct generated_values_determine_the_draw as (Hnum & _ & _).
  assert (Hd : rand_Int_draw (env Sample.start) (draws Sample.start) = Some 42)
    by reflexivity.
  assert (Hn : 0 <= 42) by discriminate.
  assert (Ho : outcome (generateNumericCode 6) Sample.start = Ok "000042")
    by (vm_compute; reflexivity).
  exact (Hnum 6 Sample.start 42 "000042" Hd Hn Ho).
Defined.

(** ** The limiter through interleaved operations *)

Lemma run_env_readings :
  forall op w, env (run op w) = env w /\ (readings w <= readings (run op w))%nat.
Proof.
  intros op w. destruct op as [req|email code|req|token| |]; cbn [run]; unfold after.
  - rewrite RequestPasswordReset_run.
    destruct (validateEmailAddress (reset_Email req)) as [[]|e]; [|auto].
    cbv zeta. destruct (store_refuses (env w) (statements w)); [cbn; auto|].
    destruct (3 <=? _); [cbn; auto|].
    destruct (rand_Int_draw (env w) (draws w)); [|cbn; auto].
    destruct (store_refuses (env w) (S (statements w))); cbn [snd env readings];
      split; auto; lia.
  - rewrite VerifyPasswordResetCode_run.
    destruct (validateEmailAddress email) as [[]|e]; [|auto].
    destruct (String.eqb code ""); [auto|].
    cbv zeta. destruct (store_refuses (env w) (statements w)); [cbn; auto|].
    destruct (select_latest_unused _ _ _) as [t|]; [|cbn; auto].
    destruct (ExpiresAt t <? reading w 0); [cbn; auto|].
    destruct (negb _); [cbn; auto|].
    destruct (store_refuses (env w) (S (statements w))); cbn; auto.
  - rewrite RequestEmailVerification_run.
    destruct (validateEmailAddress (verif_Email req)) as [[]|e]; [|auto].
    destruct (verif_UserID req <=? 0); [auto|].
    destruct (rand_Read_draw (env w) (draws w)); [|cbn; auto].
    cbv zeta. destruct (store_refuses (env w) (statements w)); cbn [snd env readings];
      split; auto; lia.
  - rewrite VerifyEmailToken_run.
    destruct (String.eqb token ""); [auto|].
    cbv zeta. destruct (store_refuses (env w) (statements w)); [cbn; auto|].
    destruct (select_unused_by_token _ _ _) as [t|]; [|cbn; auto].
    destruct (ExpiresAt t <? reading w 0); [cbn; auto|].
    destruct (store_refuses (env w) (S (statements w))); [cbn; auto|].
    destruct (store_refuses (env w) (S (S (statements w)))); cbn [snd env readings];
      split; auto; lia.
  - rewrite CleanupExpiredTokens_run.
    destruct (store_refuses (env w) (statements w)); cbn [snd env readings];
      split; auto; lia.
  - unfold GetTokenStats, bind, time_Now, db_Query, db_QueryRow, ret.
    cbn [db env statements readings handed draws deliveries].
    destruct (store_refuses (env w) (statements w)); [cbn; auto|].
    cbn [db env statements readings handed draws deliveries].
    destruct (store_refuses (env w) (S (statements w))); [cbn; auto|].
    unfold count_expired. cbn [snd env readings]. split; auto; lia.
Qed.

Lemma history_env_readings :
  forall ops w,
    env (history ops w) = env w /\ (readings w <= readings (history ops w))%nat.
Proof.
  induction ops as [|op ops IH] using rev_ind; intro w; [cbn; auto|].
  rewrite history_snoc. destruct (IH w) as [He Hr].
  destruct (run_env_readings op (history ops w)) as [He' Hr'].
  split; [congruence|lia].
Qed.

Lemma request_stored_one :
  forall req w r,
    email_tokens (db (after (RequestPasswordReset req) w)) = email_tokens (db w) ++ [r] ->
    validateEmailAddress (reset_Email req) = Ok tt /\
    Email r = reset_Email req /\ Type_ r = TokenTypePasswordReset /\
    CreatedAt r = reading w 2.
Proof.
  intros req w r H. unfold after in H. rewrite RequestPasswordReset_run in H.
  assert (Hno : email_tokens (db w) = email_tokens (db w) ++ [r] -> False).
  { intro E. rewrite <- (app_nil_r (email_tokens (db w))) in E at 1.
    apply app_inv_head in E. discriminate. }
  destruct (validateEmailAddress (reset_Email req)) as [[]|e]; [|elim (Hno H)].
  cbv zeta in H.
  destruct (store_refuses (env w) (statements w)); [elim (Hno H)|].
  destruct (3 <=? _); [elim (Hno H)|].
  destruct (rand_Int_draw (env w) (draws w)) as [n|]; [|elim (Hno H)].
  destruct (store_refuses (env w) (S (statements w))); [elim (Hno H)|].
  cbn [snd db insert_token_for_email insert_rows email_tokens] in H.
  apply app_inv_head in H. split; [reflexivity|].
  assert (Hall : Forall (fun t => Email t = reset_Email req /\
                                  Type_ t = TokenTypePasswordReset /\
                                  CreatedAt t = reading w 2) [r]).
  { rewrite <- H. apply number_rows_forall. intros u id _. repeat split. }
  inversion Hall. assumption.
Qed.

Lemma quiet_count :
  forall email op w since,
    quiet email op = true ->
    issued_after (db (run op w)) email TokenTypePasswordReset since =
    issued_after (db w) email TokenTypePasswordReset since.
Proof.
  intros email op w since Hq. unfold issued_after.
  destruct op as [req|email' code|req|token| |]; cbn [run quiet] in *.
  - destruct (RequestPasswordReset_appends req w) as (added & -> & Hadd).
    rewrite count_app, (count_none _ added); [lia|].
    intros t Hin. rewrite Forall_forall in Hadd. destruct (Hadd t Hin) as [He _].
    destruct (issued_since email TokenTypePasswordReset since t) eqn:E; [|reflexivity].
    apply issued_since_spec in E. destruct E as [E _].
    apply negb_true_iff, String.eqb_neq in Hq. congruence.
  - f_equal. apply count_flips. apply (VerifyPasswordResetCode_flips email' code w).
  - destruct (RequestEmailVerification_appends req w) as (added & -> & [->|[token ->]]).
    + rewrite app_nil_r. reflexivity.
    + rewrite count_app, (count_none _ [_]); [lia|].
      intros t [<-|[]].
      destruct (issued_since _ _ _ _) eqn:E; [|reflexivity].
      apply issued_since_spec in E. destruct E as (_ & E & _). discriminate.
  - f_equal. apply count_flips. apply (VerifyEmailToken_flips token w).
  - discriminate.
  - destruct (GetTokenStats_store w) as [-> _]. reflexivity.
Qed.

Lemma quiet_history_count :
  forall email ops w since,
    Forall (fun op => quiet email op = true) ops ->
    issued_after (db (history ops w)) email TokenTypePasswordReset since =
    issued_after (db w) email TokenTypePasswordReset since.
Proof.
  intros email ops. induction ops as [|op ops IH] using rev_ind; intros w since H;
    [reflexivity|].
  apply Forall_app in H. destruct H as [Hops Hop]. inversion Hop; subst.
  rewrite history_snoc, quiet_count by assumption. now apply IH.
Qed.

Lemma count_snoc :
  forall email since l r,
    Email r = email -> Type_ r = TokenTypePasswordReset ->
    Z.of_nat (List.length (filter (issued_since email TokenTypePasswordReset since)
                             (l ++ [r]))) =
    Z.of_nat (List.length (filter (issued_since email TokenTypePasswordReset since) l))
    + (if since <? CreatedAt r then 1 else 0).
Proof.
  intros email since l r He Hty. rewrite count_app. cbn [filter].
  unfold issued_since at 2. rewrite He, Hty, String.eqb_refl. cbn [TokenType_eqb andb].
  destruct (since <? CreatedAt r); reflexivity.
Qed.

(** C5, as amended. [checkRateLimit] fails [ErrRateLimitExceeded] exactly
    when the store answers the count and at least 3 records of the address
    and flow were created within the trailing hour, and it writes nothing; a
    [RequestPasswordReset] for a valid address fails that way under exactly
    that condition, and then stores and sends nothing.  So, on a clock that
    does not run backwards: once three reset requests for an address have
    each stored one record, with neither a cleanup nor another reset request
    for the address in between, a further request for the address whose check
    the store answers less than an hour after the first of the three records
    was created fails [ErrRateLimitExceeded] and leaves the store and the
    notifier untouched; and, when the reset records the table held for the
    address before were created no later than that first record, a request
    on the table so left whose check is an hour or more after the first
    record was created succeeds, given that the store, the entropy source and
    the notifier work. *)
Theorem rate_limit_three_per_hour :
  (forall w email ty,
     let check := checkRateLimit email ty in
     (outcome check w = Err ErrRateLimitExceeded <->
      store_refuses (env w) (statements w) = false /\
      3 <= issued_after (db w) email ty (reading w 0 - Hour)) /\
     db (after check w) = db w /\
     handed (after check w) = handed w) /\
  (forall w req,
     let request := RequestPasswordReset req in
     validateEmailAddress (reset_Email req) = Ok tt ->
     (outcome request w = Err ErrRateLimitExceeded <->
      store_refuses (env w) (statements w) = false /\
      3 <= issued_after (db w) (reset_Email req) TokenTypePasswordReset
             (reading w 0 - Hour)) /\
     (outcome request w = Err ErrRateLimitExceeded ->
      db (after request w) = db w /\ handed (after request w) = handed w)) /\
  (forall w req ops1 ops2 ops3 r1 r2 r3,
     let email := reset_Email req in
     let request := RequestPasswordReset req in
     let w1 := after request w in
     let v1 := history ops1 w1 in
     let w2 := after request v1 in
     let v2 := history ops2 w2 in
     let w3 := after request v2 in
     let v3 := history ops3 w3 in
     (forall i, clock (env w) i <= clock (env w) (S i)) ->
     Forall (fun op => quiet email op = true) (ops1 ++ ops2 ++ ops3) ->
     email_tokens (db w1) = email_tokens (db w) ++ [r1] ->
     email_tokens (db w2) = email_tokens (db v1) ++ [r2] ->
     email_tokens (db w3) = email_tokens (db v2) ++ [r3] ->
     CreatedAt r1 = reading w 2 /\
     (store_refuses (env v3) (statements v3) = false ->
      reading v3 0 - Hour < CreatedAt r1 ->
      outcome request v3 = Err ErrRateLimitExceeded /\
      db (after request v3) = db v3 /\ handed (after request v3) = handed v3) /\
     (forall wx,
        email_tokens (db wx) = email_tokens (db v3) ->
        (forall t, In t (email_tokens (db w)) ->
           Email t = email -> Type_ t = TokenTypePasswordReset ->
           CreatedAt t <= CreatedAt r1) ->
        CreatedAt r1 + Hour <= reading wx 0 ->
        store_accepts wx 2 ->
        rand_Int_draw (env wx) (draws wx) <> None ->
        notifier_fails (env wx) (deliveries wx) = false ->
        outcome request wx = Ok tt)).
Proof.
  assert (Hrequest : forall w req,
            validateEmailAddress (reset_Email req) = Ok tt ->
            (outcome (RequestPasswordReset req) w = Err ErrRateLimitExceeded <->
             store_refuses (env w) (statements w) = false /\
             3 <= issued_after (db w) (reset_Email req) TokenTypePasswordReset
                    (reading w 0 - Hour)) /\
            (outcome (RequestPasswordReset req) w = Err ErrRateLimitExceeded ->
             db (after (RequestPasswordReset req) w) = db w /\
             handed (after (RequestPasswordReset req) w) = handed w)).
  { intros w req Hv. unfold outcome, after. rewrite RequestPasswordReset_run, Hv.
    cbv zeta.
    destruct (store_refuses (env w) (statements w)).
    { split; [|discriminate]. split; [discriminate|]. intros [H _]. discriminate. }
    destruct (3 <=? issued_after (db w) (reset_Email req) TokenTypePasswordReset
                      (reading w 0 - Hour)) eqn:Hc.
    { apply Z.leb_le in Hc. cbn [fst snd db handed]. tauto. }
    apply Z.leb_gt in Hc.
    assert (Hnot : 3 <= issued_after (db w) (reset_Email req) TokenTypePasswordReset
                          (reading w 0 - Hour) -> False) by lia.
    destruct (rand_Int_draw (env w) (draws w)) as [n|].
    - destruct (store_refuses (env w) (S (statements w))).
      + split; [|discriminate]. split; [discriminate|]. intros [_ H]. elim (Hnot H).
      + cbn [fst]. destruct (notifier_fails (env w) (deliveries w)).
        * split; [|discriminate]. split; [discriminate|]. intros [_ H]. elim (Hnot H).
        * split; [|discriminate]. split; [discriminate|]. intros [_ H]. elim (Hnot H).
    - split; [|discriminate]. split; [discriminate|]. intros [_ H]. elim (Hnot H). }
  split; [|split].
  - intros w email ty check. unfold check, outcome, after.
    rewrite checkRateLimit_run. simpl.
    split; [|split; reflexivity].
    destruct (store_refuses (env w) (statements w)).
    + split; [discriminate|]. intros [H _]. discriminate.
    + destruct (3 <=? issued_after (db w) email ty (reading w 0 - Hour)) eqn:Hc.
      * apply Z.leb_le in Hc. tauto.
      * apply Z.leb_gt in Hc. split; [discriminate|]. intros [_ H]. lia.
  - exact Hrequest.
  - intros w req ops1 ops2 ops3 r1 r2 r3 email request w1 v1 w2 v2 w3 v3
           Hclock Hquiet Hs1 Hs2 Hs3.
    apply Forall_app in Hquiet. destruct Hquiet as [Hq1 Hquiet].
    apply Forall_app in Hquiet. destruct Hquiet as [Hq2 Hq3].
    destruct (request_stored_one req w r1 Hs1) as (Hv & He1 & Hty1 & Hc1).
    destruct (request_stored_one req v1 r2 Hs2) as (_ & He2 & Hty2 & Hc2).
    destruct (request_stored_one req v2 r3 Hs3) as (_ & He3 & Hty3 & Hc3).
    fold email in He1, He2, He3.
    (* the clock through the run *)
    assert (Hmono : forall i j, (i <= j)%nat -> clock (env w) i <= clock (env w) j)
      by (apply clock_monotone; exact Hclock).
    destruct (run_env_readings (OpRequestPasswordReset req) w) as [E1 R1].
    destruct (history_env_readings ops1 w1) as [E1' R1'].
    destruct (run_env_readings (OpRequestPasswordReset req) v1) as [E2 R2].
    destruct (history_env_readings ops2 w2) as [E2' R2'].
    cbn [run] in E1, R1, E2, R2. fold request in E1, R1, E2, R2.
    fold w1 in E1, R1. fold v1 in E1', R1', E2, R2. fold w2 in E2, R2, E2', R2'.
    fold v2 in E2', R2'.
    assert (H12 : CreatedAt r1 <= CreatedAt r2).
    { rewrite Hc1, Hc2. unfold reading. rewrite E1', E1. apply Hmono. lia. }
    assert (H13 : CreatedAt r1 <= CreatedAt r3).
    { rewrite Hc1, Hc3. unfold reading. rewrite E2', E2, E1', E1. apply Hmono. lia. }
    (* what a later check counts *)
    assert (Hcount : forall wx since,
              email_tokens (db wx) = email_tokens (db v3) ->
              issued_after (db wx) email TokenTypePasswordReset since =
              issued_after (db w) email TokenTypePasswordReset since
              + (if since <? CreatedAt r1 then 1 else 0)
              + (if since <? CreatedAt r2 then 1 else 0)
              + (if since <? CreatedAt r3 then 1 else 0)).
    { intros wx since Hx.
      assert (A3 : issued_after (db wx) email TokenTypePasswordReset since =
                   issued_after (db w3) email TokenTypePasswordReset since).
      { unfold issued_after at 1. rewrite Hx.
        apply (quiet_history_count email ops3 w3 since Hq3). }
      assert (B3 : issued_after (db w3) email TokenTypePasswordReset since =
                   issued_after (db v2) email TokenTypePasswordReset since
                   + (if since <? CreatedAt r3 then 1 else 0)).
      { unfold issued_after. rewrite Hs3. now apply count_snoc. }
      assert (A2 : issued_after (db v2) email TokenTypePasswordReset since =
                   issued_after (db w2) email TokenTypePasswordReset since)
        by apply (quiet_history_count email ops2 w2 since Hq2).
      assert (B2 : issued_after (db w2) email TokenTypePasswordReset since =
                   issued_after (db v1) email TokenTypePasswordReset since
                   + (if since <? CreatedAt r2 then 1 else 0)).
      { unfold issued_after. rewrite Hs2. now apply count_snoc. }
      assert (A1 : issued_after (db v1) email TokenTypePasswordReset since =
                   issued_after (db w1) email TokenTypePasswordReset since)
        by apply (quiet_history_count email ops1 w1 since Hq1).
      assert (B1 : issued_after (db w1) email TokenTypePasswordReset since =
                   issued_after (db w) email TokenTypePasswordReset since
                   + (if since <? CreatedAt r1 then 1 else 0)).
      { unfold issued_after. rewrite Hs1. now apply count_snoc. }
      lia. }
    split; [exact Hc1|]. split.
    + intros Hstore Hhour.
      assert (H3 : 3 <= issued_after (db v3) email TokenTypePasswordReset
                          (reading v3 0 - Hour)).
      { rewrite (Hcount v3 _ eq_refl).
        assert (A : (reading v3 0 - Hour <? CreatedAt r1) = true)
          by (apply Z.ltb_lt; lia).
        assert (B : (reading v3 0 - Hour <? CreatedAt r2) = true)
          by (apply Z.ltb_lt; lia).
        assert (C : (reading v3 0 - Hour <? CreatedAt r3) = true)
          by (apply Z.ltb_lt; lia).
        rewrite A, B, C.
        assert (0 <= issued_after (db w) email TokenTypePasswordReset
                       (reading v3 0 - Hour)) by (unfold issued_after; lia).
        lia. }
      destruct (Hrequest v3 req Hv) as [Hiff Hsame].
      assert (Ho : outcome (RequestPasswordReset req) v3 = Err ErrRateLimitExceeded)
        by (apply Hiff; auto).
      split; [exact Ho|]. exact (Hsame Ho).
    + intros wx Hx Hold Hlate Hacc Hdraw Hnotify.
      assert (Hlt : issued_after (db wx) email TokenTypePasswordReset
                      (reading wx 0 - Hour) < 3).
      { rewrite (Hcount wx _ Hx).
        assert (A : (reading wx 0 - Hour <? CreatedAt r1) = false)
          by (apply Z.ltb_ge; lia).
        rewrite A.
        assert (Z0 : issued_after (db w) email TokenTypePasswordReset
                       (reading wx 0 - Hour) = 0).
        { unfold issued_after. apply count_none. intros t Hin.
          destruct (issued_since email TokenTypePasswordReset (reading wx 0 - Hour) t)
            eqn:E; [|reflexivity].
          apply issued_since_spec in E. destruct E as (He & Hty & Hc).
          specialize (Hold t Hin He Hty). lia. }
        rewrite Z0.
        destruct (reading wx 0 - Hour <? CreatedAt r2);
          destruct (reading wx 0 - Hour <? CreatedAt r3); lia. }
      destruct (rand_Int_draw (env wx) (draws wx)) as [n|] eqn:Hn; [|elim Hdraw; reflexivity].
      pose proof (request_reset_accepted wx req n Hv (store_accepts_0 _ _ Hacc)
                    (store_accepts_1 _ _ Hacc) Hn Hlt) as Hrun.
      unfold request, outcome. rewrite Hrun, Hnotify. reflexivity.
Qed.

Lemma rate_limit_three_per_hour_witness :
  history [OpVerifyPasswordResetCode Sample.address "000044"; OpGetTokenStats]
          Sample.three_codes = Interleaved.third_used /\
  reading Interleaved.third_used 0 - Hour < CreatedAt Sample.first_row /\
  outcome (RequestPasswordReset Sample.reset_request) Interleaved.third_used
    = Err ErrRateLimitExceeded /\
  CreatedAt Sample.first_row + Hour <= reading Interleaved.hour_after 0 /\
  outcome (RequestPasswordReset Sample.reset_request) Interleaved.hour_after = Ok tt.
Proof.
  destruct rate_limit_three_per_hour as (_ & _ & Hscenario).
  assert (Hclock : forall i, clock (env Sample.start) i <= clock (env Sample.start) (S i)).
  { intros i. simpl. unfold Minute, Second, Nanosecond. lia. }
  assert (Hquiet : Forall (fun op => quiet (reset_Email Sample.reset_request) op = true)
                     ([] ++ [] ++
                      [OpVerifyPasswordResetCode Sample.address "000044";
                       OpGetTokenStats]))
    by (repeat constructor).
  assert (Hs1 : email_tokens
                  (db (after (RequestPasswordReset Sample.reset_request) Sample.start))
                = email_tokens (db Sample.start) ++ [Sample.first_row])
    by (vm_compute; reflexivity).
  assert (Hs2 : email_tokens
                  (db (after (RequestPasswordReset Sample.reset_request)
                         (history []
                            (after (RequestPasswordReset Sample.reset_request)
                               Sample.start))))
                = email_tokens
                    (db (history []
                           (after (RequestPasswordReset Sample.reset_request)
                              Sample.start)))
                  ++ [Sample.second_row])
    by (vm_compute; reflexivity).
  assert (Hs3 : email_tokens
                  (db (after (RequestPasswordReset Sample.reset_request)
                         (history []
                            (after (RequestPasswordReset Sample.reset_request)
                               (history []
                                  (after (RequestPasswordReset Sample.reset_request)
                                     Sample.start))))))
                = email_tokens
                    (db (history []
                           (after (RequestPasswordReset Sample.reset_request)
                              (history []
                                 (after (RequestPasswordReset Sample.reset_request)
                                    Sample.start)))))
                  ++ [Sample.third_row])
    by (vm_compute; reflexivity).
  pose proof (Hscenario Sample.start Sample.reset_request [] []
                [OpVerifyPasswordResetCode Sample.address "000044"; OpGetTokenStats]
                Sample.first_row Sample.second_row Sample.third_row
                Hclock Hquiet Hs1 Hs2 Hs3) as H.
  cbv zeta in H. destruct H as (_ & Hfourth & Hlater).
  assert (E : history [OpVerifyPasswordResetCode Sample.address "000044";
                       OpGetTokenStats]
                (after (RequestPasswordReset Sample.reset_request)
                   (history []
                      (after (RequestPasswordReset Sample.reset_request)
                         (history []
                            (after (RequestPasswordReset Sample.reset_request)
                               Sample.start)))))
              = Interleaved.third_used) by (vm_compute; reflexivity).
  rewrite E in Hfourth, Hlater.
  assert (Hthree : history [OpVerifyPasswordResetCode Sample.address "000044";
                            OpGetTokenStats] Sample.three_codes
                   = Interleaved.third_used) by (vm_compute; reflexivity).
  assert (Hstore : store_refuses (env Interleaved.third_used)
                     (statements Interleaved.third_used) = false) by reflexivity.
  assert (Hhour : reading Interleaved.third_used 0 - Hour < CreatedAt Sample.first_row)
    by (vm_compute; reflexivity).
  assert (Hlate : CreatedAt Sample.first_row + Hour <= reading Interleaved.hour_after 0)
    by (vm_compute; discriminate).
  destruct (Hfourth Hstore Hhour) as (Ho4 & _ & _).
  split; [exact Hthree|]. split; [exact Hhour|]. split; [exact Ho4|].
  split; [exact Hlate|].
  apply (Hlater Interleaved.hour_after).
  - reflexivity.
  - intros t [].
  - exact Hlate.
  - intros i _. reflexivity.
  - discriminate.
  - reflexivity.
Defined.
